(** * Theme extraction engine of the support portal

    A shallow embedding of [react-app/src/lib/themeExtractor.ts] and of
    the extraction, the sanitizer and the color utilities of
    [react-app/src/pages/admin/BrandingSettings.tsx].

    Conventions.
    - A JavaScript string is a [string]: a sequence of 8-bit code units,
      read as the code units U+0000 .. U+00FF.
    - A JavaScript number is a binary64 [float]; [Math.round],
      [Math.min], [Math.max], [%], [parseInt] and [toString(16)] are
      written out over it in [JSNum].
    - A regular expression literal is a [regex] term run by the
      backtracking matcher [rmatch], which follows the continuation
      semantics of ECMAScript.
    - [DOMParser] belongs to the browser: the parser is a parameter and
      the code is embedded over the document tree it returns.
    - A thrown [TypeError] is the [Throw] case of [completion]. *)

From Stdlib Require Import Floats ZArith NArith List Bool Ascii String Lia.
From Stdlib Require Import HexadecimalString QArith Qround Sorted Permutation.
Import ListNotations.

Set Warnings "-inexact-float,-register-all".

Close Scope Q_scope.

Local Open Scope list_scope.
Local Open Scope string_scope.

(* ------------------------------------------------------------------ *)
(** * Characters and strings *)

Module Str.

Definition code (c : ascii) : nat := nat_of_ascii c.

Definition in_range (lo hi : nat) (c : ascii) : bool :=
  (lo <=? code c)%nat && (code c <=? hi)%nat.

Definition is_digit (c : ascii) : bool := in_range 48 57 c.
Definition is_upper (c : ascii) : bool := in_range 65 90 c.
Definition is_lower (c : ascii) : bool := in_range 97 122 c.

(** [[0-9a-fA-F]] *)
Definition is_hex (c : ascii) : bool :=
  is_digit c || in_range 97 102 c || in_range 65 70 c.

(** [\w] is [[A-Za-z0-9_]]. *)
Definition is_word (c : ascii) : bool :=
  is_digit c || is_upper c || is_lower c || (code c =? 95)%nat.

(** [\s], and the characters [trim] strips: TAB, LF, VT, FF, CR, SP and
    NBSP are the white space and line terminators below U+0100. *)
Definition is_space (c : ascii) : bool :=
  in_range 9 13 c || (code c =? 32)%nat || (code c =? 160)%nat.

(** [toLowerCase] on one code unit below U+0100: A-Z, and the Latin-1
    capitals U+00C0 .. U+00DE without the multiplication sign U+00D7.
    On these code units [toLowerCase] works unit by unit and keeps the
    length.  It does not from U+0100 up (U+0130 becomes two units,
    U+212A becomes [k]); a [string] holds no such unit, so a statement
    over every [string] is one over every text of code units below
    U+0100. *)
Definition lower (c : ascii) : ascii :=
  if is_upper c || (in_range 192 222 c && negb (code c =? 215)%nat)
  then ascii_of_nat (code c + 32) else c.

(** The case folding of a pattern compiled with the [i] flag and without
    the [u] flag: a code unit from U+0080 up never folds onto an ASCII
    one, so against an ASCII pattern character only a-z fold. *)
Definition fold (c : ascii) : ascii :=
  if is_lower c then ascii_of_nat (code c - 32) else c.

Fixpoint map (f : ascii -> ascii) (s : string) : string :=
  match s with
  | EmptyString => EmptyString
  | String c t => String (f c) (map f t)
  end.

Definition toLowerCase (s : string) : string := map lower s.

Fixpoint rev_onto (s acc : string) : string :=
  match s with
  | EmptyString => acc
  | String c t => rev_onto t (String c acc)
  end.

Definition rev (s : string) : string := rev_onto s EmptyString.

Fixpoint skipn (n : nat) (s : string) : string :=
  match n, s with
  | O, _ => s
  | S _, EmptyString => EmptyString
  | S n', String _ t => skipn n' t
  end.

Fixpoint firstn (n : nat) (s : string) : string :=
  match n, s with
  | O, _ => EmptyString
  | S _, EmptyString => EmptyString
  | S n', String c t => String c (firstn n' t)
  end.

(** [s.slice(a, b)] for [0 <= a <= b]. *)
Definition slice (a b : nat) (s : string) : string :=
  firstn (b - a) (skipn a s).

Fixpoint drop_spaces (s : string) : string :=
  match s with
  | String c t => if is_space c then drop_spaces t else s
  | EmptyString => EmptyString
  end.

Definition trim (s : string) : string :=
  rev (drop_spaces (rev (drop_spaces s))).

(** [s.replace(c, '')] with a one-character string pattern: only the
    first occurrence goes. *)
Fixpoint remove_first (c : ascii) (s : string) : string :=
  match s with
  | EmptyString => EmptyString
  | String d t => if Ascii.eqb c d then t else String d (remove_first c t)
  end.

Fixpoint padStart0 (fuel : nat) (s : string) : string :=
  match fuel with
  | O => s
  | S f => String "0"%char (padStart0 f s)
  end.

(** [s.padStart(n, '0')] *)
Definition padStart (n : nat) (s : string) : string :=
  padStart0 (n - String.length s) s.

Fixpoint all (p : ascii -> bool) (s : string) : bool :=
  match s with
  | EmptyString => true
  | String c t => p c && all p t
  end.

Definition dq : string := String (ascii_of_nat 34) EmptyString.

Definition all_ascii : list ascii := List.map ascii_of_nat (seq 0 256).

(** The value of the first pair with the key. *)
Fixpoint assoc (l : list (string * string)) (key : string) : option string :=
  match l with
  | [] => None
  | (k, v) :: t => if String.eqb k key then Some v else assoc t key
  end.

End Str.

(* ------------------------------------------------------------------ *)
(** * Numbers *)

Module JSNum.

Local Open Scope float_scope.

Definition NaN : float := nan.

(** The Number nearest to an integer (ties to even, overflow to
    infinity). *)
Definition of_Z (z : Z) : float := SF2Prim (binary_normalize prec emax z 0 false).

Definition of_nat (n : nat) : float := of_Z (Z.of_nat n).

Definition is_neg_zero (x : float) : bool := is_zero x && get_sign x.

Definition max2 (a b : float) : float :=
  if is_nan a || is_nan b then NaN
  else if a <? b then b
  else if b <? a then a
  else if is_neg_zero a then b else a.

Definition min2 (a b : float) : float :=
  if is_nan a || is_nan b then NaN
  else if a <? b then a
  else if b <? a then b
  else if is_neg_zero a then a else b.

(** [Math.max(a, b, c)] and [Math.min(a, b, c)] *)
Definition max3 (a b c : float) : float := max2 (max2 a b) c.
Definition min3 (a b c : float) : float := min2 (min2 a b) c.

(** [Math.round]: the nearest integer, a tie going up. *)
Definition round (x : float) : float :=
  match Prim2SF x with
  | S754_finite s m e =>
      if (0 <=? e)%Z then x
      else
        let d := (2 ^ (- e))%Z in
        let twice := ((if s then - (2 * Z.pos m) else 2 * Z.pos m) + d)%Z in
        let n := (twice / (2 * d))%Z in
        if (n =? 0)%Z && s then (-0) else of_Z n
  | _ => x
  end.

(** [x % y]: the remainder is exact and takes the sign of [x]. *)
Definition rem (x y : float) : float :=
  match Prim2SF x, Prim2SF y with
  | S754_nan, _ | _, S754_nan => NaN
  | S754_infinity _, _ => NaN
  | _, S754_zero _ => NaN
  | _, S754_infinity _ => x
  | S754_zero _, _ => x
  | S754_finite sx mx ex, S754_finite _ my ey =>
      let e := Z.min ex ey in
      let a := (Z.pos mx * 2 ^ (ex - e))%Z in
      let b := (Z.pos my * 2 ^ (ey - e))%Z in
      let r := (a mod b)%Z in
      if (r =? 0)%Z then (if sx then (-0) else 0)
      else SF2Prim (binary_normalize prec emax (if sx then (- r)%Z else r) e false)
  end.

(** The integer part, for the printing of integral values. *)
Definition trunc (x : float) : Z :=
  match Prim2SF x with
  | S754_finite s m e =>
      let a := if (0 <=? e)%Z then (Z.pos m * 2 ^ e)%Z
               else (Z.pos m / 2 ^ (- e))%Z in
      if s then (- a)%Z else a
  | _ => 0%Z
  end.

Definition hex_of_N (n : N) : string :=
  NilZero.string_of_uint (N.to_hex_uint n).

(** [x.toString(16)] where [x] is NaN or integral, which is all that
    [rgbToHex] prints: its callers pass results of [parseInt] and of
    [Math.round]. *)
Definition toString16 (x : float) : string :=
  if is_nan x then "NaN"
  else
    let z := trunc x in
    if (z <? 0)%Z then String "-"%char (hex_of_N (Z.to_N (- z)))
    else hex_of_N (Z.to_N z).

Definition digit_val (c : ascii) : option Z :=
  let n := Z.of_nat (Str.code c) in
  if Str.is_digit c then Some (n - 48)%Z
  else if Str.in_range 97 122 c then Some (n - 87)%Z
  else if Str.in_range 65 90 c then Some (n - 55)%Z
  else None.

(** The longest prefix of digits of the radix, as an integer; [None]
    when it is empty. *)
Fixpoint digits (radix : Z) (s : string) (acc : option Z) : option Z :=
  match s with
  | EmptyString => acc
  | String c t =>
      match digit_val c with
      | Some d =>
          if (d <? radix)%Z
          then digits radix t (Some (match acc with Some a => a * radix + d | None => d end)%Z)
          else acc
      | None => acc
      end
  end.

Definition strip_0x (s : string) : option string :=
  match s with
  | String z (String x t) =>
      if Ascii.eqb z "0"%char && (Ascii.eqb x "x"%char || Ascii.eqb x "X"%char)
      then Some t else None
  | _ => None
  end.

(** [parseInt(s, radix)], with [radix] 16 or absent ([None]). *)
Definition parseInt (s : string) (radix : option Z) : float :=
  let s1 := Str.drop_spaces s in
  let '(neg, s2) :=
    match s1 with
    | String c t =>
        if Ascii.eqb c "-"%char then (true, t)
        else if Ascii.eqb c "+"%char then (false, t)
        else (false, s1)
    | EmptyString => (false, s1)
    end in
  let '(r, s3) :=
    match radix, strip_0x s2 with
    | Some 16%Z, Some t => (16%Z, t)
    | Some r, _ => (r, s2)
    | None, Some t => (16%Z, t)
    | None, None => (10%Z, s2)
    end in
  match digits r s3 None with
  | None => NaN
  | Some z => if neg then - (of_Z z) else of_Z z
  end.

End JSNum.

(* ------------------------------------------------------------------ *)
(** * Color utilities ([themeExtractor.ts], lines 190-251) *)

Module Color.

Import JSNum.
Local Open Scope float_scope.

Definition hash : ascii := "#"%char.

(** [normalizeHex]: the two [if]s run one after the other, on the
    string as the first one left it. *)
Definition normalizeHex (hex : string) : string :=
  let hex := Str.remove_first hash hex in
  let hex :=
    match hex with
    | String h0 (String h1 (String h2 EmptyString)) =>
        String h0 (String h0 (String h1 (String h1 (String h2 (String h2 EmptyString)))))
    | _ => hex
    end in
  let hex := if (String.length hex =? 8)%nat then Str.firstn 6 hex else hex in
  String hash (Str.toLowerCase hex).

Definition channel (a b : nat) (hex : string) : float :=
  parseInt (Str.slice a b hex) (Some 16%Z).

Definition isNeutralColor (hex : string) : bool :=
  let r := channel 1 3 hex in
  let g := channel 3 5 hex in
  let b := channel 5 7 hex in
  let maxDiff := max3 (abs (r - g)) (abs (r - b)) (abs (g - b)) in
  (maxDiff <? 20)
  || ((240 <? r) && (240 <? g) && (240 <? b))
  || ((r <? 15) && (g <? 15) && (b <? 15)).

Definition hex2 (v : float) : string :=
  Str.padStart 2 (toString16 (min2 255 (max2 0 v))).

Definition rgbToHex (r g b : float) : string :=
  String hash (hex2 r ++ hex2 g ++ hex2 b).

Definition hslToHex (h s l : float) : string :=
  let s := s / 100 in
  let l := l / 100 in
  let a := s * min2 l (1 - l) in
  let f (n : float) :=
    let k := rem (n + h / 30) 12 in
    let color := l - a * max2 (min3 (k - 3) (9 - k) 1) (-1) in
    round (255 * color) in
  rgbToHex (f 0) (f 8) (f 4).

Definition getLuminance (hex : string) : float :=
  let r := channel 1 3 hex / 255 in
  let g := channel 3 5 hex / 255 in
  let b := channel 5 7 hex / 255 in
  0.2126 * r + 0.7152 * g + 0.0722 * b.

Definition lighten (c amount : float) : float :=
  min2 255 (max2 0 (round (c + 255 * amount))).

Definition adjustLightness (hex : string) (amount : float) : string :=
  let r := channel 1 3 hex in
  let g := channel 3 5 hex in
  let b := channel 5 7 hex in
  rgbToHex (lighten r amount) (lighten g amount) (lighten b amount).

End Color.

(* ------------------------------------------------------------------ *)
(** * Regular expressions *)

Module Regex.

Inductive regex : Type :=
| Eps : regex
| Cls (p : ascii -> bool) : regex
| Seq (a b : regex) : regex
| Alt (a b : regex) : regex
| Rep (min : nat) (max : option nat) (a : regex) : regex
| Grp (n : nat) (a : regex) : regex
| NotAhead (a : regex) : regex
| WordB : regex.

(** A matcher state: the text left of the position (nearest character
    first), the text right of it, and the captures made so far (latest
    first). *)
Record mstate : Type := MkSt {
  before : string;
  rest : string;
  caps : list (nat * string)
}.

Definition advance (c : ascii) (t : string) (x : mstate) : mstate :=
  MkSt (String c (before x)) t (caps x).

(** The text consumed between two states of one run. *)
Definition consumed (x y : mstate) : string :=
  Str.firstn (String.length (rest x) - String.length (rest y)) (rest x).

Definition capture (n : nat) (x y : mstate) : mstate :=
  MkSt (before y) (rest y) ((n, consumed x y) :: caps y).

(** The matchers here only move right, so an iteration of a quantifier
    that ends where it began is one that leaves the rest as long as it
    was: the empty check of RepeatMatcher. *)
Definition progressed (x y : mstate) : bool :=
  (String.length (rest y) <? String.length (rest x))%nat.

Definition head_is_word (s : string) : bool :=
  match s with
  | String c _ => Str.is_word c
  | EmptyString => false
  end.

Definition at_word_boundary (x : mstate) : bool :=
  xorb (head_is_word (before x)) (head_is_word (rest x)).

Definition first_of {A : Type} (a : option A) (b : option A) : option A :=
  match a with
  | Some z => Some z
  | None => b
  end.

(** The optional iterations of a greedy quantifier, at most [fuel] of
    them: one more iteration first, the continuation [k] when that
    fails.  [step] matches the quantified pattern once. *)
Fixpoint iterate (step : mstate -> (mstate -> option mstate) -> option mstate)
  (k : mstate -> option mstate) (fuel : nat) (x : mstate) {struct fuel}
  : option mstate :=
  match fuel with
  | O => k x
  | S f =>
      first_of (step x (fun y => if progressed x y then iterate step k f y else None))
               (k x)
  end.

(** The [n] mandatory iterations of a quantifier. *)
Fixpoint mandatory (step : mstate -> (mstate -> option mstate) -> option mstate)
  (k : mstate -> option mstate) (n : nat) (x : mstate) {struct n}
  : option mstate :=
  match n with
  | O => k x
  | S n' => step x (fun y => mandatory step k n' y)
  end.

(** The optional iterations left after the mandatory ones: [max - min]
    of them, or, without a maximum, as many as there are characters
    left, each iteration taking one at least. *)
Definition budget (mn : nat) (mx : option nat) (x : mstate) : nat :=
  match mx with
  | Some m => m - mn
  | None => String.length (rest x)
  end.

(** [rmatch r x k]: match [r] at [x], then go on with [k]; on failure of
    [k] the alternatives of [r] are tried in the order of a greedy
    backtracking matcher.  No pattern of the program has a capture group
    under a quantifier, so captures are not reset between iterations. *)
Fixpoint rmatch (r : regex) (x : mstate) (k : mstate -> option mstate)
  {struct r} : option mstate :=
  match r with
  | Eps => k x
  | Cls p =>
      match rest x with
      | String c t => if p c then k (advance c t x) else None
      | EmptyString => None
      end
  | Seq a b => rmatch a x (fun y => rmatch b y k)
  | Alt a b => first_of (rmatch a x k) (rmatch b x k)
  | Grp n a => rmatch a x (fun y => k (capture n x y))
  | NotAhead a =>
      match rmatch a x Some with
      | Some _ => None
      | None => k x
      end
  | WordB => if at_word_boundary x then k x else None
  | Rep mn mx a =>
      mandatory (rmatch a)
                (fun y => iterate (rmatch a) k (budget mn mx y) y)
                mn x
  end.

(** A successful match: the text left of it (reversed), the matched
    text [m[0]], the captures and the text right of it. *)
Record found : Type := MkFound {
  f_before : string;
  f_text : string;
  f_caps : list (nat * string);
  f_rest : string
}.

Definition match_at (r : regex) (before s : string) : option found :=
  let x := MkSt before s [] in
  match rmatch r x Some with
  | Some y => Some (MkFound before (consumed x y) (caps y) (rest y))
  | None => None
  end.

(** The leftmost match: [s.match(r)] for a pattern without the [g]
    flag. *)
Fixpoint search_from (r : regex) (before s : string) : option found :=
  match match_at r before s with
  | Some m => Some m
  | None =>
      match s with
      | String c t => search_from r (String c before) t
      | EmptyString => None
      end
  end.

Definition search (r : regex) (s : string) : option found :=
  search_from r EmptyString s.

(** [m[n]] for a group that took part in the match. *)
Fixpoint group (n : nat) (l : list (nat * string)) : string :=
  match l with
  | [] => EmptyString
  | (i, s) :: t => if (i =? n)%nat then s else group n t
  end.

(** The matches that [while ((m = r.exec(s)) !== null)] visits for a
    pattern with the [g] flag: each search starts where the last match
    ended.  [skip] counts the characters of the last match still to
    pass.  (The three patterns scanned this way match no empty text.) *)
Fixpoint scan (r : regex) (before s : string) (skip : nat) : list found :=
  match s with
  | EmptyString => []
  | String c t =>
      match skip with
      | S n => scan r (String c before) t n
      | O =>
          match match_at r before s with
          | Some m => m :: scan r (String c before) t (String.length (f_text m) - 1)
          | None => scan r (String c before) t 0
          end
      end
  end.

Definition exec_all (r : regex) (s : string) : list found :=
  scan r EmptyString s 0.

(** [s.replace(r, by)] for a pattern with the [g] flag and a
    replacement text without [$]. *)
Fixpoint replace_from (r : regex) (by_ : string) (before s : string) (skip : nat)
  : string :=
  match s with
  | EmptyString =>
      match skip, match_at r before EmptyString with
      | O, Some _ => by_
      | _, _ => EmptyString
      end
  | String c t =>
      match skip with
      | S n => replace_from r by_ (String c before) t n
      | O =>
          match match_at r before s with
          | Some m =>
              match String.length (f_text m) with
              | O => by_ ++ String c (replace_from r by_ (String c before) t 0)
              | S n => by_ ++ replace_from r by_ (String c before) t n
              end
          | None => String c (replace_from r by_ (String c before) t 0)
          end
      end
  end.

Definition replace_all (r : regex) (by_ : string) (s : string) : string :=
  replace_from r by_ EmptyString s 0.

(** ** Pattern syntax *)

Fixpoint cat (l : list regex) : regex :=
  match l with
  | [] => Eps
  | [a] => a
  | a :: t => Seq a (cat t)
  end.

Definition chr (c : ascii) : regex := Cls (Ascii.eqb c).
Definition chr_i (c : ascii) : regex :=
  Cls (fun d => Ascii.eqb (Str.fold d) (Str.fold c)).

Fixpoint lit (s : string) : regex :=
  match s with
  | EmptyString => Eps
  | String c EmptyString => chr c
  | String c t => Seq (chr c) (lit t)
  end.

Fixpoint lit_i (s : string) : regex :=
  match s with
  | EmptyString => Eps
  | String c EmptyString => chr_i c
  | String c t => Seq (chr_i c) (lit_i t)
  end.

Definition star (a : regex) : regex := Rep 0 None a.
Definition plus (a : regex) : regex := Rep 1 None a.
Definition opt (a : regex) : regex := Rep 0 (Some 1) a.

Fixpoint mem (c : ascii) (s : string) : bool :=
  match s with
  | EmptyString => false
  | String d t => Ascii.eqb c d || mem c t
  end.

Definition one_of (s : string) : regex := Cls (fun c => mem c s).
Definition none_of (s : string) : regex := Cls (fun c => negb (mem c s)).

Definition space : regex := Cls Str.is_space.
Definition digit : regex := Cls Str.is_digit.
Definition word : regex := Cls Str.is_word.
Definition hexdigit : regex := Cls Str.is_hex.

(** [needs q r]: a sufficient test that every text [r] matches holds a
    character of the class [q]. *)
Fixpoint needs (q : ascii -> bool) (r : regex) : bool :=
  match r with
  | Cls p => forallb (fun d => implb (p d) (q d)) Str.all_ascii
  | Seq a b => needs q a || needs q b
  | Alt a b => needs q a && needs q b
  | Grp _ a => needs q a
  | Rep (S _) _ a => needs q a
  | _ => false
  end.

(** No character of the text is in the class. *)
Definition lacks (q : ascii -> bool) (s : string) : bool :=
  Str.all (fun d => negb (q d)) s.

End Regex.

(* ------------------------------------------------------------------ *)
(** * Documents and selectors *)

Module Dom.

(** The tree [DOMParser] returns.  An element carries its local name
    (lower case in an HTML document) and its attributes in source
    order.  [Element] is an element of the HTML namespace; [Foreign] is
    one of another namespace, which the parser makes of a tag inside
    [svg] or [math] unless the tag breaks out of them, as [img] and
    [meta] do and [link] does not. *)
Inductive node : Type :=
| Element (tag : string) (attrs : list (string * string)) (children : list node)
| Foreign (tag : string) (attrs : list (string * string)) (children : list node)
| Text (data : string).

Record document : Type := MkDoc {
  quirks : bool;
  nodes : list node
}.

(** What a selector looks at in one element: its name, its attributes,
    whether no element sibling precedes it and whether it is of the
    HTML namespace. *)
Record einfo : Type := MkInfo {
  e_tag : string;
  e_attrs : list (string * string);
  e_first : bool;
  e_html : bool
}.

Definition getAttribute (attrs : list (string * string)) (name : string)
  : option string :=
  Str.assoc attrs name.

Fixpoint contains (sub s : string) : bool :=
  String.prefix sub s ||
  match s with
  | EmptyString => false
  | String _ t => contains sub t
  end.

(** The white space that separates class names. *)
Definition is_class_space (c : ascii) : bool :=
  let n := Str.code c in
  (n =? 9)%nat || (n =? 10)%nat || (n =? 12)%nat || (n =? 13)%nat || (n =? 32)%nat.

Fixpoint tokens (s : string) (cur : string) : list string :=
  match s with
  | EmptyString => match cur with EmptyString => [] | _ => [Str.rev cur] end
  | String c t =>
      if is_class_space c
      then match cur with
           | EmptyString => tokens t EmptyString
           | _ => Str.rev cur :: tokens t EmptyString
           end
      else tokens t (String c cur)
  end.

Definition ascii_lower (s : string) : string :=
  Str.map (fun c => if Str.is_upper c then ascii_of_nat (Str.code c + 32) else c) s.

Inductive attr_test : Type :=
| AttrContains (name value : string)          (* [name*="value"] *)
| AttrEquals (ci : bool) (name value : string) (* [name="value"] *)
| HasClass (name : string).                    (* .name *)

(** A compound selector: [tag[..][..]:first-child]. *)
Record compound : Type := MkCompound {
  c_tag : option string;
  c_tests : list attr_test;
  c_first_child : bool
}.

Inductive selector : Type :=
| Simple (subject : compound)
| Descendant (ancestor subject : compound)   (* ancestor subject *)
| Child (parent subject : compound).         (* parent > subject *)

(** [html] says that the element is of the HTML namespace: only there
    is the value of an attribute such as [rel] compared without regard
    to case. *)
Definition test_holds (q html : bool) (attrs : list (string * string)) (t : attr_test)
  : bool :=
  match t with
  | AttrContains name value =>
      match getAttribute attrs name with
      | Some v => negb (String.eqb value EmptyString) && contains value v
      | None => false
      end
  | AttrEquals ci name value =>
      match getAttribute attrs name with
      | Some v => if ci && html then String.eqb (ascii_lower v) (ascii_lower value)
                  else String.eqb v value
      | None => false
      end
  | HasClass name =>
      match getAttribute attrs "class" with
      | Some v =>
          existsb (fun tok => if q then String.eqb (ascii_lower tok) (ascii_lower name)
                              else String.eqb tok name)
                  (tokens v EmptyString)
      | None => false
      end
  end.

Definition matches_compound (q : bool) (c : compound) (e : einfo) : bool :=
  match c_tag c with
  | Some t => String.eqb t (e_tag e)
  | None => true
  end
  && forallb (test_holds q (e_html e) (e_attrs e)) (c_tests c)
  && (negb (c_first_child c) || e_first e).

(** [ancestors] lists the enclosing elements, the parent first. *)
Definition matches (q : bool) (s : selector) (ancestors : list einfo) (e : einfo)
  : bool :=
  match s with
  | Simple c => matches_compound q c e
  | Descendant a c => matches_compound q c e && existsb (matches_compound q a) ancestors
  | Child p c =>
      matches_compound q c e &&
      match ancestors with
      | par :: _ => matches_compound q p par
      | [] => false
      end
  end.

Definition is_text (n : node) : bool :=
  match n with
  | Text _ => true
  | Element _ _ _ | Foreign _ _ _ => false
  end.

Definition is_html (n : node) : bool :=
  match n with
  | Element _ _ _ => true
  | Foreign _ _ _ | Text _ => false
  end.

(** The first element in document order that matches one of the
    selectors of a list. *)
Fixpoint find_node (q : bool) (sels : list selector) (ancestors : list einfo)
  (first : bool) (n : node) {struct n} : option einfo :=
  match n with
  | Text _ => None
  | Element tag attrs kids | Foreign tag attrs kids =>
      let me := MkInfo tag attrs first (is_html n) in
      if existsb (fun s => matches q s ancestors me) sels then Some me
      else
        (fix find_list (first : bool) (l : list node) {struct l} : option einfo :=
           match l with
           | [] => None
           | kid :: l' =>
               match find_node q sels (me :: ancestors) first kid with
               | Some r => Some r
               | None => find_list (first && is_text kid) l'
               end
           end) true kids
  end.

Fixpoint find_nodes (q : bool) (sels : list selector) (first : bool) (l : list node)
  : option einfo :=
  match l with
  | [] => None
  | n :: l' =>
      match find_node q sels [] first n with
      | Some r => Some r
      | None => find_nodes q sels (first && is_text n) l'
      end
  end.

(** [doc.querySelector(s)], and element [0] of [doc.querySelectorAll],
    for a selector list. *)
Definition querySelector (doc : document) (sels : list selector) : option einfo :=
  find_nodes (quirks doc) sels true (nodes doc).

Definition tag_only (t : string) : compound := MkCompound (Some t) [] false.

(** The document of an empty input: [html] with an empty [head] and an
    empty [body], in quirks mode for want of a doctype. *)
Definition empty_document : document :=
  MkDoc true [Element "html" [] [Element "head" [] []; Element "body" [] []]].

End Dom.

(* ------------------------------------------------------------------ *)
(** * The engine ([themeExtractor.ts]) *)

Module ThemeExtractor.

Import Regex Color JSNum.

Record PortalTheme : Type := MkTheme {
  primaryColor : string;
  primaryHover : string;
  secondaryColor : string;
  bgColor : string;
  surfaceColor : string;
  elevatedColor : string;
  textColor : string;
  textSecondary : string;
  borderColor : string;
  fontFamily : string;
  logoUrl : string;
  faviconUrl : string;
  isDark : bool
}.

(** What [cssValueToHex] can return at run time: [null], a string, or a
    member that the object literal [namedColors] inherits from
    [Object.prototype]. *)
Inductive jsval : Type :=
| JNull : jsval
| JStr (s : string) : jsval
| JObject (member : string) : jsval.

Inductive completion (A : Type) : Type :=
| Normal (a : A) : completion A
| Throw (error : string) : completion A.

Arguments Normal {A} a.
Arguments Throw {A} error.

Definition quote_chars : string := Str.dq ++ "'".

(** [v || d] for [v : string | null] *)
Definition or_else (v : option string) (d : string) : string :=
  match v with
  | Some (String c t) => String c t
  | _ => d
  end.

(** ** Color analysis *)

(** [/#([0-9a-fA-F]{3,8})\b/g] *)
Definition hexPattern : regex :=
  cat [chr "#"; Grp 1 (Rep 3 (Some 8) hexdigit); WordB].

(** [/rgba?\(\s*(\d+)\s*,\s*(\d+)\s*,\s*(\d+)/] *)
Definition rgbPattern : regex :=
  cat [lit "rgb"; opt (chr "a"); chr "("; star space; Grp 1 (plus digit);
       star space; chr ","; star space; Grp 2 (plus digit);
       star space; chr ","; star space; Grp 3 (plus digit)].

(** [/hsla?\(\s*(\d+)\s*,\s*(\d+)%\s*,\s*(\d+)%/] *)
Definition hslPattern : regex :=
  cat [lit "hsl"; opt (chr "a"); chr "("; star space; Grp 1 (plus digit);
       star space; chr ","; star space; Grp 2 (plus digit); chr "%";
       star space; chr ","; star space; Grp 3 (plus digit); chr "%"].

Definition int_group (n : nat) (m : found) : float :=
  parseInt (group n (f_caps m)) None.

Definition rgb_of (m : found) : string :=
  rgbToHex (int_group 1 m) (int_group 2 m) (int_group 3 m).

Definition hsl_of (m : found) : string :=
  hslToHex (int_group 1 m) (int_group 2 m) (int_group 3 m).

(** [colorCounts]: the own properties in insertion order, which is the
    order of [Object.entries] as every key starts with [#]. *)
Definition counts : Type := list (string * nat).

(** [colorCounts[hex] = (colorCounts[hex] || 0) + 1] *)
Fixpoint bump (hex : string) (cs : counts) : counts :=
  match cs with
  | [] => [(hex, 1)]
  | (k, n) :: t => if String.eqb k hex then (k, S n) :: t else (k, n) :: bump hex t
  end.

Definition tally (cs : counts) (hex : string) : counts :=
  if isNeutralColor hex then cs else bump hex cs.

(** [.sort((a, b) => b[1] - a[1])]: the sort is stable, so an entry goes
    in front of the first one that does not count more. *)
Fixpoint insert_entry (e : string * nat) (l : counts) : counts :=
  match l with
  | [] => [e]
  | y :: t => if (snd e <? snd y)%nat then y :: insert_entry e t else e :: y :: t
  end.

Definition sort_entries (cs : counts) : counts :=
  fold_right insert_entry [] cs.

(** The tally when the three [while] loops are over. *)
Definition colorCounts (css : string) : counts :=
  let colorCounts : counts := [] in
  let colorCounts :=
    fold_left (fun cs m => tally cs (normalizeHex (f_text m)))
              (exec_all hexPattern css) colorCounts in
  let colorCounts :=
    fold_left (fun cs m => tally cs (rgb_of m)) (exec_all rgbPattern css) colorCounts in
  fold_left (fun cs m => tally cs (hsl_of m)) (exec_all hslPattern css) colorCounts.

Definition analyzeColors (css : string) : list string :=
  List.map fst (firstn 5 (sort_entries (colorCounts css))).

(** ** Font and background *)

(** [/<rule>\s*\{[^}]*font-family\s*:\s*([^;]+)/i] *)
Definition fontPattern (rule : string) : regex :=
  cat [lit_i rule; star space; chr "{"; star (none_of "}"); lit_i "font-family";
       star space; chr ":"; star space; Grp 1 (plus (none_of ";"))].

Fixpoint first_font (rules : list string) (css : string) : option string :=
  match rules with
  | [] => None
  | rule :: more =>
      match search (fontPattern rule) css with
      | Some m =>
          Some (replace_all (one_of quote_chars) EmptyString
                            (Str.trim (group 1 (f_caps m))))
      | None => first_font more css
      end
  end.

Definition extractFontFamily (css : string) : option string :=
  first_font ["body"; "html"; ":root"] css.

(** [/#[0-9a-fA-F]{3,8}/] *)
Definition hexValuePattern : regex :=
  cat [chr "#"; Rep 3 (Some 8) hexdigit].

Definition namedColors : list (string * string) :=
  [("white", "#ffffff"); ("black", "#000000"); ("red", "#ff0000");
   ("blue", "#0000ff"); ("green", "#008000"); ("transparent", "#ffffff")].

(** The property names every object literal inherits. *)
Definition object_prototype : list string :=
  ["constructor"; "__proto__"; "hasOwnProperty"; "isPrototypeOf";
   "propertyIsEnumerable"; "toLocaleString"; "toString"; "valueOf";
   "__defineGetter__"; "__defineSetter__"; "__lookupGetter__";
   "__lookupSetter__"].

(** [obj[key] || null] for an object literal with string values: an own
    property first, then the prototype, whose members are objects and
    functions. *)
Definition get_or_null (own : list (string * string)) (key : string) : jsval :=
  match Str.assoc own key with
  | Some (String c t) => JStr (String c t)
  | Some EmptyString => JNull
  | None => if existsb (String.eqb key) object_prototype then JObject key else JNull
  end.

Definition cssValueToHex (val : string) : jsval :=
  match search hexValuePattern val with
  | Some hexMatch => JStr (normalizeHex (f_text hexMatch))
  | None =>
      match search rgbPattern val with
      | Some rgbMatch => JStr (rgb_of rgbMatch)
      | None =>
          match search hslPattern val with
          | Some hslMatch => JStr (hsl_of hslMatch)
          | None => get_or_null namedColors (Str.toLowerCase val)
          end
      end
  end.

(** [/body\s*\{[^}]*background(?:-color)?\s*:\s*([^;]+)/i] *)
Definition backgroundPattern : regex :=
  cat [lit_i "body"; star space; chr "{"; star (none_of "}"); lit_i "background";
       opt (lit_i "-color"); star space; chr ":"; star space;
       Grp 1 (plus (none_of ";"))].

Definition extractBackgroundColor (css : string) : jsval :=
  match search backgroundPattern css with
  | Some m => cssValueToHex (Str.trim (group 1 (f_caps m)))
  | None => JNull
  end.

(** ** Logo and favicon *)

Definition img : Dom.compound := Dom.tag_only "img".
Definition img_logo : Dom.compound :=
  Dom.MkCompound (Some "img") [Dom.AttrContains "src" "logo"] false.
Definition class_logo : Dom.compound :=
  Dom.MkCompound None [Dom.AttrContains "class" "logo"] false.
Definition img_first_child : Dom.compound := Dom.MkCompound (Some "img") [] true.

(** The selector list of [extractLogoUrl], in its order. *)
Definition logo_selectors : list Dom.selector :=
  [Dom.Descendant (Dom.tag_only "header") img_logo;   (* header img[src*="logo"] *)
   Dom.Descendant (Dom.tag_only "nav") img_logo;      (* nav img[src*="logo"] *)
   Dom.Descendant class_logo img;                     (* [class*="logo"] img *)
   Dom.Descendant (Dom.tag_only "header") img;        (* header img *)
   Dom.Descendant (Dom.tag_only "nav") img;           (* nav img *)
   Dom.Child (Dom.tag_only "a") img_first_child].     (* a > img:first-child *)

(** [meta[property="og:image"]] *)
Definition og_image : Dom.selector :=
  Dom.Simple (Dom.MkCompound (Some "meta") [Dom.AttrEquals false "property" "og:image"] false).

(** [link[rel="..."]]; [rel] is among the attributes whose value a
    selector compares without regard to case on an element of the HTML
    namespace in an HTML document; on an element of another namespace
    the value is compared as it is written. *)
Definition link_rel (v : string) : Dom.selector :=
  Dom.Simple (Dom.MkCompound (Some "link") [Dom.AttrEquals true "rel" v] false).

Definition favicon_selectors : list Dom.selector :=
  [link_rel "icon"; link_rel "shortcut icon"; link_rel "apple-touch-icon"].

(** The loop [for (const selector of selectors)]: the first selector
    whose first element has a non-empty attribute [name] decides. *)
Fixpoint first_attr (doc : Dom.document) (name : string) (sels : list Dom.selector)
  : option string :=
  match sels with
  | [] => None
  | s :: more =>
      match Dom.querySelector doc [s] with
      | Some e =>
          match Dom.getAttribute (Dom.e_attrs e) name with
          | Some (String c t) => Some (String c t)
          | _ => first_attr doc name more
          end
      | None => first_attr doc name more
      end
  end.

Definition logo_of (doc : Dom.document) : option string :=
  match first_attr doc "src" logo_selectors with
  | Some src => Some src
  | None =>
      match Dom.querySelector doc [og_image] with
      | Some ogImage => Dom.getAttribute (Dom.e_attrs ogImage) "content"
      | None => None
      end
  end.

Definition favicon_of (doc : Dom.document) : option string :=
  first_attr doc "href" favicon_selectors.

(** Lines 33-58 of [extractTheme], for a background that is a string or
    [null]. *)
Definition assemble (colors : list string) (fontFamily : option string)
  (bgColor logoUrl faviconUrl : option string) : PortalTheme :=
  let isDark :=
    match bgColor with
    | Some (String c t) => (getLuminance (String c t) <? 0.5)%float
    | _ => false
    end in
  let primary := or_else (nth_error colors 0) "#0ea5e9" in
  let secondary := or_else (nth_error colors 1) "#10b981" in
  {| primaryColor := primary;
     primaryHover := adjustLightness primary (if isDark then 0.08 else -0.1)%float;
     secondaryColor := secondary;
     bgColor := or_else bgColor (if isDark then "#0a0a0f" else "#ffffff");
     surfaceColor :=
       if isDark
       then adjustLightness (or_else bgColor "#0a0a0f") 0.05%float
       else adjustLightness (or_else bgColor "#ffffff") (-0.03)%float;
     elevatedColor :=
       if isDark
       then adjustLightness (or_else bgColor "#0a0a0f") 0.08%float
       else adjustLightness (or_else bgColor "#ffffff") (-0.05)%float;
     textColor := if isDark then "#ffffff" else "#1f2937";
     textSecondary := if isDark then "#a1a1aa" else "#6b7280";
     borderColor := if isDark then "#2a2a3a" else "#e5e7eb";
     fontFamily := or_else fontFamily "Inter, -apple-system, sans-serif";
     logoUrl := or_else logoUrl EmptyString;
     faviconUrl := or_else faviconUrl EmptyString;
     isDark := isDark |}.

Definition newline : string := String (ascii_of_nat 10) EmptyString.

Definition type_error : string := "TypeError: hex.slice is not a function".

Section Engine.

(** [new DOMParser().parseFromString(html, 'text/html')] *)
Variable parseFromString : string -> Dom.document.

Definition extractLogoUrl (html : string) : option string :=
  logo_of (parseFromString html).

Definition extractFaviconUrl (html : string) : option string :=
  favicon_of (parseFromString html).

(** [getLuminance(bgColor)] is the first use of the background: on a
    value that is no string, [hex.slice] is not a function and the call
    throws. *)
Definition extractTheme (html : string) (cssTexts : list string)
  : completion PortalTheme :=
  let allCss := String.concat newline cssTexts in
  let colors := analyzeColors allCss in
  let fontFamily := extractFontFamily allCss in
  match extractBackgroundColor allCss with
  | JObject _ => Throw type_error
  | JNull =>
      Normal (assemble colors fontFamily None
                       (extractLogoUrl html) (extractFaviconUrl html))
  | JStr s =>
      Normal (assemble colors fontFamily (Some s)
                       (extractLogoUrl html) (extractFaviconUrl html))
  end.

End Engine.

End ThemeExtractor.

(* ------------------------------------------------------------------ *)
(** * The admin screen's copy ([BrandingSettings.tsx], lines 580-627) *)

Module BrandingSettings.

Import Regex.

Definition quotes : string := ThemeExtractor.quote_chars.

(** [/<tag\b[^<]* (?: (?!<\/tag>) <[^<]* )* <\/tag>/gi], here with
    blanks between its parts. *)
Definition blockPattern (tag : string) : regex :=
  let close := ("</" ++ tag ++ ">")%string in
  cat [lit_i ("<" ++ tag)%string; WordB; star (none_of "<");
       star (cat [NotAhead (lit_i close); chr "<"; star (none_of "<")]);
       lit_i close].

(** [/\s+on\w+\s*=\s*[Q'][^Q']*[Q']/gi], with Q for the double quote. *)
Definition quotedHandlerPattern : regex :=
  cat [plus space; lit_i "on"; plus word; star space; chr "="; star space;
       one_of quotes; star (none_of quotes); one_of quotes].

(** [/\s+on\w+\s*=\s*[^\s>Q']*/gi] *)
Definition bareHandlerPattern : regex :=
  cat [plus space; lit_i "on"; plus word; star space; chr "="; star space;
       star (Cls (fun c => negb (Str.is_space c || mem c (">" ++ quotes)%string)))].

(** [/href\s*=\s*[Q']javascript:[^Q']*[Q']/gi], replaced by [href=Q#Q]. *)
Definition scriptUrlPattern : regex :=
  cat [lit_i "href"; star space; chr "="; star space; one_of quotes;
       lit_i "javascript:"; star (none_of quotes); one_of quotes].

Definition href_hash : string := "href=" ++ Str.dq ++ "#" ++ Str.dq.

Definition sanitizeHtml (html : string) : string :=
  let sanitized := replace_all (blockPattern "script") EmptyString html in
  let sanitized := replace_all (blockPattern "noscript") EmptyString sanitized in
  let sanitized := replace_all (blockPattern "iframe") EmptyString sanitized in
  let sanitized := replace_all quotedHandlerPattern EmptyString sanitized in
  let sanitized := replace_all bareHandlerPattern EmptyString sanitized in
  replace_all scriptUrlPattern href_hash sanitized.

(** ['header img, nav img, .logo img, [class*="logo"] img,
    a > img:first-child']: one selector list, whose matches
    [querySelectorAll] returns in document order. *)
Definition logo_selector_list : list Dom.selector :=
  [Dom.Descendant (Dom.tag_only "header") ThemeExtractor.img;
   Dom.Descendant (Dom.tag_only "nav") ThemeExtractor.img;
   Dom.Descendant (Dom.MkCompound None [Dom.HasClass "logo"] false) ThemeExtractor.img;
   Dom.Descendant ThemeExtractor.class_logo ThemeExtractor.img;
   Dom.Child (Dom.tag_only "a") ThemeExtractor.img_first_child].

(** Lines 580-594 of [extractThemeFromData]: the [logoUrl] of the theme,
    which starts out empty. *)
Definition extractedLogoUrl (doc : Dom.document) : string :=
  let logoUrl :=
    match Dom.querySelector doc logo_selector_list with
    | Some headerImg =>
        ThemeExtractor.or_else (Dom.getAttribute (Dom.e_attrs headerImg) "src") EmptyString
    | None => EmptyString
    end in
  match logoUrl with
  | EmptyString =>
      match Dom.querySelector doc [ThemeExtractor.og_image] with
      | Some ogImage =>
          ThemeExtractor.or_else (Dom.getAttribute (Dom.e_attrs ogImage) "content") EmptyString
      | None => EmptyString
      end
  | _ => logoUrl
  end.

End BrandingSettings.

(* ------------------------------------------------------------------ *)
(** * Definitions used by the statements *)

Module Hex.

Import Color JSNum.

Definition is_hex6 (s : string) : bool :=
  match s with
  | String h (String a1 (String a2 (String a3 (String a4 (String a5
      (String a6 EmptyString)))))) =>
      Ascii.eqb h hash && Str.is_hex a1 && Str.is_hex a2 && Str.is_hex a3
      && Str.is_hex a4 && Str.is_hex a5 && Str.is_hex a6
  | _ => false
  end.

Definition is_lower_hex (c : ascii) : bool :=
  Str.is_digit c || Str.in_range 97 102 c.

(** [#rrggbb] in lower case *)
Definition is_normalized (s : string) : bool :=
  is_hex6 s && Str.all is_lower_hex (Str.skipn 1 s).

Definition hexval (c : ascii) : Z :=
  match digit_val c with
  | Some d => d
  | None => 0%Z
  end.

Definition pair_val (a b : ascii) : Z := (hexval a * 16 + hexval b)%Z.

(** The channels of [#rrggbb] as integers. *)
Definition channels (s : string) : Z * Z * Z :=
  match s with
  | String _ (String a1 (String a2 (String a3 (String a4 (String a5
      (String a6 _)))))) =>
      (pair_val a1 a2, pair_val a3 a4, pair_val a5 a6)
  | _ => (0, 0, 0)%Z
  end.

(** Two lower-case hexadecimal digits. *)
Definition two_digits (z : Z) : string := Str.padStart 2 (hex_of_N (Z.to_N z)).

Definition of_channels (rgb : Z * Z * Z) : string :=
  let '(r, g, b) := rgb in
  String hash (two_digits r ++ two_digits g ++ two_digits b).

Definition bytes : list Z := List.map Z.of_nat (seq 0 256).

Definition byte_floats : list float := List.map of_Z bytes.

(** Each byte beside its Number. *)
Definition byte_pairs : list (Z * float) := List.map (fun z => (z, of_Z z)) bytes.

(** The Number of a byte, looked up. *)
Definition float_at (z : Z) (table : list float) : float :=
  nth (Z.to_nat z) table nan.

Definition in_unit (x : float) : bool := (0 <=? x)%float && (x <=? 1)%float.

(** The luminance formula on three channels. *)
Definition luminance3 (r g b : float) : float :=
  (0.2126 * (r / 255) + 0.7152 * (g / 255) + 0.0722 * (b / 255))%float.

End Hex.

(** The formulas as the specification words them, in exact arithmetic. *)
Module Spec.

Local Open Scope Q_scope.

(** "adds amount * 255 to each channel, clamped to [0,255]": the sum is
    a fraction, the channel the integer nearest to it. *)
Definition lightened (c : Z) (amount : Q) : Z :=
  Z.min 255 (Z.max 0 (Qfloor (inject_Z c + amount * 255 + (1 # 2)))).

Definition adjusted (hex : string) (amount : Q) : string :=
  let '(r, g, b) := Hex.channels hex in
  Hex.of_channels (lightened r amount, lightened g amount, lightened b amount).

(** The signed fractions of the palette rules, each beside the Number
    that the source writes for it. *)
Definition palette_amounts : list (float * Q) :=
  [(0.05%float, 5 # 100); ((-0.03)%float, - 3 # 100); (0.08%float, 8 # 100);
   ((-0.05)%float, - 5 # 100); ((-0.1)%float, - 1 # 10)].

(** "the maximum pairwise channel difference is below 20, or all
    channels exceed 240, or all channels are below 15" *)
Definition neutral (rgb : Z * Z * Z) : bool :=
  let '(r, g, b) := rgb in
  (Z.max (Z.max (Z.abs (r - g)) (Z.abs (r - b))) (Z.abs (g - b)) <? 20)%Z
  || ((240 <? r) && (240 <? g) && (240 <? b))%Z
  || ((r <? 15) && (g <? 15) && (b <? 15))%Z.

End Spec.

Module Examples.

Import Dom.

Definition page (body : list node) : document :=
  MkDoc true [Element "html" [] [Element "head" [] []; Element "body" [] body]].

(** [<a href="/"><img src="other.png"></a>
     <header><img src="logo.png"></header>] *)
Definition link_before_header : document :=
  page [Element "a" [("href", "/")] [Element "img" [("src", "other.png")] []];
        Element "header" [] [Element "img" [("src", "logo.png")] []]].

(** A parser that knows the empty input only. *)
Definition blank_parser (html : string) : document := empty_document.

Definition constant_parser (doc : document) (html : string) : document := doc.

End Examples.

(* ------------------------------------------------------------------ *)
(** * The rest of the admin screen's copy ([BrandingSettings.tsx],
      lines 506-608 and 645-672) *)

Module Inline.

Import Regex Color JSNum.
Local Open Scope float_scope.

Record ExtractedTheme : Type := MkExtracted {
  primaryColor : string;
  secondaryColor : string;
  bgColor : string;
  surfaceColor : string;
  textColor : string;
  fontFamily : string;
  logoUrl : string;
  faviconUrl : string;
  isDark : bool;
  headerHtml : string;
  footerHtml : string;
  siteCssUrls : list string
}.

(** [v.toString(16)] for an integral, infinite or NaN [v]. *)
Definition toString16 (v : float) : string :=
  if is_infinity v then (if get_sign v then "-Infinity" else "Infinity")
  else JSNum.toString16 v.

(** [rgbToHex] of this file does not clamp. *)
Definition rgbToHex (r g b : float) : string :=
  String hash (Str.padStart 2 (toString16 r) ++ Str.padStart 2 (toString16 g)
               ++ Str.padStart 2 (toString16 b)).

Definition rgb_of (m : found) : string :=
  rgbToHex (ThemeExtractor.int_group 1 m) (ThemeExtractor.int_group 2 m)
           (ThemeExtractor.int_group 3 m).

Definition cssColorToHex (val : string) : option string :=
  match search ThemeExtractor.hexValuePattern val with
  | Some hexMatch => Some (normalizeHex (f_text hexMatch))
  | None =>
      match search ThemeExtractor.rgbPattern val with
      | Some rgbMatch => Some (rgb_of rgbMatch)
      | None => None
      end
  end.

Definition adjustLightness (hex : string) (amount : float) : string :=
  let r := channel 1 3 hex in
  let g := channel 3 5 hex in
  let b := channel 5 7 hex in
  rgbToHex (lighten r amount) (lighten g amount) (lighten b amount).

(** [hexColors] when the two [while] loops are over. *)
Definition hexColors (css : string) : ThemeExtractor.counts :=
  let hexColors : ThemeExtractor.counts := [] in
  let hexColors :=
    fold_left (fun cs m => ThemeExtractor.tally cs (normalizeHex (f_text m)))
              (exec_all ThemeExtractor.hexPattern css) hexColors in
  fold_left (fun cs m => ThemeExtractor.tally cs (rgb_of m))
            (exec_all ThemeExtractor.rgbPattern css) hexColors.

(** The first element in document order with a local name:
    [doc.querySelector('header')]. *)
Fixpoint first_with_tag (t : string) (n : Dom.node) {struct n} : option Dom.node :=
  match n with
  | Dom.Text _ => None
  | Dom.Element tag attrs kids | Dom.Foreign tag attrs kids =>
      if String.eqb tag t then Some n
      else
        (fix go (l : list Dom.node) {struct l} : option Dom.node :=
           match l with
           | [] => None
           | kid :: l' =>
               match first_with_tag t kid with
               | Some r => Some r
               | None => go l'
               end
           end) kids
  end.

Fixpoint first_in (t : string) (l : list Dom.node) : option Dom.node :=
  match l with
  | [] => None
  | n :: l' =>
      match first_with_tag t n with
      | Some r => Some r
      | None => first_in t l'
      end
  end.

Section Screen.

(** [new DOMParser().parseFromString(html, 'text/html')] and the
    serializer behind [element.outerHTML], both the browser's. *)
Variable parseFromString : string -> Dom.document.
Variable outerHTML : Dom.node -> string.

Definition chrome (doc : Dom.document) (tag : string) : string :=
  match first_in tag (Dom.nodes doc) with
  | Some el => BrandingSettings.sanitizeHtml (outerHTML el)
  | None => EmptyString
  end.

Definition extractThemeFromData (html : string) (cssTexts : list string)
  : ExtractedTheme :=
  let allCss := String.concat ThemeExtractor.newline cssTexts in
  let sortedColors := ThemeExtractor.sort_entries (hexColors allCss) in
  let primaryColor :=
    match sortedColors with
    | e :: _ => fst e
    | [] => "#0ea5e9"%string
    end in
  let secondaryColor :=
    match sortedColors with
    | _ :: e :: _ => fst e
    | _ => "#10b981"%string
    end in
  let fontFamily :=
    match search (ThemeExtractor.fontPattern "body") allCss with
    | Some fontMatch =>
        replace_all (one_of ThemeExtractor.quote_chars) EmptyString
                    (Str.trim (group 1 (f_caps fontMatch)))
    | None => "Inter, sans-serif"%string
    end in
  let bgHex :=
    match search ThemeExtractor.backgroundPattern allCss with
    | Some bgMatch => cssColorToHex (Str.trim (group 1 (f_caps bgMatch)))
    | None => None
    end in
  let bgColor :=
    match bgHex with
    | Some (String c t) => String c t
    | _ => "#ffffff"%string
    end in
  let isDark :=
    match bgHex with
    | Some (String c t) => getLuminance (String c t) <? 0.5
    | _ => false
    end in
  let doc := parseFromString html in
  {| primaryColor := primaryColor;
     secondaryColor := secondaryColor;
     bgColor := bgColor;
     surfaceColor :=
       if isDark then adjustLightness bgColor 0.05 else adjustLightness bgColor (-0.03);
     textColor := if isDark then "#ffffff"%string else "#1f2937"%string;
     fontFamily := fontFamily;
     logoUrl := BrandingSettings.extractedLogoUrl doc;
     faviconUrl := EmptyString;
     isDark := isDark;
     headerHtml := chrome doc "header";
     footerHtml := chrome doc "footer";
     siteCssUrls := [] |}.

End Screen.

End Inline.

(* ------------------------------------------------------------------ *)
(** * Measures of patterns and of trees *)

Module Shape.

Import Regex.

(** Every class of the pattern, look-aheads apart, lies in [q]. *)
Fixpoint within (q : ascii -> bool) (r : regex) : bool :=
  match r with
  | Cls p => forallb (fun d => implb (p d) (q d)) Str.all_ascii
  | Seq a b => within q a && within q b
  | Alt a b => within q a && within q b
  | Rep _ _ a => within q a
  | Grp _ a => within q a
  | Eps | NotAhead _ | WordB => true
  end.

(** A lower bound on the length of a match. *)
Fixpoint minlen (r : regex) : nat :=
  match r with
  | Cls _ => 1
  | Seq a b => minlen a + minlen b
  | Alt a b => Nat.min (minlen a) (minlen b)
  | Rep mn _ a => mn * minlen a
  | Grp _ a => minlen a
  | Eps | NotAhead _ | WordB => 0
  end.

(** An upper bound on the length of a match, when there is one. *)
Fixpoint maxlen (r : regex) : option nat :=
  match r with
  | Cls _ => Some 1
  | Seq a b =>
      match maxlen a, maxlen b with
      | Some la, Some lb => Some (la + lb)
      | _, _ => None
      end
  | Alt a b =>
      match maxlen a, maxlen b with
      | Some la, Some lb => Some (Nat.max la lb)
      | _, _ => None
      end
  | Rep mn (Some m) a =>
      match maxlen a with
      | Some la => Some ((mn + (m - mn)) * la)
      | None => None
      end
  | Rep _ None _ => None
  | Grp _ a => maxlen a
  | Eps | NotAhead _ | WordB => Some 0
  end.

(** Induction over a document tree, the children of an element
    included. *)
Fixpoint node_induction (P : Dom.node -> Prop)
  (HT : forall data, P (Dom.Text data))
  (HE : forall tag attrs kids, Forall P kids -> P (Dom.Element tag attrs kids))
  (HF : forall tag attrs kids, Forall P kids -> P (Dom.Foreign tag attrs kids))
  (n : Dom.node) {struct n} : P n :=
  match n with
  | Dom.Text data => HT data
  | Dom.Element tag attrs kids =>
      HE tag attrs kids
         ((fix all (l : list Dom.node) : Forall P l :=
             match l with
             | [] => Forall_nil P
             | kid :: l' => Forall_cons kid (node_induction P HT HE HF kid) (all l')
             end) kids)
  | Dom.Foreign tag attrs kids =>
      HF tag attrs kids
         ((fix all (l : list Dom.node) : Forall P l :=
             match l with
             | [] => Forall_nil P
             | kid :: l' => Forall_cons kid (node_induction P HT HE HF kid) (all l')
             end) kids)
  end.

(** The elements of a tree in document order, each as a selector sees
    it. *)
Fixpoint elements (first : bool) (n : Dom.node) {struct n} : list Dom.einfo :=
  match n with
  | Dom.Text _ => []
  | Dom.Element tag attrs kids | Dom.Foreign tag attrs kids =>
      Dom.MkInfo tag attrs first (Dom.is_html n) ::
      (fix go (first : bool) (l : list Dom.node) {struct l} : list Dom.einfo :=
         match l with
         | [] => []
         | kid :: l' => (elements first kid ++ go (first && Dom.is_text kid) l')%list
         end) true kids
  end.

Fixpoint elements_of (first : bool) (l : list Dom.node) : list Dom.einfo :=
  match l with
  | [] => []
  | n :: l' => (elements first n ++ elements_of (first && Dom.is_text n) l')%list
  end.

Definition document_elements (doc : Dom.document) : list Dom.einfo :=
  elements_of true (Dom.nodes doc).

(** The number of occurrences of a character. *)
Fixpoint count (c : ascii) (s : string) : nat :=
  match s with
  | EmptyString => 0
  | String d t => (if Ascii.eqb c d then 1 else 0) + count c t
  end.

End Shape.

(* ------------------------------------------------------------------ *)
(** * The style sheet of a theme ([themeExtractor.ts], lines 65-80) *)

Module Stylesheet.

Import ThemeExtractor.

(** One line of the template: two blanks, the variable, its value. *)
Definition declaration (name value : string) : string :=
  "  " ++ name ++ ": " ++ value ++ ";" ++ newline.

Definition themeToCssVariables (theme : PortalTheme) : string :=
  Str.trim
    (newline ++ ":root {" ++ newline
     ++ declaration "--fl-color-primary" (primaryColor theme)
     ++ declaration "--fl-color-primary-hover" (primaryHover theme)
     ++ declaration "--fl-color-secondary" (secondaryColor theme)
     ++ declaration "--fl-color-bg-base" (bgColor theme)
     ++ declaration "--fl-color-bg-surface" (surfaceColor theme)
     ++ declaration "--fl-color-bg-elevated" (elevatedColor theme)
     ++ declaration "--fl-color-text-primary" (textColor theme)
     ++ declaration "--fl-color-text-secondary" (textSecondary theme)
     ++ declaration "--fl-color-border" (borderColor theme)
     ++ declaration "--fl-color-border-focus" (primaryColor theme)
     ++ declaration "--fl-font-family" (fontFamily theme)
     ++ "}").

(** The characters of a printed color: [#], a lower-case hexadecimal
    digit, or the [N] of [NaN]. *)
Definition is_color_char (c : ascii) : bool :=
  Ascii.eqb c "#" || Str.is_digit c || Str.in_range 97 102 c || Ascii.eqb c "N".

(** The characters of a hex literal: [#] and a hexadecimal digit of
    either case. *)
Definition hash_or_hex (c : ascii) : bool := Ascii.eqb c "#" || Str.is_hex c.

(** The nine color fields of a theme. *)
Definition color_fields (theme : PortalTheme) : list string :=
  [primaryColor theme; primaryHover theme; secondaryColor theme; bgColor theme;
   surfaceColor theme; elevatedColor theme; textColor theme; textSecondary theme;
   borderColor theme].

End Stylesheet.

(* ------------------------------------------------------------------ *)
(** * What a pattern means *)

(** The meaning of a pattern apart from the matcher: the positions of a
    text that the pattern can lead to from a position.  The order in
    which a backtracking matcher tries them is no part of it. *)
Module Lang.

Import Regex.

(** A position in a text: the text left of it, nearest character
    first, and the text right of it. *)
Definition position : Type := (string * string)%type.

Definition pos (x : mstate) : position := (before x, rest x).

Definition word_boundary (p : position) : bool :=
  xorb (head_is_word (fst p)) (head_is_word (snd p)).

(** [n] runs of a step, one after the other. *)
Fixpoint times (R : position -> position -> Prop) (n : nat) (p q : position) : Prop :=
  match n with
  | O => p = q
  | S n' => exists m, R p m /\ times R n' m q
  end.

(** The numbers of runs that [{mn,mx}] allows; [mx] is not below [mn]
    in a pattern that compiles, and then the bound is [mx]. *)
Definition allowed (mn : nat) (mx : option nat) (n : nat) : Prop :=
  mn <= n /\ match mx with
             | Some m => n <= mn + (m - mn)
             | None => True
             end.

Fixpoint reach (r : regex) (p q : position) {struct r} : Prop :=
  match r with
  | Eps => p = q
  | Cls c =>
      exists ch t, snd p = String ch t /\ c ch = true /\ q = (String ch (fst p), t)
  | Seq a b => exists m, reach a p m /\ reach b m q
  | Alt a b => reach a p q \/ reach b p q
  | Rep mn mx a => exists n, allowed mn mx n /\ times (reach a) n p q
  | Grp _ a => reach a p q
  | NotAhead a => p = q /\ ~ (exists q', reach a p q')
  | WordB => p = q /\ word_boundary p = true
  end.

(** A pattern without capture groups. *)
Fixpoint groupless (r : regex) : bool :=
  match r with
  | Seq a b | Alt a b => groupless a && groupless b
  | Rep _ _ a | NotAhead a => groupless a
  | Grp _ _ => false
  | Eps | Cls _ | WordB => true
  end.

End Lang.

(* ------------------------------------------------------------------ *)
(** * Color values and background declarations, as texts *)

(** What the background extraction looks for, said of the text alone,
    without a pattern and without the matcher. *)
Module Css.

Import Regex.

Definition spaces (s : string) : Prop := Str.all Str.is_space s = true.


(** The same letters, whatever the case of each. *)
Definition same_letters (w s : string) : Prop :=
  Str.map Str.fold w = Str.map Str.fold s.





(** [d] begins with the property name [background] or
    [background-color] in any case, a colon with white space around it
    if any, and the value [value]: one character at least, none of them
    [;], up to the next [;] or the end of the text. *)
Definition declaration (d value u : string) : Prop :=
  exists K s2 s3,
    d = K ++ s2 ++ ":" ++ s3 ++ value ++ u
    /\ (same_letters K "background" \/ same_letters K "background-color")
    /\ spaces s2 /\ spaces s3
    /\ value <> EmptyString /\ lacks (Ascii.eqb ";") value = true
    /\ (u = EmptyString \/ exists u', u = String ";" u').






End Css.

(* ------------------------------------------------------------------ *)
(** * Bytes and hexadecimal digits *)

Module HexFacts.

Import Color JSNum Hex.

Lemma in_all_ascii (c : ascii) : In c Str.all_ascii.
Proof.
  unfold Str.all_ascii. rewrite <- (ascii_nat_embedding c).
  apply in_map, in_seq. pose proof (nat_ascii_bounded c). lia.
Qed.

Lemma forall_ascii (P : ascii -> bool) :
  forallb P Str.all_ascii = true -> forall c, P c = true.
Proof.
  intros H c. rewrite forallb_forall in H. apply H, in_all_ascii.
Qed.

Lemma in_bytes (z : Z) : (0 <= z <= 255)%Z -> In z bytes.
Proof.
  intros H. unfold bytes. rewrite <- (Z2Nat.id z) by lia.
  apply in_map, in_seq. lia.
Qed.

Lemma forall_byte (P : Z -> bool) :
  forallb P bytes = true -> forall z, (0 <= z <= 255)%Z -> P z = true.
Proof.
  intros H z Hz. rewrite forallb_forall in H. apply H, in_bytes, Hz.
Qed.

Lemma forall_byte_float (P : float -> bool) :
  forallb P byte_floats = true -> forall z, (0 <= z <= 255)%Z -> P (of_Z z) = true.
Proof.
  intros H z Hz. rewrite forallb_forall in H. apply H.
  unfold byte_floats. apply in_map, in_bytes, Hz.
Qed.

Lemma hex_char (c : ascii) :
  Str.is_hex c = true ->
  Str.is_space c = false /\ Ascii.eqb c "-"%char = false
  /\ Ascii.eqb c "+"%char = false /\ Ascii.eqb c "x"%char = false
  /\ Ascii.eqb c "X"%char = false /\ digit_val c = Some (hexval c)
  /\ (0 <= hexval c < 16)%Z.
Proof.
  intros Hc.
  assert (H : forallb (fun c =>
              implb (Str.is_hex c)
                (negb (Str.is_space c) && negb (Ascii.eqb c "-"%char)
                 && negb (Ascii.eqb c "+"%char) && negb (Ascii.eqb c "x"%char)
                 && negb (Ascii.eqb c "X"%char)
                 && match digit_val c with
                    | Some d => (d =? hexval c)%Z
                    | None => false
                    end
                 && (0 <=? hexval c)%Z && (hexval c <? 16)%Z))
              Str.all_ascii = true) by (vm_compute; reflexivity).
  pose proof (forall_ascii _ H c) as E. cbv beta in E. rewrite Hc in E.
  cbn [implb] in E.
  repeat (apply andb_prop in E; destruct E as [E ?]).
  destruct (digit_val c) as [d|]; [|discriminate].
  repeat match goal with
         | h : negb _ = true |- _ => apply negb_true_iff in h
         end.
  repeat split; try assumption; try lia.
  f_equal. lia.
Qed.

(** Two hexadecimal digits parse to the byte they write. *)
Lemma parse_pair (a b : ascii) :
  Str.is_hex a = true -> Str.is_hex b = true ->
  parseInt (String a (String b EmptyString)) (Some 16%Z) = of_Z (pair_val a b)
  /\ (0 <= pair_val a b <= 255)%Z.
Proof.
  intros Ha Hb.
  destruct (hex_char a Ha) as (Sa & Ma & Pa & _ & _ & Da & Ra).
  destruct (hex_char b Hb) as (_ & _ & _ & Xb & XXb & Db & Rb).
  split; [|unfold pair_val; lia].
  unfold parseInt. cbn [Str.drop_spaces]. rewrite Sa, Ma, Pa.
  unfold strip_0x. rewrite Xb, XXb, andb_false_r.
  cbn [digits]. rewrite Da.
  destruct (hexval a <? 16)%Z eqn:La; [|lia].
  rewrite Db. destruct (hexval b <? 16)%Z eqn:Lb; [|lia].
  reflexivity.
Qed.

Lemma hex6_inv (hex : string) :
  is_hex6 hex = true ->
  exists a1 a2 a3 a4 a5 a6,
    hex = String hash (String a1 (String a2 (String a3 (String a4 (String a5
            (String a6 EmptyString))))))
    /\ Str.is_hex a1 = true /\ Str.is_hex a2 = true /\ Str.is_hex a3 = true
    /\ Str.is_hex a4 = true /\ Str.is_hex a5 = true /\ Str.is_hex a6 = true.
Proof.
  intros H.
  destruct hex as [|h [|a1 [|a2 [|a3 [|a4 [|a5 [|a6 [|? ?]]]]]]]]; try discriminate.
  cbn [is_hex6] in H.
  repeat (apply andb_prop in H; destruct H as [H ?]).
  apply Ascii.eqb_eq in H. subst h.
  exists a1, a2, a3, a4, a5, a6. repeat split; assumption.
Qed.

(** The three [parseInt(hex.slice(..), 16)] of a color read its
    channels. *)
Lemma channels_parse (hex : string) :
  is_hex6 hex = true ->
  let '(r, g, b) := channels hex in
  channel 1 3 hex = of_Z r /\ channel 3 5 hex = of_Z g /\ channel 5 7 hex = of_Z b
  /\ (0 <= r <= 255)%Z /\ (0 <= g <= 255)%Z /\ (0 <= b <= 255)%Z.
Proof.
  intros H. destruct (hex6_inv hex H) as (a1 & a2 & a3 & a4 & a5 & a6 & E & H1 & H2 & H3 & H4 & H5 & H6).
  subst hex. cbn [channels]. unfold channel.
  cbn [Str.slice Str.skipn Str.firstn Nat.sub].
  destruct (parse_pair a1 a2 H1 H2) as [-> ?].
  destruct (parse_pair a3 a4 H3 H4) as [-> ?].
  destruct (parse_pair a5 a6 H5 H6) as [-> ?].
  repeat split; lia.
Qed.

Lemma luminance3_range (r g b : Z) :
  (0 <= r <= 255)%Z -> (0 <= g <= 255)%Z -> (0 <= b <= 255)%Z ->
  in_unit (luminance3 (of_Z r) (of_Z g) (of_Z b)) = true.
Proof.
  intros Hr Hg Hb.
  assert (H : (let l := byte_floats in
               forallb (fun r => forallb (fun g => forallb (fun b =>
                 in_unit (luminance3 r g b)) l) l) l) = true)
    by (vm_compute; reflexivity).
  cbv zeta in H.
  exact (forall_byte_float _ (forall_byte_float _ (forall_byte_float _ H r Hr) g Hg) b Hb).
Qed.

End HexFacts.

(* ------------------------------------------------------------------ *)
(** * Normalization of hex literals *)

Module NormalizeFacts.

Import Color Hex HexFacts.

Lemma lower_hex (c : ascii) :
  Str.is_hex c = true ->
  Str.is_hex (Str.lower c) = true /\ is_lower_hex (Str.lower c) = true.
Proof.
  intros Hc.
  assert (H : forallb (fun c =>
              implb (Str.is_hex c)
                    (Str.is_hex (Str.lower c) && is_lower_hex (Str.lower c)))
              Str.all_ascii = true) by (vm_compute; reflexivity).
  pose proof (forall_ascii _ H c) as E. cbv beta in E. rewrite Hc in E.
  cbn [implb] in E. apply andb_prop in E. exact E.
Qed.

(** A literal of three, six or eight hexadecimal digits normalizes to
    [#rrggbb] in lower case. *)
Lemma normalizeHex_regular (digits : string) :
  Str.all Str.is_hex digits = true ->
  String.length digits = 3 \/ String.length digits = 6 \/ String.length digits = 8 ->
  is_normalized (normalizeHex (String hash digits)) = true.
Proof.
  intros A L.
  assert (R : Str.remove_first hash (String hash digits) = digits) by reflexivity.
  unfold normalizeHex. rewrite R. clear R.
  destruct digits as [|a1 [|a2 [|a3 [|a4 [|a5 [|a6 [|a7 [|a8 [|a9 t]]]]]]]]];
    cbn [String.length] in L; try lia;
    cbn [Str.all] in A;
    repeat match goal with
           | h : (_ && _)%bool = true |- _ => apply andb_prop in h; destruct h
           end;
    repeat match goal with
           | h : Str.is_hex ?c = true |- _ =>
               is_var c;
               let h1 := fresh in let h2 := fresh in
               destruct (lower_hex c h) as [h1 h2]; clear h
           end;
    cbn [String.length Nat.eqb Str.firstn Str.toLowerCase Str.map];
    unfold is_normalized;
    cbn [is_hex6 Str.skipn Str.all];
    repeat match goal with
           | h : _ = true |- _ => rewrite h; clear h
           end;
    reflexivity.
Qed.

Lemma normalizeHex_examples :
  normalizeHex "#abc" = "#aabbcc" /\ normalizeHex "#aabbccdd" = "#aabbcc"
  /\ normalizeHex "#A1B2C3" = "#a1b2c3".
Proof. split; [reflexivity|]. split; reflexivity. Qed.

End NormalizeFacts.

(* ------------------------------------------------------------------ *)
(** * The neutral rule on integer channels *)

Module NeutralFacts.

Import Color JSNum Hex HexFacts.

Lemma float_at_byte (z : Z) :
  (0 <= z <= 255)%Z -> float_at z byte_floats = of_Z z.
Proof.
  intros H. unfold float_at, byte_floats, bytes.
  rewrite (nth_indep _ nan (of_Z (Z.of_nat 0)))
    by (rewrite !length_map, length_seq; lia).
  rewrite map_nth, map_nth, seq_nth by lia.
  rewrite Nat.add_0_l, Z2Nat.id by lia. reflexivity.
Qed.

Lemma forall_byte_pair (P : Z * float -> bool) :
  forallb P byte_pairs = true -> forall z, (0 <= z <= 255)%Z -> P (z, of_Z z) = true.
Proof.
  intros H z Hz. rewrite forallb_forall in H. apply H.
  unfold byte_pairs. apply (in_map (fun z => (z, of_Z z))), in_bytes, Hz.
Qed.

Lemma byte_distance (r g : Z) :
  (0 <= r <= 255)%Z -> (0 <= g <= 255)%Z ->
  abs (of_Z r - of_Z g)%float = of_Z (Z.abs (r - g)).
Proof.
  intros Hr Hg.
  assert (H : (let table := byte_floats in
               forallb (fun p => forallb (fun q =>
                 PrimFloat.Leibniz.eqb (abs (snd p - snd q)%float)
                   (float_at (Z.abs (fst p - fst q)) table))
                 byte_pairs) byte_pairs) = true) by (vm_compute; reflexivity).
  cbv zeta in H.
  pose proof (forall_byte_pair _ (forall_byte_pair _ H r Hr) g Hg) as E.
  cbn [fst snd] in E. apply FloatAxioms.Leibniz.eqb_spec in E.
  rewrite E. apply float_at_byte. lia.
Qed.

Lemma byte_max (a b : Z) :
  (0 <= a <= 255)%Z -> (0 <= b <= 255)%Z ->
  max2 (of_Z a) (of_Z b) = of_Z (Z.max a b).
Proof.
  intros Ha Hb.
  assert (H : (let table := byte_floats in
               forallb (fun p => forallb (fun q =>
                 PrimFloat.Leibniz.eqb (max2 (snd p) (snd q))
                   (float_at (Z.max (fst p) (fst q)) table))
                 byte_pairs) byte_pairs) = true) by (vm_compute; reflexivity).
  cbv zeta in H.
  pose proof (forall_byte_pair _ (forall_byte_pair _ H a Ha) b Hb) as E.
  cbn [fst snd] in E. apply FloatAxioms.Leibniz.eqb_spec in E.
  rewrite E. apply float_at_byte. lia.
Qed.

Lemma byte_thresholds (z : Z) :
  (0 <= z <= 255)%Z ->
  (of_Z z <? 20)%float = (z <? 20)%Z
  /\ (240 <? of_Z z)%float = (240 <? z)%Z
  /\ (of_Z z <? 15)%float = (z <? 15)%Z.
Proof.
  intros Hz.
  assert (H : forallb (fun p : Z * float =>
                Bool.eqb (snd p <? 20)%float (fst p <? 20)%Z
                && Bool.eqb (240 <? snd p)%float (240 <? fst p)%Z
                && Bool.eqb (snd p <? 15)%float (fst p <? 15)%Z)
              byte_pairs = true) by (vm_compute; reflexivity).
  pose proof (forall_byte_pair _ H z Hz) as E. cbn [fst snd] in E.
  apply andb_prop in E. destruct E as [E E3].
  apply andb_prop in E. destruct E as [E1 E2].
  apply Bool.eqb_prop in E1, E2, E3. repeat split; assumption.
Qed.

(** X4.  On a color [#rrggbb] of either case, [isNeutralColor] holds
    exactly when the integer channels are less than 20 apart, or all
    above 240, or all below 15. *)
Lemma isNeutralColor_exact (hex : string) :
  is_hex6 hex = true -> isNeutralColor hex = Spec.neutral (channels hex).
Proof.
  intros H. pose proof (channels_parse hex H) as P.
  unfold isNeutralColor, Spec.neutral.
  destruct (channels hex) as [[r g] b].
  destruct P as (-> & -> & -> & Hr & Hg & Hb).
  unfold max3. rewrite !byte_distance by assumption.
  rewrite !byte_max by lia.
  destruct (byte_thresholds r Hr) as (_ & -> & ->).
  destruct (byte_thresholds g Hg) as (_ & -> & ->).
  destruct (byte_thresholds b Hb) as (_ & -> & ->).
  destruct (byte_thresholds (Z.max (Z.max (Z.abs (r - g)) (Z.abs (r - b))) (Z.abs (g - b))))
    as (-> & _); [lia|].
  reflexivity.
Qed.

Lemma isNeutralColor_exact_witness :
  isNeutralColor "#F0F8ff" = Spec.neutral (channels "#F0F8ff").
Proof. apply isNeutralColor_exact. reflexivity. Defined.

End NeutralFacts.

(* ------------------------------------------------------------------ *)
(** * Lightness and luminance *)

Module PaletteFacts.

Import Color JSNum Hex HexFacts ThemeExtractor.

Lemma lighten_exact (a : float) (q : Q) (z : Z) :
  In (a, q) Spec.palette_amounts -> (0 <= z <= 255)%Z ->
  hex2 (lighten (of_Z z) a) = two_digits (Spec.lightened z q).
Proof.
  intros Ha Hz.
  assert (H : forallb (fun aq : float * Q => forallb (fun z =>
              String.eqb (hex2 (lighten (of_Z z) (fst aq)))
                         (two_digits (Spec.lightened z (snd aq))))
              bytes) Spec.palette_amounts = true) by (vm_compute; reflexivity).
  rewrite forallb_forall in H. specialize (H _ Ha).
  pose proof (forall_byte _ H z Hz) as E. cbv beta in E.
  apply String.eqb_eq in E. exact E.
Qed.

(** On a color [#rrggbb], [adjustLightness] clamps the rounded sum of
    each channel and [255 * amount]. *)
Lemma adjustLightness_channels (hex : string) (amount : float) :
  is_hex6 hex = true ->
  let '(r, g, b) := channels hex in
  adjustLightness hex amount =
  rgbToHex (lighten (of_Z r) amount) (lighten (of_Z g) amount) (lighten (of_Z b) amount).
Proof.
  intros H. pose proof (channels_parse hex H) as P.
  destruct (channels hex) as [[r g] b].
  destruct P as (Er & Eg & Eb & _).
  unfold adjustLightness. rewrite Er, Eg, Eb. reflexivity.
Qed.

Lemma adjustLightness_exact (hex : string) (a : float) (q : Q) :
  is_hex6 hex = true -> In (a, q) Spec.palette_amounts ->
  adjustLightness hex a = Spec.adjusted hex q.
Proof.
  intros H Ha. pose proof (adjustLightness_channels hex a H) as A.
  pose proof (channels_parse hex H) as P.
  unfold Spec.adjusted. destruct (channels hex) as [[r g] b].
  destruct P as (_ & _ & _ & Hr & Hg & Hb).
  rewrite A. unfold rgbToHex, of_channels.
  rewrite !(lighten_exact a q) by assumption. reflexivity.
Qed.

Lemma getLuminance_channels (hex : string) :
  is_hex6 hex = true ->
  let '(r, g, b) := channels hex in
  getLuminance hex = luminance3 (of_Z r) (of_Z g) (of_Z b)
  /\ in_unit (getLuminance hex) = true.
Proof.
  intros H. pose proof (channels_parse hex H) as P.
  destruct (channels hex) as [[r g] b].
  destruct P as (Er & Eg & Eb & Hr & Hg & Hb).
  assert (E : getLuminance hex = luminance3 (of_Z r) (of_Z g) (of_Z b)).
  { unfold getLuminance. rewrite Er, Eg, Eb. reflexivity. }
  split; [exact E|]. rewrite E. apply luminance3_range; assumption.
Qed.

End PaletteFacts.

(* ------------------------------------------------------------------ *)
(** * The matcher *)

Module RegexFacts.

Import Regex.

Section Steps.

Variable step : mstate -> (mstate -> option mstate) -> option mstate.

(** ** Continuations that agree *)

Hypothesis step_ext :
  forall x k1 k2, (forall y, k1 y = k2 y) -> step x k1 = step x k2.

Lemma iterate_ext (k1 k2 : mstate -> option mstate) :
  (forall y, k1 y = k2 y) ->
  forall fuel x, iterate step k1 fuel x = iterate step k2 fuel x.
Proof.
  intros E. induction fuel as [|f IH]; intros x; cbn [iterate].
  - apply E.
  - rewrite (E x). f_equal. apply step_ext. intros y.
    destruct (progressed x y); [apply IH | reflexivity].
Qed.

Lemma mandatory_ext (k1 k2 : mstate -> option mstate) :
  (forall y, k1 y = k2 y) ->
  forall n x, mandatory step k1 n x = mandatory step k2 n x.
Proof.
  intros E. induction n as [|n IH]; intros x; cbn [mandatory].
  - apply E.
  - apply step_ext. intros y. apply IH.
Qed.

(** ** Fuel *)

Hypothesis step_fails : forall x k, (forall y, k y = None) -> step x k = None.

(** The fuel of an unbounded quantifier never runs short: any amount
    from the number of characters left gives the same result. *)
Lemma iterate_enough (k : mstate -> option mstate) :
  forall n x fuel,
    String.length (rest x) <= n -> n <= fuel ->
    iterate step k fuel x = iterate step k n x.
Proof.
  induction n as [|n IH]; intros x fuel Hx Hf.
  - destruct fuel as [|f]; [reflexivity|]. cbn [iterate].
    rewrite step_fails; [reflexivity|]. intros y.
    unfold progressed. destruct (Nat.ltb_spec (String.length (rest y)) (String.length (rest x)));
      [lia | reflexivity].
  - destruct fuel as [|f]; [lia|]. cbn [iterate]. f_equal.
    apply step_ext. intros y. unfold progressed.
    destruct (Nat.ltb_spec (String.length (rest y)) (String.length (rest x)));
      [|reflexivity].
    apply IH; lia.
Qed.

End Steps.

Lemma rmatch_ext (r : regex) :
  forall x k1 k2, (forall y, k1 y = k2 y) -> rmatch r x k1 = rmatch r x k2.
Proof.
  induction r as [|p|a IHa b IHb|a IHa b IHb|mn mx a IHa|n a IHa|a IHa|];
    intros x k1 k2 E; cbn [rmatch].
  - apply E.
  - destruct (rest x) as [|c t]; [reflexivity|]. destruct (p c); [apply E | reflexivity].
  - apply IHa. intros y. apply IHb, E.
  - rewrite (IHa x k1 k2 E), (IHb x k1 k2 E). reflexivity.
  - apply (mandatory_ext _ IHa). intros y. apply (iterate_ext _ IHa), E.
  - apply IHa. intros y. apply E.
  - rewrite (E x). reflexivity.
  - rewrite (E x). reflexivity.
Qed.

Lemma lacks_tail (q : ascii -> bool) (c : ascii) (t : string) :
  lacks q (String c t) = true -> q c = false /\ lacks q t = true.
Proof.
  unfold lacks. cbn [Str.all]. intros H. apply andb_prop in H.
  destruct H as [H1 H2]. apply negb_true_iff in H1. split; assumption.
Qed.

(** A continuation that fails wherever the class is absent makes the
    whole match fail: matching only moves right. *)
Lemma rmatch_starved (q : ascii -> bool) (r : regex) :
  forall (x : mstate) (k : mstate -> option mstate),
    lacks q (rest x) = true ->
    (forall y, lacks q (rest y) = true -> k y = None) ->
    rmatch r x k = None.
Proof.
  induction r as [|p|a IHa b IHb|a IHa b IHb|mn mx a IHa|n a IHa|a IHa|];
    intros x k Hx Hk; cbn [rmatch].
  - apply Hk, Hx.
  - destruct (rest x) as [|c t] eqn:E; [reflexivity|].
    destruct (p c); [|reflexivity]. apply Hk. cbn [advance rest].
    apply (lacks_tail q c t Hx).
  - apply IHa; [exact Hx|]. intros y Hy. apply IHb; assumption.
  - rewrite IHa, IHb by assumption. reflexivity.
  - assert (Hloop : forall fuel y, lacks q (rest y) = true ->
                      iterate (rmatch a) k fuel y = None).
    { induction fuel as [|f IHf]; intros y Hy; cbn [iterate]; [apply Hk, Hy|].
      rewrite IHa; [cbn [first_of]; apply Hk, Hy | exact Hy |].
      intros z Hz. destruct (progressed y z); [apply IHf, Hz | reflexivity]. }
    assert (Hmand : forall K, (forall y, lacks q (rest y) = true -> K y = None) ->
                      forall n y, lacks q (rest y) = true ->
                        mandatory (rmatch a) K n y = None).
    { intros K HK. induction n as [|n IHn]; intros y Hy; cbn [mandatory].
      - apply HK, Hy.
      - apply IHa; [exact Hy|]. intros z Hz. apply IHn, Hz. }
    apply Hmand; [|exact Hx]. intros y Hy. apply Hloop, Hy.
  - apply IHa; [exact Hx|]. intros y Hy. apply Hk. exact Hy.
  - destruct (rmatch a x Some); [reflexivity | apply Hk, Hx].
  - destruct (at_word_boundary x); [apply Hk, Hx | reflexivity].
Qed.

Lemma rmatch_fails (r : regex) (x : mstate) (k : mstate -> option mstate) :
  (forall y, k y = None) -> rmatch r x k = None.
Proof.
  intros H. apply (rmatch_starved (fun _ => false)).
  - unfold lacks. induction (rest x) as [|c t IH]; [reflexivity | exact IH].
  - intros y _. apply H.
Qed.

(** The star of a pattern, run with the fuel the matcher gives it or
    with any more, returns the same. *)
Lemma star_fuel (a : regex) (k : mstate -> option mstate) (x : mstate) (extra : nat) :
  iterate (rmatch a) k (String.length (rest x) + extra) x
  = iterate (rmatch a) k (budget 0 None x) x.
Proof.
  apply (iterate_enough (rmatch a) (rmatch_ext a) (rmatch_fails a));
    cbn [budget]; lia.
Qed.

(** A pattern that needs a class matches nowhere in a text without it. *)
Lemma rmatch_needs (q : ascii -> bool) (r : regex) :
  needs q r = true ->
  forall (x : mstate) (k : mstate -> option mstate),
    lacks q (rest x) = true -> rmatch r x k = None.
Proof.
  induction r as [|p|a IHa b IHb|a IHa b IHb|mn mx a IHa|n a IHa|a IHa|];
    cbn [needs]; intros N x k Hx; try discriminate.
  - cbn [rmatch]. destruct (rest x) as [|c t] eqn:E; [reflexivity|].
    destruct (p c) eqn:P; [|reflexivity].
    rewrite forallb_forall in N. pose proof (N c (HexFacts.in_all_ascii c)) as Q.
    rewrite P in Q. cbn [implb] in Q.
    destruct (lacks_tail q c t Hx) as [Q' _]. congruence.
  - cbn [rmatch]. apply orb_prop in N. destruct N as [N|N].
    + apply IHa; assumption.
    + apply (rmatch_starved q); [exact Hx|]. intros y Hy. apply IHb; assumption.
  - cbn [rmatch]. apply andb_prop in N. destruct N as [Na Nb].
    rewrite IHa, IHb by assumption. reflexivity.
  - destruct mn as [|n]; [discriminate|]. cbn [rmatch mandatory]. apply IHa; assumption.
  - cbn [rmatch]. apply IHa; assumption.
Qed.

Lemma search_from_needs (q : ascii -> bool) (r : regex) :
  needs q r = true ->
  forall s before, lacks q s = true -> search_from r before s = None.
Proof.
  intros N. induction s as [|c t IH]; intros before L; cbn [search_from];
    unfold match_at; rewrite (rmatch_needs q r N) by exact L.
  - reflexivity.
  - apply IH. apply (lacks_tail q c t L).
Qed.

Lemma search_needs (q : ascii -> bool) (r : regex) (s : string) :
  needs q r = true -> lacks q s = true -> search r s = None.
Proof. intros N L. apply (search_from_needs q r N), L. Qed.

End RegexFacts.

(* ------------------------------------------------------------------ *)
(** * The ranking of mined colors *)

Module RankingFacts.

Import Regex Color JSNum Hex HexFacts ThemeExtractor.

Lemma bump_keys (hex k : string) (cs : counts) :
  In k (List.map fst (bump hex cs)) -> k = hex \/ In k (List.map fst cs).
Proof.
  induction cs as [|[k0 n] t IH]; cbn [bump List.map fst In].
  - intros [H|[]]. left. symmetry. exact H.
  - destruct (String.eqb_spec k0 hex) as [E|E]; cbn [List.map fst In].
    + tauto.
    + intros [H|H]; [tauto|]. destruct (IH H); tauto.
Qed.

Lemma bump_distinct (hex : string) (cs : counts) :
  NoDup (List.map fst cs) -> NoDup (List.map fst (bump hex cs)).
Proof.
  induction cs as [|[k0 n] t IH]; cbn [bump List.map fst]; intros H.
  - constructor; [intros [] | constructor].
  - inversion H as [|? ? Hk Ht]; subst.
    destruct (String.eqb_spec k0 hex) as [E|E]; cbn [List.map fst].
    + constructor; assumption.
    + constructor; [|apply IH, Ht].
      intros Hin. destruct (bump_keys _ _ _ Hin); [congruence | contradiction].
Qed.

Lemma tally_distinct (hex : string) (cs : counts) :
  NoDup (List.map fst cs) -> NoDup (List.map fst (tally cs hex)).
Proof.
  unfold tally. destruct (isNeutralColor hex); [tauto | apply bump_distinct].
Qed.

Lemma fold_tally_distinct (f : found -> string) (ms : list found) :
  forall cs, NoDup (List.map fst cs) ->
    NoDup (List.map fst (fold_left (fun cs m => tally cs (f m)) ms cs)).
Proof.
  induction ms as [|m ms IH]; intros cs H; cbn [fold_left]; [exact H|].
  apply IH, tally_distinct, H.
Qed.

Lemma colorCounts_distinct (css : string) : NoDup (List.map fst (colorCounts css)).
Proof.
  unfold colorCounts. repeat apply fold_tally_distinct. constructor.
Qed.

(** A color is tallied only if it is not neutral. *)
Lemma fold_tally_not_neutral (f : found -> string) (ms : list found) :
  forall cs, Forall (fun e => isNeutralColor (fst e) = false) cs ->
    Forall (fun e => isNeutralColor (fst e) = false)
           (fold_left (fun cs m => tally cs (f m)) ms cs).
Proof.
  induction ms as [|m ms IH]; intros cs H; cbn [fold_left]; [exact H|].
  apply IH. unfold tally. destruct (isNeutralColor (f m)) eqn:N; [exact H|].
  clear IH. induction cs as [|[k n] t IHt]; cbn [bump].
  - constructor; [exact N | constructor].
  - inversion H; subst. destruct (String.eqb k (f m)); constructor; auto.
Qed.

Lemma insert_entry_perm (e : string * nat) (l : counts) :
  Permutation (insert_entry e l) (e :: l).
Proof.
  induction l as [|y t IH]; cbn [insert_entry]; [reflexivity|].
  destruct (snd e <? snd y)%nat; [|reflexivity].
  rewrite IH. apply perm_swap.
Qed.

Lemma sort_entries_perm (cs : counts) : Permutation (sort_entries cs) cs.
Proof.
  induction cs as [|e t IH]; cbn [sort_entries fold_right]; [reflexivity|].
  rewrite insert_entry_perm. apply perm_skip, IH.
Qed.

Lemma insert_entry_sorted (e : string * nat) (l : counts) :
  StronglySorted (fun a b => snd b <= snd a) l ->
  StronglySorted (fun a b => snd b <= snd a) (insert_entry e l).
Proof.
  induction l as [|y t IH]; cbn [insert_entry]; intros H.
  - constructor; constructor.
  - inversion H as [|? ? Ht Hy]; subst.
    destruct (Nat.ltb_spec (snd e) (snd y)).
    + constructor; [apply IH, Ht|].
      rewrite Forall_forall. intros z Hz.
      apply (Permutation_in _ (insert_entry_perm e t)) in Hz.
      destruct Hz as [<-|Hz]; [lia|].
      rewrite Forall_forall in Hy. apply Hy, Hz.
    + constructor; [exact H|]. constructor; [lia|].
      rewrite Forall_forall in *. intros z Hz. specialize (Hy z Hz). lia.
Qed.

Lemma sort_entries_sorted (cs : counts) :
  StronglySorted (fun a b => snd b <= snd a) (sort_entries cs).
Proof.
  induction cs as [|e t IH]; cbn [sort_entries fold_right]; [constructor|].
  apply insert_entry_sorted, IH.
Qed.

Lemma firstn_sorted {A : Type} (R : A -> A -> Prop) (n : nat) (l : list A) :
  StronglySorted R l -> StronglySorted R (firstn n l).
Proof.
  revert l. induction n as [|n IH]; intros l H; cbn [firstn]; [constructor|].
  destruct l as [|a t]; [constructor|].
  inversion H as [|? ? Ht Ha]; subst. constructor; [apply IH, Ht|].
  rewrite Forall_forall in *. intros z Hz. apply Ha.
  rewrite <- (firstn_skipn n t). apply in_or_app. left. exact Hz.
Qed.

Lemma firstn_distinct {A : Type} (n : nat) (l : list A) :
  NoDup l -> NoDup (firstn n l).
Proof.
  revert l. induction n as [|n IH]; intros l H; cbn [firstn]; [constructor|].
  destruct l as [|a t]; [constructor|].
  inversion H as [|? ? Ha Ht]; subst. constructor; [|apply IH, Ht].
  intros Hin. apply Ha. rewrite <- (firstn_skipn n t). apply in_or_app. left. exact Hin.
Qed.

(** X5.  What [analyzeColors] returns for every style sheet: at most five
    colors, all different, none neutral, in an order of counts that
    never rises, each color with the count of the tally. *)
Lemma analyzeColors_ranked (css : string) :
  exists ranked : counts,
    analyzeColors css = List.map fst ranked
    /\ List.length ranked <= 5
    /\ NoDup (analyzeColors css)
    /\ StronglySorted (fun a b => snd b <= snd a) ranked
    /\ (forall e, In e ranked -> In e (colorCounts css))
    /\ (forall c, In c (analyzeColors css) -> isNeutralColor c = false).
Proof.
  exists (firstn 5 (sort_entries (colorCounts css))).
  split; [reflexivity|]. split; [apply firstn_le_length|].
  assert (Hin : forall e, In e (firstn 5 (sort_entries (colorCounts css))) ->
                          In e (colorCounts css)).
  { intros e He. apply (Permutation_in _ (sort_entries_perm (colorCounts css))).
    rewrite <- (firstn_skipn 5 (sort_entries (colorCounts css))).
    apply in_or_app. left. exact He. }
  split.
  { unfold analyzeColors. rewrite <- firstn_map. apply firstn_distinct.
    apply (Permutation_NoDup (l := List.map fst (colorCounts css))).
    - apply Permutation_map. symmetry. apply sort_entries_perm.
    - apply colorCounts_distinct. }
  split; [apply firstn_sorted, sort_entries_sorted|].
  split; [exact Hin|].
  intros c Hc. unfold analyzeColors in Hc. apply in_map_iff in Hc.
  destruct Hc as (e & <- & He). apply Hin in He.
  assert (F : Forall (fun e => isNeutralColor (fst e) = false) (colorCounts css)).
  { unfold colorCounts. repeat apply fold_tally_not_neutral. constructor. }
  rewrite Forall_forall in F. apply F, He.
Qed.

End RankingFacts.

(* ------------------------------------------------------------------ *)
(** * The assembly of a theme *)

Module ThemeFacts.

Import Color JSNum Hex HexFacts PaletteFacts ThemeExtractor.

(** A theme that [extractTheme] returns was assembled from a background
    that is [null] or a string. *)
Lemma extractTheme_normal (parse : string -> Dom.document) (html : string)
  (cssTexts : list string) (t : PortalTheme) :
  extractTheme parse html cssTexts = Normal t ->
  exists bg,
    t = assemble (analyzeColors (String.concat newline cssTexts))
                 (extractFontFamily (String.concat newline cssTexts)) bg
                 (extractLogoUrl parse html) (extractFaviconUrl parse html)
    /\ extractBackgroundColor (String.concat newline cssTexts)
       = match bg with Some s => JStr s | None => JNull end.
Proof.
  unfold extractTheme. intros H.
  destruct (extractBackgroundColor (String.concat newline cssTexts)) as [|s|m] eqn:E.
  - exists None. split; [congruence | reflexivity].
  - exists (Some s). split; [congruence | reflexivity].
  - discriminate.
Qed.

Lemma white_is_light : (getLuminance "#ffffff" <? 0.5)%float = false.
Proof. vm_compute. reflexivity. Qed.

Lemma assemble_dark_flag (colors : list string) (font bg logo favicon : option string) :
  let t := assemble colors font bg logo favicon in
  isDark t = (getLuminance (bgColor t) <? 0.5)%float.
Proof.
  unfold assemble. cbn [isDark bgColor].
  destruct bg as [[|c s]|]; cbn [or_else];
    first [reflexivity | symmetry; exact white_is_light].
Qed.

Lemma assemble_palette (colors : list string) (font bg logo favicon : option string) :
  let t := assemble colors font bg logo favicon in
  surfaceColor t = adjustLightness (bgColor t) (if isDark t then 0.05 else -0.03)%float
  /\ elevatedColor t = adjustLightness (bgColor t) (if isDark t then 0.08 else -0.05)%float
  /\ textColor t = (if isDark t then "#ffffff" else "#1f2937")
  /\ textSecondary t = (if isDark t then "#a1a1aa" else "#6b7280")
  /\ borderColor t = (if isDark t then "#2a2a3a" else "#e5e7eb")
  /\ primaryHover t = adjustLightness (primaryColor t) (if isDark t then 0.08 else -0.1)%float.
Proof.
  unfold assemble.
  cbn [isDark bgColor surfaceColor elevatedColor textColor textSecondary borderColor
       primaryHover primaryColor].
  destruct bg as [[|c s]|]; cbn [or_else]; repeat split;
    try reflexivity;
    destruct (getLuminance (String c s) <? 0.5)%float; reflexivity.
Qed.

Lemma assemble_no_background (colors : list string) (font logo favicon : option string) :
  let t := assemble colors font None logo favicon in
  isDark t = false /\ bgColor t = "#ffffff".
Proof. unfold assemble. cbn [isDark bgColor or_else]. split; reflexivity. Qed.

Lemma assemble_dark (colors : list string) (font bg logo favicon : option string) :
  let t := assemble colors font bg logo favicon in
  isDark t = true ->
  exists s, bg = Some s /\ bgColor t = s /\ (forall d, or_else bg d = s)
    /\ surfaceColor t = adjustLightness s 0.05%float
    /\ elevatedColor t = adjustLightness s 0.08%float.
Proof.
  unfold assemble. cbn [isDark bgColor surfaceColor elevatedColor].
  destruct bg as [[|c s]|]; cbn [or_else]; try discriminate.
  intros E. rewrite E. exists (String c s). repeat split; reflexivity.
Qed.

End ThemeFacts.

(* ------------------------------------------------------------------ *)
(** * Background conversion *)

Module BackgroundFacts.

Import Regex RegexFacts Color ThemeExtractor.

Lemma no_rule_no_background (css : string) :
  lacks (Ascii.eqb "{") css = true \/ lacks (Ascii.eqb ":") css = true
  \/ lacks (fun d => Ascii.eqb (Str.fold d) "B") css = true ->
  extractBackgroundColor css = JNull.
Proof.
  intros H. unfold extractBackgroundColor.
  destruct H as [H | [H | H]].
  - rewrite (search_needs (Ascii.eqb "{") backgroundPattern css); [reflexivity | | exact H].
    vm_compute. reflexivity.
  - rewrite (search_needs (Ascii.eqb ":") backgroundPattern css); [reflexivity | | exact H].
    vm_compute. reflexivity.
  - rewrite (search_needs (fun d => Ascii.eqb (Str.fold d) "B") backgroundPattern css);
      [reflexivity | | exact H].
    vm_compute. reflexivity.
Qed.


(** [extractTheme] returns a theme unless the converted background is
    an inherited member; a style sheet without a rule block is one of
    the inputs on which it returns. *)
Lemma extractTheme_returns (parse : string -> Dom.document) (html : string)
  (cssTexts : list string) :
  (forall m, extractBackgroundColor (String.concat newline cssTexts) <> JObject m) ->
  exists t, extractTheme parse html cssTexts = Normal t.
Proof.
  intros H. unfold extractTheme.
  destruct (extractBackgroundColor (String.concat newline cssTexts)) as [|s|m] eqn:E.
  - eexists. reflexivity.
  - eexists. reflexivity.
  - destruct (H m). reflexivity.
Qed.

Lemma extractTheme_returns_without_rule (parse : string -> Dom.document)
  (html : string) (cssTexts : list string) :
  lacks (Ascii.eqb "{") (String.concat newline cssTexts) = true ->
  exists t, extractTheme parse html cssTexts = Normal t.
Proof.
  intros L. apply extractTheme_returns. intros m.
  rewrite no_rule_no_background by (left; exact L). discriminate.
Qed.

End BackgroundFacts.

(* ------------------------------------------------------------------ *)
(** * Logo selection *)

Module LogoFacts.

Import Dom ThemeExtractor.

Lemma first_attr_hit (doc : document) (name : string) (s : selector)
  (more : list selector) (e : einfo) (c : ascii) (v : string) :
  querySelector doc [s] = Some e ->
  getAttribute (e_attrs e) name = Some (String c v) ->
  first_attr doc name (s :: more) = Some (String c v).
Proof. intros Q A. cbn [first_attr]. rewrite Q, A. reflexivity. Qed.

Lemma first_attr_miss (doc : document) (name : string) (s : selector)
  (more : list selector) :
  querySelector doc [s] = None
  \/ (exists e, querySelector doc [s] = Some e
        /\ (getAttribute (e_attrs e) name = None
            \/ getAttribute (e_attrs e) name = Some EmptyString)) ->
  first_attr doc name (s :: more) = first_attr doc name more.
Proof.
  intros [Q | (e & Q & [A | A])]; cbn [first_attr]; rewrite Q; try rewrite A; reflexivity.
Qed.

(** [extractLogoUrl] goes by the order of the selectors: a selector
    decides when its first element has a source and every selector
    before it has no element, or a first element without a source. *)
Lemma logo_priority (doc : document) (before after : list selector) (s : selector)
  (e : einfo) (c : ascii) (v : string) :
  logo_selectors = (before ++ s :: after)%list ->
  Forall (fun s' =>
            match querySelector doc [s'] with
            | None => True
            | Some e' => getAttribute (e_attrs e') "src" = None
                         \/ getAttribute (e_attrs e') "src" = Some EmptyString
            end) before ->
  querySelector doc [s] = Some e ->
  getAttribute (e_attrs e) "src" = Some (String c v) ->
  logo_of doc = Some (String c v).
Proof.
  intros S F Q A. unfold logo_of. rewrite S. clear S.
  assert (H : first_attr doc "src" (before ++ s :: after)%list = Some (String c v)).
  { induction F as [|s' l Hs' _ IH]; cbn [app].
    - apply (first_attr_hit doc "src" s after e c v Q A).
    - rewrite first_attr_miss; [exact IH|].
      destruct (querySelector doc [s']) as [e'|]; [right; exists e'; tauto | left; reflexivity]. }
  rewrite H. reflexivity.
Qed.

(** A header image whose source holds "logo" wins over everything else
    in the document. *)
Lemma header_logo_first (doc : document) (e : einfo) (c : ascii) (v : string) :
  querySelector doc [Descendant (tag_only "header") img_logo] = Some e ->
  getAttribute (e_attrs e) "src" = Some (String c v) ->
  logo_of doc = Some (String c v).
Proof.
  intros Q A.
  apply (logo_priority doc [] (tl logo_selectors)
           (Descendant (tag_only "header") img_logo) e c v);
    [reflexivity | constructor | exact Q | exact A].
Qed.

End LogoFacts.

(* ------------------------------------------------------------------ *)
(** * The engine as a whole *)

Module Claims.

Import Color JSNum Hex HexFacts PaletteFacts ThemeExtractor ThemeFacts.

Lemma background_dark_rule :
  extractBackgroundColor (String.concat newline ["body{background:#0a0a0f;}"])
  = JStr "#0a0a0f".
Proof. vm_compute. reflexivity. Qed.

Lemma background_white_rule :
  extractBackgroundColor (String.concat newline ["body{background:#ffffff;}"])
  = JStr "#ffffff".
Proof. vm_compute. reflexivity. Qed.

(** C6.  The derived palette of every theme that [extractTheme]
    returns: the surface is the background shifted by +0.05 (dark) or
    -0.03 (light), the elevated color by +0.08 or -0.05, and the text
    colors are the fixed pairs.  On a color [#rrggbb], [adjustLightness]
    adds [255 * amount] to each channel, rounds and clamps to [0,255];
    for the amounts of the palette this is the exact sum of the
    specification, rounded to the nearest integer and clamped. *)
Theorem derived_palette (parse : string -> Dom.document) (html : string)
  (cssTexts : list string) (t : PortalTheme) (hex : string) :
  extractTheme parse html cssTexts = Normal t ->
  is_hex6 hex = true ->
  surfaceColor t = adjustLightness (bgColor t) (if isDark t then 0.05 else -0.03)%float
  /\ elevatedColor t = adjustLightness (bgColor t) (if isDark t then 0.08 else -0.05)%float
  /\ textColor t = (if isDark t then "#ffffff" else "#1f2937")
  /\ textSecondary t = (if isDark t then "#a1a1aa" else "#6b7280")
  /\ (forall amount : float,
        let '(r, g, b) := channels hex in
        adjustLightness hex amount =
        rgbToHex (min2 255 (max2 0 (round (of_Z r + 255 * amount)%float)))
                 (min2 255 (max2 0 (round (of_Z g + 255 * amount)%float)))
                 (min2 255 (max2 0 (round (of_Z b + 255 * amount)%float))))
  /\ (forall (a : float) (q : Q),
        In (a, q) Spec.palette_amounts -> adjustLightness hex a = Spec.adjusted hex q).
Proof.
  intros H Hhex.
  destruct (extractTheme_normal _ _ _ _ H) as (bg & -> & _).
  destruct (assemble_palette (analyzeColors (String.concat newline cssTexts))
              (extractFontFamily (String.concat newline cssTexts)) bg
              (extractLogoUrl parse html) (extractFaviconUrl parse html))
    as (S & E & T & T2 & _).
  split; [exact S|]. split; [exact E|]. split; [exact T|]. split; [exact T2|].
  split.
  - intros amount. exact (adjustLightness_channels hex amount Hhex).
  - intros a q Ha. exact (adjustLightness_exact hex a q Hhex Ha).
Qed.

Lemma derived_palette_witness :
  let t := assemble [] None None None None in
  extractTheme Examples.blank_parser EmptyString [] = Normal t
  /\ is_hex6 "#0ea5e9" = true
  /\ surfaceColor t = adjustLightness (bgColor t) (if isDark t then 0.05 else -0.03)%float
  /\ adjustLightness "#0ea5e9" (-0.1)%float = Spec.adjusted "#0ea5e9" (- 1 # 10)%Q.
Proof.
  assert (H : extractTheme Examples.blank_parser EmptyString []
              = Normal (assemble [] None None None None)) by (vm_compute; reflexivity).
  assert (Hhex : is_hex6 "#0ea5e9" = true) by reflexivity.
  pose proof (derived_palette Examples.blank_parser EmptyString [] _ "#0ea5e9" H Hhex)
    as (S & _ & _ & _ & _ & A).
  split; [exact H|]. split; [exact Hhex|]. split; [exact S|].
  apply A. unfold Spec.palette_amounts. do 4 right. left. reflexivity.
Defined.

(** C7.  On a color [#rrggbb] the luminance is
    [0.2126 R + 0.7152 G + 0.0722 B] over the channels divided by 255
    and lies between 0 and 1; white gives 1 and black 0.  The [isDark]
    flag of a returned theme says that the luminance of its background
    is below 0.5, and a theme is returned unless the background
    converts to a member inherited from [Object.prototype]; whenever a
    background is extracted the theme has that background and that
    flag.  So the sheet with the background [#0a0a0f] gives a dark
    theme and the one with [#ffffff] a light one. *)
Theorem luminance_and_dark_flag (parse : string -> Dom.document) (html : string) :
  (forall hex, is_hex6 hex = true ->
     (let '(r, g, b) := channels hex in
      getLuminance hex = luminance3 (of_Z r) (of_Z g) (of_Z b))
     /\ (0 <=? getLuminance hex)%float = true
     /\ (getLuminance hex <=? 1)%float = true)
  /\ getLuminance "#ffffff" = 1%float
  /\ getLuminance "#000000" = 0%float
  /\ (forall cssTexts t,
        extractTheme parse html cssTexts = Normal t ->
        isDark t = (getLuminance (bgColor t) <? 0.5)%float)
  /\ (forall cssTexts,
        (forall m, extractBackgroundColor (String.concat newline cssTexts) <> JObject m) ->
        exists t, extractTheme parse html cssTexts = Normal t
                  /\ isDark t = (getLuminance (bgColor t) <? 0.5)%float)
  /\ (forall cssTexts s,
        extractBackgroundColor (String.concat newline cssTexts) = JStr s ->
        s <> EmptyString ->
        exists t, extractTheme parse html cssTexts = Normal t
                  /\ bgColor t = s
                  /\ isDark t = (getLuminance s <? 0.5)%float)
  /\ (exists t1, extractTheme parse html ["body{background:#0a0a0f;}"] = Normal t1
                 /\ bgColor t1 = "#0a0a0f" /\ isDark t1 = true)
  /\ (exists t2, extractTheme parse html ["body{background:#ffffff;}"] = Normal t2
                 /\ bgColor t2 = "#ffffff" /\ isDark t2 = false).
Proof.
  assert (G : forall cssTexts s,
            extractBackgroundColor (String.concat newline cssTexts) = JStr s ->
            s <> EmptyString ->
            exists t, extractTheme parse html cssTexts = Normal t
                      /\ bgColor t = s
                      /\ isDark t = (getLuminance s <? 0.5)%float).
  { intros cssTexts s B N. unfold extractTheme. rewrite B.
    destruct s as [|c r]; [destruct (N eq_refl)|].
    eexists. split; [reflexivity|].
    unfold assemble. cbn [isDark bgColor or_else]. split; reflexivity. }
  split.
  { intros hex Hhex. pose proof (getLuminance_channels hex Hhex) as L.
    destruct (channels hex) as [[r g] b]. destruct L as [L R].
    unfold in_unit in R. apply andb_prop in R. destruct R as [R0 R1].
    split; [exact L|]. split; [exact R0 | exact R1]. }
  split; [vm_compute; reflexivity|]. split; [vm_compute; reflexivity|].
  assert (D : forall cssTexts t,
            extractTheme parse html cssTexts = Normal t ->
            isDark t = (getLuminance (bgColor t) <? 0.5)%float).
  { intros cssTexts t H. destruct (extractTheme_normal _ _ _ _ H) as (bg & -> & _).
    apply assemble_dark_flag. }
  split; [exact D|].
  split.
  { intros cssTexts N.
    destruct (BackgroundFacts.extractTheme_returns parse html cssTexts N) as (t & H).
    exists t. split; [exact H | exact (D cssTexts t H)]. }
  split; [exact G|].
  split.
  - destruct (G ["body{background:#0a0a0f;}"] "#0a0a0f" background_dark_rule)
      as (t1 & H1 & B1 & D1); [discriminate|].
    exists t1. split; [exact H1|]. split; [exact B1|].
    rewrite D1. vm_compute. reflexivity.
  - destruct (G ["body{background:#ffffff;}"] "#ffffff" background_white_rule)
      as (t2 & H2 & B2 & D2); [discriminate|].
    exists t2. split; [exact H2|]. split; [exact B2|].
    rewrite D2. vm_compute. reflexivity.
Qed.

Lemma luminance_and_dark_flag_witness :
  (exists t1, extractTheme Examples.blank_parser EmptyString ["body{background:#0a0a0f;}"]
              = Normal t1
              /\ bgColor t1 = "#0a0a0f" /\ isDark t1 = true)
  /\ (getLuminance "#0a0a0f" <=? 1)%float = true.
Proof.
  destruct (luminance_and_dark_flag Examples.blank_parser EmptyString)
    as (L & _ & _ & _ & _ & _ & D & _).
  split; [exact D|].
  apply (L "#0a0a0f"). reflexivity.
Defined.

(** C9.  On the empty document and no style sheet the theme takes the
    fallback colors, is light and has no logo and no favicon.  The
    parser is the browser's: the statement asks of it that the empty
    input parse to the empty document. *)
Theorem fallback_on_empty_input (parse : string -> Dom.document) :
  parse EmptyString = Dom.empty_document ->
  exists t,
    extractTheme parse EmptyString [] = Normal t
    /\ primaryColor t = "#0ea5e9" /\ secondaryColor t = "#10b981"
    /\ isDark t = false /\ logoUrl t = EmptyString /\ faviconUrl t = EmptyString.
Proof.
  intros H. unfold extractTheme, extractLogoUrl, extractFaviconUrl. rewrite H.
  eexists. split; [vm_compute; reflexivity|].
  cbn [primaryColor secondaryColor isDark logoUrl faviconUrl].
  split; [reflexivity|]. split; [reflexivity|]. split; [reflexivity|].
  split; reflexivity.
Qed.

Lemma fallback_on_empty_input_witness :
  Examples.blank_parser EmptyString = Dom.empty_document
  /\ exists t,
       extractTheme Examples.blank_parser EmptyString [] = Normal t
       /\ primaryColor t = "#0ea5e9" /\ secondaryColor t = "#10b981"
       /\ isDark t = false /\ logoUrl t = EmptyString /\ faviconUrl t = EmptyString.
Proof.
  split; [reflexivity|].
  apply (fallback_on_empty_input Examples.blank_parser). reflexivity.
Defined.

(** C10.  When no background is extracted the theme is light on
    [#ffffff].  When the theme is dark, the extracted background is a
    string, and [bgColor || d] is that string whatever [d] is: the
    operand [#0a0a0f] is never the value of the background, the surface
    or the elevated color. *)
Theorem dark_default_unreachable (parse : string -> Dom.document) (html : string)
  (cssTexts : list string) (t : PortalTheme) :
  extractTheme parse html cssTexts = Normal t ->
  (extractBackgroundColor (String.concat newline cssTexts) = JNull ->
   isDark t = false /\ bgColor t = "#ffffff")
  /\ (isDark t = true ->
      exists s,
        extractBackgroundColor (String.concat newline cssTexts) = JStr s
        /\ (forall d, or_else (Some s) d = s)
        /\ bgColor t = s
        /\ surfaceColor t = adjustLightness s 0.05%float
        /\ elevatedColor t = adjustLightness s 0.08%float).
Proof.
  intros H. destruct (extractTheme_normal _ _ _ _ H) as (bg & -> & B). split.
  - intros N. rewrite N in B. destruct bg; [discriminate|].
    apply assemble_no_background.
  - intros D. destruct (assemble_dark _ _ _ _ _ D) as (s & -> & Eb & Ed & Es & Ee).
    exists s. repeat split; assumption.
Qed.

Lemma dark_default_unreachable_witness :
  let t := assemble [] None (Some "#0a0a0f") None None in
  extractTheme Examples.blank_parser EmptyString ["body{background:#0a0a0f;}"] = Normal t
  /\ isDark t = true
  /\ bgColor t = "#0a0a0f" /\ surfaceColor t = adjustLightness "#0a0a0f" 0.05%float.
Proof.
  assert (H : extractTheme Examples.blank_parser EmptyString ["body{background:#0a0a0f;}"]
              = Normal (assemble [] None (Some "#0a0a0f") None None))
    by (vm_compute; reflexivity).
  assert (D : isDark (assemble [] None (Some "#0a0a0f") None None) = true)
    by (vm_compute; reflexivity).
  destruct (dark_default_unreachable _ _ _ _ H) as [_ U].
  destruct (U D) as (s & B & _ & Eb & Es & _).
  rewrite background_dark_rule in B. injection B as <-.
  split; [exact H|]. split; [exact D|]. split; [exact Eb | exact Es].
Defined.

Lemma colors_of_four_digits :
  analyzeColors (String.concat newline ["a{color:#f00c}"]) = ["#f00c"].
Proof. vm_compute. reflexivity. Qed.

Lemma no_background_in_four_digits :
  extractBackgroundColor (String.concat newline ["a{color:#f00c}"]) = JNull.
Proof. vm_compute. reflexivity. Qed.

(** C2.  The scanner matches the four-digit literal [#f00c];
    [normalizeHex] leaves it at four digits, its blue channel reads as
    NaN so that it is not neutral, and it becomes the primary color of
    the theme. *)
Theorem four_digit_primary (parse : string -> Dom.document) (html : string) :
  exists t,
    extractTheme parse html ["a{color:#f00c}"] = Normal t
    /\ primaryColor t = "#f00c"
    /\ is_hex6 (primaryColor t) = false
    /\ primaryHover t = "#d700NaN".
Proof.
  unfold extractTheme. rewrite no_background_in_four_digits, colors_of_four_digits.
  eexists. split; [reflexivity|].
  unfold assemble. cbn [primaryColor primaryHover nth_error or_else].
  split; [reflexivity|]. split; vm_compute; reflexivity.
Qed.

Lemma inherited_background :
  extractBackgroundColor (String.concat newline ["body{background:constructor;}"])
  = JObject "constructor".
Proof. vm_compute. reflexivity. Qed.

(** C3.  For the style sheet [body{background:constructor;}] the lookup
    in [namedColors] finds the inherited [constructor], which is no
    string, and [extractTheme] throws. *)
Theorem extractTheme_throws (parse : string -> Dom.document) (html : string) :
  extractTheme parse html ["body{background:constructor;}"] = Throw type_error.
Proof. unfold extractTheme. rewrite inherited_background. reflexivity. Qed.

(** C4.  Mining [a{color:#f00c}] returns [#f00c], which is no six-digit
    color. *)
Theorem four_digit_mined :
  analyzeColors "a{color:#f00c}" = ["#f00c"]
  /\ normalizeHex "#f00c" = "#f00c"
  /\ isNeutralColor "#f00c" = false
  /\ is_hex6 "#f00c" = false.
Proof.
  split; [vm_compute; reflexivity|]. split; [vm_compute; reflexivity|].
  split; [vm_compute; reflexivity | reflexivity].
Qed.

Lemma analyzeColors_ranking :
  analyzeColors "a{color:#ff0000} b{color:#ff0000} c{color:#00ff00}"
  = ["#ff0000"; "#00ff00"].
Proof. vm_compute. reflexivity. Qed.

Lemma analyzeColors_nothing : analyzeColors EmptyString = [].
Proof. vm_compute. reflexivity. Qed.

(** C1.  What [sanitizeHtml] lets through or spoils: a quoted
    [javascript:] URL after a blank, and an unquoted one, stay as they
    are; removing the inner block of [<scr<script></script>ipt>] leaves
    a script element; an unclosed script element stays; text that looks
    like a handler is cut out of a paragraph. *)
Theorem sanitizeHtml_lets_through :
  BrandingSettings.sanitizeHtml
    ("<header><a href=" ++ Str.dq ++ " javascript:alert(1)" ++ Str.dq ++ ">x</a></header>")
  = "<header><a href=" ++ Str.dq ++ " javascript:alert(1)" ++ Str.dq ++ ">x</a></header>"
  /\ BrandingSettings.sanitizeHtml "<header><a href=javascript:alert(1)>x</a></header>"
     = "<header><a href=javascript:alert(1)>x</a></header>"
  /\ BrandingSettings.sanitizeHtml "<scr<script></script>ipt>alert(1)</script>"
     = "<script>alert(1)</script>"
  /\ BrandingSettings.sanitizeHtml "<header><script>alert(1)</header>"
     = "<header><script>alert(1)</header>"
  /\ BrandingSettings.sanitizeHtml "<header><p>Now onsale=today only</p></header>"
     = "<header><p>Now only</p></header>".
Proof.
  split; [vm_compute; reflexivity|]. split; [vm_compute; reflexivity|].
  split; [vm_compute; reflexivity|].
  split; [vm_compute; reflexivity | vm_compute; reflexivity].
Qed.

Lemma sanitizeHtml_script_block :
  BrandingSettings.sanitizeHtml
    ("<header><script>alert(1)</script><div class=" ++ Str.dq ++ "logo" ++ Str.dq
     ++ ">X</div></header>")
  = "<header><div class=" ++ Str.dq ++ "logo" ++ Str.dq ++ ">X</div></header>".
Proof. vm_compute. reflexivity. Qed.

(** C8.  On a page with a linked image before the header, the selector
    list of the admin screen returns the linked image, the first in
    document order; [extractLogoUrl] returns the logo of the header. *)
Theorem inline_logo_in_document_order :
  BrandingSettings.extractedLogoUrl Examples.link_before_header = "other.png"
  /\ forall html,
       extractLogoUrl (Examples.constant_parser Examples.link_before_header) html
       = Some "logo.png".
Proof.
  split; [vm_compute; reflexivity|].
  intros html. unfold extractLogoUrl, Examples.constant_parser.
  vm_compute. reflexivity.
Qed.

End Claims.

(* ------------------------------------------------------------------ *)
(** * More on strings *)

Module StrFacts.

Lemma append_assoc (a b c : string) : (a ++ b) ++ c = a ++ (b ++ c).
Proof. induction a as [|x a IH]; cbn [append]; [reflexivity | rewrite IH; reflexivity]. Qed.


Lemma length_append (a b : string) :
  String.length (a ++ b) = String.length a + String.length b.
Proof. induction a as [|x a IH]; cbn [append String.length]; [reflexivity | rewrite IH; reflexivity]. Qed.

Lemma all_append (q : ascii -> bool) (a b : string) :
  Str.all q (a ++ b) = Str.all q a && Str.all q b.
Proof.
  induction a as [|x a IH]; cbn [append Str.all]; [reflexivity|].
  rewrite IH, andb_assoc. reflexivity.
Qed.

Lemma firstn_append (a b : string) : Str.firstn (String.length a) (a ++ b) = a.
Proof.
  induction a as [|x a IH]; cbn [append String.length Str.firstn].
  - destruct b; reflexivity.
  - rewrite IH. reflexivity.
Qed.

Lemma length_firstn (n : nat) (s : string) :
  String.length (Str.firstn n s) <= String.length s.
Proof.
  revert s. induction n as [|n IH]; intros [|c s]; cbn [Str.firstn String.length]; try lia.
  specialize (IH s). lia.
Qed.

Lemma length_map (f : ascii -> ascii) (s : string) :
  String.length (Str.map f s) = String.length s.
Proof. induction s as [|c s IH]; cbn [Str.map String.length]; [reflexivity | rewrite IH; reflexivity]. Qed.

Lemma all_rev_onto (q : ascii -> bool) (s acc : string) :
  Str.all q (Str.rev_onto s acc) = Str.all q s && Str.all q acc.
Proof.
  revert acc. induction s as [|c s IH]; intros acc; cbn [Str.rev_onto Str.all]; [reflexivity|].
  rewrite IH. cbn [Str.all]. destruct (q c), (Str.all q s); reflexivity.
Qed.

Lemma all_rev (q : ascii -> bool) (s : string) : Str.all q (Str.rev s) = Str.all q s.
Proof. unfold Str.rev. rewrite all_rev_onto. cbn [Str.all]. apply andb_true_r. Qed.

Lemma all_drop_spaces (q : ascii -> bool) (s : string) :
  Str.all q s = true -> Str.all q (Str.drop_spaces s) = true.
Proof.
  induction s as [|c s IH]; cbn [Str.drop_spaces Str.all]; [reflexivity|].
  intros H. apply andb_prop in H. destruct H as [H1 H2].
  destruct (Str.is_space c); [apply IH, H2 | cbn [Str.all]; rewrite H1, H2; reflexivity].
Qed.

Lemma all_trim (q : ascii -> bool) (s : string) :
  Str.all q s = true -> Str.all q (Str.trim s) = true.
Proof.
  intros H. unfold Str.trim. rewrite all_rev. apply all_drop_spaces.
  rewrite all_rev. apply all_drop_spaces, H.
Qed.

Lemma rev_onto_append (a b acc : string) :
  Str.rev_onto (a ++ b) acc = Str.rev_onto b (Str.rev_onto a acc).
Proof.
  revert acc. induction a as [|x a IH]; intros acc; cbn [append Str.rev_onto];
    [reflexivity | apply IH].
Qed.

Lemma all_weaken (p q : ascii -> bool) (s : string) :
  (forall c, p c = true -> q c = true) -> Str.all p s = true -> Str.all q s = true.
Proof.
  intros W. induction s as [|c s IH]; cbn [Str.all]; [reflexivity|].
  intros H. apply andb_prop in H. destruct H as [H1 H2].
  rewrite (W c H1), (IH H2). reflexivity.
Qed.

End StrFacts.

(* ------------------------------------------------------------------ *)
(** * What a match consumes *)

Module ShapeFacts.
Import Regex Shape StrFacts.

Section Steps.

Variable q : ascii -> bool.
Variable step : mstate -> (mstate -> option mstate) -> option mstate.
Variable inside : bool.
Variable lo : nat.
Variable hi : option nat.

Hypothesis step_consumes :
  forall x k z, step x k = Some z ->
  exists y w, k y = Some z /\ rest x = w ++ rest y
    /\ before y = Str.rev_onto w (before x)
    /\ (inside = true -> Str.all q w = true)
    /\ lo <= String.length w
    /\ (forall m, hi = Some m -> String.length w <= m).

Lemma iterate_consumes (k : mstate -> option mstate) :
  forall fuel x z, iterate step k fuel x = Some z ->
  exists y w, k y = Some z /\ rest x = w ++ rest y
    /\ before y = Str.rev_onto w (before x)
    /\ (inside = true -> Str.all q w = true)
    /\ (forall m, hi = Some m -> String.length w <= fuel * m).
Proof.
  induction fuel as [|f IH]; intros x z H; cbn [iterate] in H.
  - exists x, EmptyString. repeat split; try assumption; try reflexivity; cbn; intros; lia.
  - destruct (step x (fun y => if progressed x y then iterate step k f y else None))
      as [z'|] eqn:E; cbn [first_of] in H.
    + injection H as <-.
      destruct (step_consumes _ _ _ E) as (y1 & w1 & K1 & R1 & B1 & A1 & _ & M1).
      destruct (progressed x y1); [|discriminate].
      destruct (IH _ _ K1) as (y2 & w2 & K2 & R2 & B2 & A2 & M2).
      exists y2, (w1 ++ w2). split; [exact K2|].
      split; [rewrite R1, R2, append_assoc; reflexivity|].
      split; [rewrite B2, B1, rev_onto_append; reflexivity|].
      split; [intros I; rewrite all_append, (A1 I), (A2 I); reflexivity|].
      intros m Hm. rewrite length_append. specialize (M1 m Hm). specialize (M2 m Hm).
      cbn [Nat.mul]. lia.
    + exists x, EmptyString. repeat split; try assumption; try reflexivity; cbn; intros; lia.
Qed.

Lemma mandatory_consumes (k : mstate -> option mstate) :
  forall n x z, mandatory step k n x = Some z ->
  exists y w, k y = Some z /\ rest x = w ++ rest y
    /\ before y = Str.rev_onto w (before x)
    /\ (inside = true -> Str.all q w = true)
    /\ n * lo <= String.length w
    /\ (forall m, hi = Some m -> String.length w <= n * m).
Proof.
  induction n as [|n IH]; intros x z H; cbn [mandatory] in H.
  - exists x, EmptyString. repeat split; try assumption; try reflexivity; cbn; intros; lia.
  - destruct (step_consumes _ _ _ H) as (y1 & w1 & K1 & R1 & B1 & A1 & L1 & M1).
    destruct (IH _ _ K1) as (y2 & w2 & K2 & R2 & B2 & A2 & L2 & M2).
    exists y2, (w1 ++ w2). split; [exact K2|].
    split; [rewrite R1, R2, append_assoc; reflexivity|].
    split; [rewrite B2, B1, rev_onto_append; reflexivity|].
    split; [intros I; rewrite all_append, (A1 I), (A2 I); reflexivity|].
    rewrite length_append. split; [cbn [Nat.mul]; lia|].
    intros m Hm. specialize (M1 m Hm). specialize (M2 m Hm). cbn [Nat.mul]. lia.
Qed.

End Steps.

(** A match consumes a text between its two states: characters of the
    classes of the pattern, no fewer than [minlen] and no more than
    [maxlen]. *)
Lemma rmatch_consumes (q : ascii -> bool) (r : regex) :
  forall x k z, rmatch r x k = Some z ->
  exists y w, k y = Some z /\ rest x = w ++ rest y
    /\ before y = Str.rev_onto w (before x)
    /\ (within q r = true -> Str.all q w = true)
    /\ minlen r <= String.length w
    /\ (forall m, maxlen r = Some m -> String.length w <= m).
Proof.
  induction r as [|p|a IHa b IHb|a IHa b IHb|mn mx a IHa|n a IHa|a IHa|];
    intros x k z H; cbn [rmatch] in H; cbn [within minlen maxlen].
  - exists x, EmptyString. repeat split; try assumption; try reflexivity; cbn; intros; lia.
  - destruct (rest x) as [|c t] eqn:E; [discriminate|].
    destruct (p c) eqn:P; [|discriminate].
    exists (advance c t x), (String c EmptyString). split; [exact H|].
    split; [reflexivity|]. split; [reflexivity|]. split.
    + intros W. rewrite forallb_forall in W.
      assert (I : In c Str.all_ascii).
      { unfold Str.all_ascii. rewrite <- (ascii_nat_embedding c).
        apply in_map, in_seq. pose proof (nat_ascii_bounded c). lia. }
      specialize (W c I). rewrite P in W. cbn [implb] in W.
      cbn [Str.all]. rewrite W. reflexivity.
    + split; [cbn; lia|]. intros m Hm. injection Hm as <-. cbn. lia.
  - destruct (IHa _ _ _ H) as (y1 & w1 & K1 & R1 & B1 & A1 & L1 & M1).
    destruct (IHb _ _ _ K1) as (y2 & w2 & K2 & R2 & B2 & A2 & L2 & M2).
    exists y2, (w1 ++ w2). split; [exact K2|].
    split; [rewrite R1, R2, append_assoc; reflexivity|].
    split; [rewrite B2, B1, rev_onto_append; reflexivity|].
    split.
    { intros W. apply andb_prop in W. destruct W as [Wa Wb].
      rewrite all_append, (A1 Wa), (A2 Wb). reflexivity. }
    rewrite length_append. split; [lia|].
    intros m Hm. destruct (maxlen a) as [la|]; [|discriminate].
    destruct (maxlen b) as [lb|]; [|discriminate]. injection Hm as <-.
    specialize (M1 la eq_refl). specialize (M2 lb eq_refl). lia.
  - destruct (rmatch a x k) as [z'|] eqn:E; cbn [first_of] in H.
    + injection H as <-.
      destruct (IHa _ _ _ E) as (y1 & w1 & K1 & R1 & B1 & A1 & L1 & M1).
      exists y1, w1. split; [exact K1|]. split; [exact R1|]. split; [exact B1|]. split.
      { intros W. apply andb_prop in W. apply A1, W. }
      split; [lia|]. intros m Hm. destruct (maxlen a) as [la|]; [|discriminate].
      destruct (maxlen b) as [lb|]; [|discriminate]. injection Hm as <-.
      specialize (M1 la eq_refl). lia.
    + destruct (IHb _ _ _ H) as (y1 & w1 & K1 & R1 & B1 & A1 & L1 & M1).
      exists y1, w1. split; [exact K1|]. split; [exact R1|]. split; [exact B1|]. split.
      { intros W. apply andb_prop in W. apply A1, W. }
      split; [lia|]. intros m Hm. destruct (maxlen a) as [la|]; [|discriminate].
      destruct (maxlen b) as [lb|]; [|discriminate]. injection Hm as <-.
      specialize (M1 lb eq_refl). lia.
  - destruct (mandatory_consumes q (rmatch a) (within q a) (minlen a) (maxlen a) IHa
                _ _ _ _ H) as (y1 & w1 & K1 & R1 & B1 & A1 & L1 & M1).
    destruct (iterate_consumes q (rmatch a) (within q a) (minlen a) (maxlen a) IHa
                _ _ _ _ K1) as (y2 & w2 & K2 & R2 & B2 & A2 & M2).
    exists y2, (w1 ++ w2). split; [exact K2|].
    split; [rewrite R1, R2, append_assoc; reflexivity|].
    split; [rewrite B2, B1, rev_onto_append; reflexivity|].
    split; [intros W; rewrite all_append, (A1 W), (A2 W); reflexivity|].
    rewrite length_append. split; [lia|].
    intros m Hm. destruct mx as [mxx|]; [|discriminate].
    destruct (maxlen a) as [la|]; [|discriminate]. injection Hm as <-.
    specialize (M1 la eq_refl). specialize (M2 la eq_refl).
    cbn [budget] in M2. lia.
  - destruct (IHa _ _ _ H) as (y1 & w1 & K1 & R1 & B1 & A1 & L1 & M1).
    exists (capture n x y1), w1. split; [exact K1|].
    split; [exact R1|]. split; [exact B1|]. split; [exact A1|]. split; assumption.
  - destruct (rmatch a x Some); [discriminate|].
    exists x, EmptyString. repeat split; try assumption; try reflexivity; cbn; intros; lia.
  - destruct (at_word_boundary x); [|discriminate].
    exists x, EmptyString. repeat split; try assumption; try reflexivity; cbn; intros; lia.
Qed.

Lemma consumed_append (x y : mstate) (w : string) :
  rest x = w ++ rest y -> consumed x y = w.
Proof.
  intros R. unfold consumed. rewrite R, length_append.
  replace (String.length w + String.length (rest y) - String.length (rest y))
    with (String.length w) by lia.
  apply firstn_append.
Qed.

(** The text of a match found at a position. *)
Lemma match_at_text (q : ascii -> bool) (r : regex) (before s : string) (m : found) :
  match_at r before s = Some m ->
  s = f_text m ++ f_rest m
  /\ (within q r = true -> Str.all q (f_text m) = true)
  /\ minlen r <= String.length (f_text m)
  /\ (forall n, maxlen r = Some n -> String.length (f_text m) <= n).
Proof.
  unfold match_at. intros H.
  destruct (rmatch r (MkSt before s []) Some) as [z|] eqn:E; [|discriminate].
  injection H as <-. cbn [f_text f_rest].
  destruct (rmatch_consumes q r _ _ _ E) as (y & w & K & R & _ & A & L & M).
  injection K as <-. cbn [rest] in R.
  rewrite (consumed_append (MkSt before s []) y w R).
  repeat split; assumption.
Qed.

Lemma search_from_at (r : regex) :
  forall s before m, search_from r before s = Some m ->
  exists before' s', match_at r before' s' = Some m
                     /\ String.length s' <= String.length s.
Proof.
  induction s as [|c t IH]; intros before m H; cbn [search_from] in H.
  - destruct (match_at r before EmptyString) as [m'|] eqn:E; [|discriminate].
    injection H as <-. exists before, EmptyString. split; [exact E | lia].
  - destruct (match_at r before (String c t)) as [m'|] eqn:E.
    + injection H as <-. exists before, (String c t). split; [exact E | lia].
    + destruct (IH _ _ H) as (b' & s' & M & L). exists b', s'. split; [exact M|].
      cbn [String.length]. lia.
Qed.

Lemma scan_at (r : regex) :
  forall s before skip m, In m (scan r before s skip) ->
  exists before' s', match_at r before' s' = Some m.
Proof.
  induction s as [|c t IH]; intros before skip m H; cbn [scan] in H; [destruct H|].
  destruct skip as [|n]; [|apply (IH _ _ _ H)].
  destruct (match_at r before (String c t)) as [m'|] eqn:E.
  - destruct H as [<-|H]; [exists before, (String c t); exact E | apply (IH _ _ _ H)].
  - apply (IH _ _ _ H).
Qed.

End ShapeFacts.

(* ------------------------------------------------------------------ *)
(** * What a pattern matches *)

(** The matcher against the declarative reading of a pattern: what it
    returns is a match of the pattern, and where the pattern has a match
    it returns one. *)

Module LangFacts.
Import Regex Lang StrFacts.

Lemma pos_capture (n : nat) (x y : mstate) : pos (capture n x y) = pos y.
Proof. reflexivity. Qed.

(** A run moves to the right over a word. *)
Lemma times_moves (R : position -> position -> Prop) :
  (forall p q, R p q ->
     exists w, snd p = w ++ snd q /\ fst q = Str.rev_onto w (fst p)) ->
  forall n p q, times R n p q ->
    exists w, snd p = w ++ snd q /\ fst q = Str.rev_onto w (fst p).
Proof.
  intros HR. induction n as [|n IH]; intros p q H; cbn [times] in H.
  - subst q. exists EmptyString. split; reflexivity.
  - destruct H as (m & H1 & H2).
    destruct (HR _ _ H1) as (w1 & E1 & B1).
    destruct (IH _ _ H2) as (w2 & E2 & B2).
    exists (w1 ++ w2). rewrite append_assoc, <- E2, <- E1. split; [reflexivity|].
    rewrite rev_onto_append, <- B1. exact B2.
Qed.

Lemma reach_moves (r : regex) :
  forall p q, reach r p q ->
    exists w, snd p = w ++ snd q /\ fst q = Str.rev_onto w (fst p).
Proof.
  induction r as [|c|a IHa b IHb|a IHa b IHb|mn mx a IHa|n a IHa|a IHa|];
    intros p q H; cbn [reach] in H.
  - subst q. exists EmptyString. split; reflexivity.
  - destruct H as (ch & t & E & _ & ->). exists (String ch EmptyString).
    cbn [snd fst append Str.rev_onto]. split; [exact E | reflexivity].
  - destruct H as (m & H1 & H2).
    destruct (IHa _ _ H1) as (w1 & E1 & B1).
    destruct (IHb _ _ H2) as (w2 & E2 & B2).
    exists (w1 ++ w2). rewrite append_assoc, <- E2, <- E1. split; [reflexivity|].
    rewrite rev_onto_append, <- B1. exact B2.
  - destruct H as [H|H]; [apply IHa | apply IHb]; exact H.
  - destruct H as (n & _ & H). exact (times_moves _ IHa n p q H).
  - apply IHa, H.
  - destruct H as [-> _]. exists EmptyString. split; reflexivity.
  - destruct H as [-> _]. exists EmptyString. split; reflexivity.
Qed.

Lemma moves_length (p q : position) (w : string) :
  snd p = w ++ snd q -> String.length (snd p) = String.length w + String.length (snd q).
Proof. intros ->. apply length_append. Qed.

Lemma moves_nowhere (p q : position) :
  (exists w, snd p = w ++ snd q /\ fst q = Str.rev_onto w (fst p)) ->
  String.length (snd q) = String.length (snd p) -> q = p.
Proof.
  intros (w & E & B) L.
  pose proof (moves_length p q w E) as M.
  destruct w as [|c w]; [|cbn [String.length] in M; lia].
  cbn [append Str.rev_onto] in *. destruct p, q. cbn [fst snd] in *. congruence.
Qed.

(** Runs that move nowhere can be left out. *)
Lemma times_strict (R : position -> position -> Prop) :
  (forall p q, R p q ->
     exists w, snd p = w ++ snd q /\ fst q = Str.rev_onto w (fst p)) ->
  forall n p q, times R n p q ->
    exists n', n' <= n
      /\ times (fun p m => R p m /\ String.length (snd m) < String.length (snd p)) n' p q.
Proof.
  intros HR. induction n as [|n IH]; intros p q H; cbn [times] in H.
  - exists 0. split; [lia | exact H].
  - destruct H as (m & H1 & H2). destruct (IH _ _ H2) as (n' & Ln & T).
    destruct (Nat.eq_dec (String.length (snd m)) (String.length (snd p))) as [E|E].
    + rewrite (moves_nowhere p m (HR _ _ H1) E) in T. exists n'. split; [lia | exact T].
    + exists (S n'). split; [lia|]. cbn [times]. exists m. split; [|exact T].
      split; [exact H1|].
      destruct (HR _ _ H1) as (w & Ew & _). pose proof (moves_length p m w Ew). lia.
Qed.

Lemma times_strict_count (R : position -> position -> Prop) :
  forall n p q,
    times (fun p m => R p m /\ String.length (snd m) < String.length (snd p)) n p q ->
    n + String.length (snd q) <= String.length (snd p).
Proof.
  induction n as [|n IH]; intros p q H; cbn [times] in H.
  - subst q. lia.
  - destruct H as (m & [_ L] & T). specialize (IH _ _ T). lia.
Qed.

Lemma times_split (R : position -> position -> Prop) :
  forall a b p q, times R (a + b) p q -> exists m, times R a p m /\ times R b m q.
Proof.
  induction a as [|a IH]; intros b p q H; cbn [Nat.add times] in *.
  - exists p. split; [reflexivity | exact H].
  - destruct H as (m & H1 & H2). destruct (IH _ _ _ H2) as (m' & T1 & T2).
    exists m'. split; [exists m; split; assumption | exact T2].
Qed.

Lemma times_join (R : position -> position -> Prop) :
  forall a b p m q, times R a p m -> times R b m q -> times R (a + b) p q.
Proof.
  induction a as [|a IH]; intros b p m q H1 H2; cbn [Nat.add times] in *.
  - subst m. exact H2.
  - destruct H1 as (m' & H & T). exists m'. split; [exact H | exact (IH _ _ _ _ T H2)].
Qed.

Section Loops.

Variable a : regex.

Hypothesis sound_a :
  forall x k z, rmatch a x k = Some z ->
    exists y, reach a (pos x) (pos y) /\ k y = Some z
              /\ (groupless a = true -> caps y = caps x).

Hypothesis complete_a :
  forall x q k, reach a (pos x) q -> (forall y, pos y = q -> k y <> None) ->
    rmatch a x k <> None.

Lemma mandatory_sound (k : mstate -> option mstate) :
  forall n x z, mandatory (rmatch a) k n x = Some z ->
    exists y, times (reach a) n (pos x) (pos y) /\ k y = Some z
              /\ (groupless a = true -> caps y = caps x).
Proof.
  induction n as [|n IH]; intros x z H; cbn [mandatory] in H.
  - exists x. split; [reflexivity|]. split; [exact H | reflexivity].
  - destruct (sound_a _ _ _ H) as (y & R & K & C).
    destruct (IH _ _ K) as (y' & T & K' & C').
    exists y'. split; [exists (pos y); split; assumption|].
    split; [exact K'|]. intros G. rewrite (C' G). exact (C G).
Qed.

Lemma iterate_sound (k : mstate -> option mstate) :
  forall fuel x z, iterate (rmatch a) k fuel x = Some z ->
    exists j y, j <= fuel /\ times (reach a) j (pos x) (pos y) /\ k y = Some z
                /\ (groupless a = true -> caps y = caps x).
Proof.
  induction fuel as [|f IH]; intros x z H; cbn [iterate] in H.
  - exists 0, x. split; [lia|]. split; [reflexivity|]. split; [exact H | reflexivity].
  - unfold first_of in H.
    destruct (rmatch a x (fun y => if progressed x y then iterate (rmatch a) k f y else None))
      as [z'|] eqn:Hs.
    + injection H as ->. destruct (sound_a _ _ _ Hs) as (y & R & K & C).
      destruct (progressed x y); [|discriminate].
      destruct (IH _ _ K) as (j & y' & Lj & T & K' & C').
      exists (S j), y'. split; [lia|]. split; [exists (pos y); split; assumption|].
      split; [exact K'|]. intros G. rewrite (C' G). exact (C G).
    + exists 0, x. split; [lia|]. split; [reflexivity|]. split; [exact H | reflexivity].
Qed.

Lemma mandatory_complete (k : mstate -> option mstate) :
  forall n x q, times (reach a) n (pos x) q -> (forall y, pos y = q -> k y <> None) ->
    mandatory (rmatch a) k n x <> None.
Proof.
  induction n as [|n IH]; intros x q T K; cbn [mandatory times] in *.
  - apply K. exact T.
  - destruct T as (m & R & T). apply (complete_a x m); [exact R|].
    intros y Py. apply (IH y q); [rewrite Py; exact T | exact K].
Qed.

Lemma iterate_complete (k : mstate -> option mstate) :
  forall fuel n x q,
    times (fun p m => reach a p m /\ String.length (snd m) < String.length (snd p))
          n (pos x) q ->
    n <= fuel -> (forall y, pos y = q -> k y <> None) ->
    iterate (rmatch a) k fuel x <> None.
Proof.
  induction fuel as [|f IH]; intros n x q T L K.
  - assert (n = 0) by lia. subst n. cbn [times iterate] in *. apply K. exact T.
  - cbn [iterate]. destruct n as [|n]; cbn [times] in T.
    + assert (Kx : k x <> None) by (apply K; exact T).
      unfold first_of. destruct (rmatch a x _); [discriminate | exact Kx].
    + destruct T as (m & [R Lm] & T).
      assert (Hs : rmatch a x (fun y => if progressed x y then iterate (rmatch a) k f y else None)
                  <> None).
      { apply (complete_a x m); [exact R|]. intros y Py.
        assert (P : progressed x y = true).
        { unfold progressed. apply Nat.ltb_lt.
          unfold pos in Py, Lm. rewrite <- Py in Lm. cbn [snd] in Lm. exact Lm. }
        rewrite P. apply (IH n y q); [rewrite Py; exact T | lia | exact K]. }
      unfold first_of. destruct (rmatch a x _); [discriminate | destruct (Hs eq_refl)].
Qed.

End Loops.

(** The matcher finds what the pattern means, and nothing else:
    whenever it succeeds, the continuation was given a position that
    the pattern leads to; and it succeeds whenever the pattern leads to
    a position at which the continuation does. *)
Lemma rmatch_meaning (r : regex) :
  (forall x k z, rmatch r x k = Some z ->
     exists y, reach r (pos x) (pos y) /\ k y = Some z
               /\ (groupless r = true -> caps y = caps x))
  /\ (forall x q k, reach r (pos x) q -> (forall y, pos y = q -> k y <> None) ->
        rmatch r x k <> None).
Proof.
  induction r as [|c|a [Sa Ca] b [Sb Cb]|a [Sa Ca] b [Sb Cb]|mn mx a [Sa Ca]
                  |n a [Sa Ca]|a [Sa Ca]|]; split.
  - (* Eps *)
    intros x k z H. exists x. split; [reflexivity|]. split; [exact H | reflexivity].
  - intros x q k R K. cbn [rmatch reach] in *. apply K. exact R.
  - (* Cls *)
    intros x k z H. cbn [rmatch] in H.
    destruct (rest x) as [|ch t] eqn:E; [discriminate|].
    destruct (c ch) eqn:Cc; [|discriminate].
    exists (advance ch t x). split.
    + cbn [reach]. exists ch, t. unfold pos. cbn [fst snd advance before rest].
      split; [exact E|]. split; [exact Cc | reflexivity].
    + split; [exact H | reflexivity].
  - intros x q k R K. cbn [rmatch reach] in *.
    destruct R as (ch & t & E & Cc & ->). unfold pos in E. cbn [snd fst] in *.
    rewrite E, Cc. apply K. reflexivity.
  - (* Seq *)
    intros x k z H. cbn [rmatch] in H.
    destruct (Sa _ _ _ H) as (y & Ra & K & Ga).
    destruct (Sb _ _ _ K) as (y' & Rb & K' & Gb).
    exists y'. split; [exists (pos y); split; assumption|].
    split; [exact K'|]. cbn [groupless]. intros G. apply andb_prop in G.
    destruct G as [G1 G2]. rewrite (Gb G2). exact (Ga G1).
  - intros x q k R K. cbn [rmatch reach] in *. destruct R as (m & Ra & Rb).
    apply (Ca x m); [exact Ra|]. intros y Py. apply (Cb y q); [rewrite Py; exact Rb | exact K].
  - (* Alt *)
    intros x k z H. cbn [rmatch] in H. unfold first_of in H.
    destruct (rmatch a x k) as [z'|] eqn:E.
    + injection H as ->. destruct (Sa _ _ _ E) as (y & R & K & G).
      exists y. split; [left; exact R|]. split; [exact K|].
      cbn [groupless]. intros G'. apply andb_prop in G'. apply G, G'.
    + destruct (Sb _ _ _ H) as (y & R & K & G).
      exists y. split; [right; exact R|]. split; [exact K|].
      cbn [groupless]. intros G'. apply andb_prop in G'. apply G, G'.
  - intros x q k R K. cbn [rmatch reach] in *. unfold first_of.
    destruct R as [R|R].
    + pose proof (Ca x q k R K) as N. destruct (rmatch a x k); [discriminate | exact (fun _ => N eq_refl)].
    + destruct (rmatch a x k); [discriminate | exact (Cb x q k R K)].
  - (* Rep *)
    intros x k z H. cbn [rmatch] in H.
    destruct (mandatory_sound a Sa _ _ _ _ H) as (y & T & K & G).
    destruct (iterate_sound a Sa _ _ _ _ K) as (j & y' & Lj & T' & K' & G').
    exists y'. split.
    + cbn [reach]. exists (mn + j). split; [|exact (times_join _ _ _ _ _ _ T T')].
      unfold allowed. split; [lia|]. unfold budget in Lj. destruct mx as [m|]; [lia | exact I].
    + split; [exact K'|]. cbn [groupless]. intros Gl. rewrite (G' Gl). exact (G Gl).
  - intros x q k R K. cbn [rmatch reach] in *.
    destruct R as (n & [Ln Lx] & T).
    replace n with (mn + (n - mn)) in T by lia.
    destruct (times_split _ _ _ _ _ T) as (m & T1 & T2).
    apply (mandatory_complete a Ca _ mn x m T1). intros y Py.
    rewrite <- Py in T2.
    destruct (times_strict _ (reach_moves a) _ _ _ T2) as (n' & Ln' & T3).
    apply (iterate_complete a Ca k _ n' y q T3); [|exact K].
    unfold budget. destruct mx as [mm|]; [lia|].
    pose proof (times_strict_count _ _ _ _ T3) as Cn. unfold pos in Cn. cbn [snd] in Cn. lia.
  - (* Grp *)
    intros x k z H. cbn [rmatch] in H.
    destruct (Sa _ _ _ H) as (y & R & K & _).
    exists (capture n x y). split; [exact R|]. split; [exact K|].
    cbn [groupless]. discriminate.
  - intros x q k R K. cbn [rmatch reach] in *.
    apply (Ca x q); [exact R|]. intros y Py. apply K. rewrite pos_capture. exact Py.
  - (* NotAhead *)
    intros x k z H. cbn [rmatch] in H.
    destruct (rmatch a x Some) as [y0|] eqn:E; [discriminate|].
    exists x. split; [|split; [exact H | reflexivity]].
    cbn [reach]. split; [reflexivity|]. intros (q' & R).
    apply (Ca x q' Some R); [discriminate | exact E].
  - intros x q k R K. cbn [rmatch reach] in *. destruct R as [<- N].
    destruct (rmatch a x Some) as [y0|] eqn:E.
    + exfalso. apply N. destruct (Sa _ _ _ E) as (y & R & _). exists (pos y). exact R.
    + apply K. reflexivity.
  - (* WordB *)
    intros x k z H. cbn [rmatch] in H.
    destruct (at_word_boundary x) eqn:B; [|discriminate].
    exists x. split; [split; [reflexivity | exact B]|]. split; [exact H | reflexivity].
  - intros x q k R K. cbn [rmatch reach] in *. destruct R as [<- B].
    replace (at_word_boundary x) with true by (symmetry; exact B).
    apply K. reflexivity.
Qed.

End LangFacts.

(* ------------------------------------------------------------------ *)
(** * Matches at a place, leftmost matches, greedy runs *)

Module SearchFacts.
Import Regex Lang StrFacts ShapeFacts LangFacts.

(** ** A match at a position *)

Lemma match_at_reach (r : regex) (b s : string) (m : found) :
  match_at r b s = Some m ->
  exists y, reach r (b, s) (pos y)
            /\ m = MkFound b (consumed (MkSt b s []) y) (caps y) (rest y)
            /\ s = f_text m ++ f_rest m.
Proof.
  unfold match_at. intros H.
  destruct (rmatch r (MkSt b s []) Some) as [z|] eqn:E; [|discriminate].
  injection H as <-.
  destruct (proj1 (rmatch_meaning r) _ _ _ E) as (y & R & K & _).
  injection K as ->. exists z. split; [exact R|]. split; [reflexivity|].
  cbn [f_text f_rest].
  destruct (reach_moves r _ _ R) as (w & Ew & _). cbn [snd pos] in Ew.
  rewrite (consumed_append (MkSt b s []) z w Ew). exact Ew.
Qed.

Lemma match_at_none (r : regex) (b s : string) :
  match_at r b s = None -> forall q, ~ reach r (b, s) q.
Proof.
  unfold match_at. intros H q R.
  destruct (rmatch r (MkSt b s []) Some) as [z|] eqn:E; [discriminate|].
  apply (proj2 (rmatch_meaning r) (MkSt b s []) q Some R); [discriminate | exact E].
Qed.

Lemma match_at_some (r : regex) (b s : string) (q : position) :
  reach r (b, s) q -> exists m, match_at r b s = Some m.
Proof.
  intros R. destruct (match_at r b s) as [m|] eqn:E; [exists m; reflexivity|].
  destruct (match_at_none r b s E q R).
Qed.

(** ** The leftmost match *)



(** ** Words of one class *)





(** ** Literal words *)








(** ** The last quantifier of a pattern is greedy *)






End SearchFacts.

(* ------------------------------------------------------------------ *)
(** * The color patterns, read as texts *)

Module PatternFacts.
Import Regex Lang Css StrFacts ShapeFacts LangFacts SearchFacts Color ThemeExtractor.

(** ** One step of a match *)
















(** ** Searching for the first place *)


(** ** Hex literals *)



(** ** Calls of rgb and hsl *)











End PatternFacts.

(* ------------------------------------------------------------------ *)
(** * The background pattern, read as a text *)

Module BackgroundRule.
Import Regex Lang Css StrFacts ShapeFacts LangFacts SearchFacts PatternFacts Color ThemeExtractor.

(** ** The longest run a quantifier in the middle can keep *)




(** ** Words *)







(** ** The declaration *)



(** ** The rule *)



End BackgroundRule.

(* ------------------------------------------------------------------ *)
(** * What the searches of the background extraction find *)

Module ConversionFacts.
Import Regex Lang Css StrFacts ShapeFacts LangFacts SearchFacts PatternFacts BackgroundRule.
Import Color ThemeExtractor.





(** ** The named table *)




End ConversionFacts.

(* ------------------------------------------------------------------ *)
(** * The background color *)

Module BackgroundClaim.
Import Regex Css JSNum Color ThemeExtractor ConversionFacts.

(** The places the search accepts are not the bodies of [body] rules
    only: the letters [body] may end another selector, and the value
    runs on past the [}] of the rule when no [;] closes it. *)
Lemma background_beyond_the_rule :
  extractBackgroundColor "tbody{background:red;}" = JStr "#ff0000"
  /\ extractBackgroundColor "body{background:none}a{color:#123456;}" = JStr "#123456"
  /\ extractBackgroundColor "body{color:red;background:blue;background:green;}"
     = JStr "#008000"
  /\ extractBackgroundColor "p{background:red;}" = JNull.
Proof.
  split; [vm_compute; reflexivity|]. split; [vm_compute; reflexivity|].
  split; vm_compute; reflexivity.
Qed.



End BackgroundClaim.

(* ------------------------------------------------------------------ *)
(** * The scanners and the replacements *)

Module ScanFacts.
Import Regex Shape StrFacts ShapeFacts RegexFacts ThemeExtractor.

Lemma rev_onto_last (q : ascii -> bool) (w acc : string) :
  w <> EmptyString -> Str.all q w = true ->
  exists c t, Str.rev_onto w acc = String c t /\ q c = true.
Proof.
  revert acc. induction w as [|c w IH]; intros acc N A; [congruence|].
  cbn [Str.all] in A. apply andb_prop in A. destruct A as [A1 A2].
  cbn [Str.rev_onto]. destruct w as [|d w'].
  - cbn [Str.rev_onto]. exists c, acc. split; [reflexivity | exact A1].
  - apply IH; [discriminate | exact A2].
Qed.

Lemma hex_is_word (c : ascii) : Str.is_hex c = true -> Str.is_word c = true.
Proof.
  intros H.
  assert (E : forallb (fun c => implb (Str.is_hex c) (Str.is_word c)) Str.all_ascii = true)
    by (vm_compute; reflexivity).
  pose proof (HexFacts.forall_ascii _ E c) as I. cbv beta in I. rewrite H in I. exact I.
Qed.

(** What [hexPattern] matches at a position: [#], then three to eight
    hexadecimal digits, which are group 1, then no word character. *)
Lemma hex_match_shape (before s : string) (m : found) :
  match_at hexPattern before s = Some m ->
  exists digits,
    f_text m = String "#" digits
    /\ s = String "#" digits ++ f_rest m
    /\ group 1 (f_caps m) = digits
    /\ Str.all Str.is_hex digits = true
    /\ 3 <= String.length digits <= 8
    /\ head_is_word (f_rest m) = false.
Proof.
  unfold match_at. intros H.
  destruct (rmatch hexPattern (MkSt before s []) Some) as [z|] eqn:E; [|discriminate].
  injection H as <-. cbn [f_text f_rest f_caps].
  unfold hexPattern in E. cbn [cat rmatch rest] in E.
  destruct s as [|c t]; [discriminate|].
  unfold chr in E. cbn [rmatch rest] in E.
  destruct (Ascii.eqb_spec "#"%char c) as [<-|]; [|discriminate].
  destruct (rmatch_consumes Str.is_hex (Rep 3 (Some 8) hexdigit) _ _ _ E)
    as (y & w & K & R & B & A & L & M).
  cbn [rmatch] in K.
  destruct (at_word_boundary (capture 1 (advance "#" t (MkSt before (String "#" t) [])) y))
    eqn:W; [|discriminate].
  injection K as <-.
  cbn [advance rest Regex.before caps] in R, B.
  specialize (A ltac:(vm_compute; reflexivity)).
  change (minlen (Rep 3 (Some 8) hexdigit)) with 3 in L.
  specialize (M 8 ltac:(vm_compute; reflexivity)).
  exists w. cbn [capture rest caps].
  assert (C1 : consumed (advance "#" t (MkSt before (String "#" t) [])) y = w).
  { apply consumed_append. exact R. }
  assert (C0 : consumed (MkSt before (String "#" t) []) (capture 1 (advance "#" t (MkSt before (String "#" t) [])) y)
               = String "#" w).
  { apply consumed_append. cbn [rest capture]. rewrite R. reflexivity. }
  split; [exact C0|]. split; [rewrite R; reflexivity|].
  split; [cbn [group Nat.eqb]; exact C1|].
  split; [exact A|]. split; [lia|].
  unfold at_word_boundary in W. cbn [capture Regex.before rest] in W.
  assert (N : w <> EmptyString) by (destruct w; [cbn in L; lia | discriminate]).
  destruct (rev_onto_last Str.is_hex w (String "#" before) N A) as (c & t' & Ec & Hc).
  rewrite B, Ec in W. cbn [head_is_word] in W. rewrite (hex_is_word c Hc) in W.
  destruct (head_is_word (rest y)); [discriminate | reflexivity].
Qed.

Lemma cat_last (l : list regex) (g : regex) :
  forall x z, rmatch (cat (l ++ [g])) x Some = Some z ->
  exists y, rmatch g y Some = Some z.
Proof.
  induction l as [|a l IH]; intros x z H.
  - exists x. exact H.
  - cbn [app] in H. destruct (l ++ [g])%list as [|b more] eqn:E.
    + destruct l; discriminate.
    + cbn [cat] in H. cbn [rmatch] in H.
      destruct (rmatch_consumes (fun _ => true) a _ _ _ H) as (y & _ & K & _).
      apply (IH y z K).
Qed.

(** The group that ends a pattern holds characters of its class only. *)
Lemma last_group_class (q : ascii -> bool) (l : list regex) (n : nat) (body : regex)
  (before s : string) (m : found) :
  within q body = true ->
  match_at (cat (l ++ [Grp n body])) before s = Some m ->
  Str.all q (group n (f_caps m)) = true.
Proof.
  intros W. unfold match_at. intros H.
  destruct (rmatch (cat (l ++ [Grp n body])) (MkSt before s []) Some) as [z|] eqn:E;
    [|discriminate].
  injection H as <-. cbn [f_caps].
  destruct (cat_last l (Grp n body) _ _ E) as (y & G). cbn [rmatch] in G.
  destruct (rmatch_consumes q body _ _ _ G) as (y' & w & K & R & _ & A & _).
  injection K as <-. cbn [capture caps group]. rewrite Nat.eqb_refl.
  rewrite (consumed_append y y' w R). apply A, W.
Qed.

(** Replacing the characters of a class by nothing leaves none of
    them, and nothing that was not there. *)
Lemma replace_class (p q : ascii -> bool) :
  forall s before,
    Str.all q s = true ->
    Str.all (fun c => q c && negb (p c)) (replace_from (Cls p) EmptyString before s 0) = true.
Proof.
  induction s as [|c t IH]; intros before A.
  - cbn [replace_from]. destruct (match_at (Cls p) before EmptyString); reflexivity.
  - cbn [Str.all] in A. apply andb_prop in A. destruct A as [A1 A2].
    cbn [replace_from]. unfold match_at. cbn [rmatch rest].
    destruct (p c) eqn:P.
    + cbn [f_text].
      rewrite (consumed_append _ _ (String c EmptyString)) by reflexivity.
      cbn [String.length append]. apply IH, A2.
    + cbn [Str.all]. rewrite A1, P. cbn [negb andb]. apply IH, A2.
Qed.

Lemma font_family_clean (rule : string) (before s : string) (m : found) :
  match_at (fontPattern rule) before s = Some m ->
  Str.all (fun c => negb (mem c ";") && negb (mem c quote_chars))
          (replace_all (one_of quote_chars) EmptyString
                       (Str.trim (group 1 (f_caps m)))) = true.
Proof.
  intros H. unfold replace_all, one_of.
  apply (replace_class (fun c => mem c quote_chars) (fun c => negb (mem c ";"))).
  apply all_trim.
  apply (last_group_class (fun c => negb (mem c ";"))
           [lit_i rule; star space; chr "{"; star (none_of "}"); lit_i "font-family";
            star space; chr ":"; star space] 1 (plus (none_of ";")) before s m);
    [vm_compute; reflexivity | exact H].
Qed.

(** ** Texts a pattern cannot match in *)

Lemma scan_needs (q : ascii -> bool) (r : regex) :
  needs q r = true ->
  forall s before skip, lacks q s = true -> scan r before s skip = [].
Proof.
  intros N. induction s as [|c t IH]; intros before skip L; cbn [scan]; [reflexivity|].
  destruct (lacks_tail q c t L) as [_ Lt].
  destruct skip as [|n]; [|apply IH, Lt].
  unfold match_at. rewrite (rmatch_needs q r N) by exact L. apply IH, Lt.
Qed.

Lemma replace_needs (q : ascii -> bool) (r : regex) (by_ : string) :
  needs q r = true ->
  forall s before, lacks q s = true -> replace_from r by_ before s 0 = s.
Proof.
  intros N. induction s as [|c t IH]; intros before L; cbn [replace_from];
    unfold match_at; rewrite (rmatch_needs q r N) by exact L; [reflexivity|].
  destruct (lacks_tail q c t L) as [_ Lt]. rewrite (IH _ Lt). reflexivity.
Qed.

(** A replacement no longer than the shortest match never lengthens
    the text. *)
Lemma replace_length (r : regex) (by_ : string) :
  String.length by_ <= minlen r ->
  forall s before skip,
    skip <= String.length s ->
    String.length (replace_from r by_ before s skip) + skip <= String.length s.
Proof.
  intros B. induction s as [|c t IH]; intros before skip Hs; cbn [replace_from].
  - cbn [String.length] in Hs. destruct skip; [|lia].
    destruct (match_at r before EmptyString) as [m|] eqn:E; [|cbn; lia].
    destruct (match_at_text (fun _ => true) r _ _ _ E) as (T & _ & L & _).
    assert (String.length (f_text m ++ f_rest m) = 0) by (rewrite <- T; reflexivity).
    rewrite length_append in H. cbn [String.length]. lia.
  - cbn [String.length] in Hs. destruct skip as [|n].
    + destruct (match_at r before (String c t)) as [m|] eqn:E.
      * destruct (match_at_text (fun _ => true) r _ _ _ E) as (T & _ & L & _).
        assert (Ls : String.length (f_text m) <= S (String.length t)).
        { pose proof (f_equal String.length T) as T'.
          rewrite length_append in T'. cbn [String.length] in T'. lia. }
        destruct (String.length (f_text m)) as [|n] eqn:F.
        -- assert (String.length by_ = 0) by lia.
           rewrite length_append. cbn [String.length].
           specialize (IH (String c before) 0 ltac:(lia)). lia.
        -- rewrite length_append. cbn [String.length].
           specialize (IH (String c before) n ltac:(lia)). lia.
      * cbn [String.length]. specialize (IH (String c before) 0 ltac:(lia)). lia.
    + cbn [String.length]. specialize (IH (String c before) n ltac:(lia)). lia.
Qed.

Lemma replace_all_length (r : regex) (by_ s : string) :
  String.length by_ <= minlen r ->
  String.length (replace_all r by_ s) <= String.length s.
Proof.
  intros B. unfold replace_all.
  pose proof (replace_length r by_ B s EmptyString 0 ltac:(lia)). lia.
Qed.

Lemma first_font_clean (css family : string) :
  forall rules, first_font rules css = Some family ->
    lacks (fun c => mem c (";" ++ quote_chars)) family = true.
Proof.
  induction rules as [|rule more IH]; cbn [first_font]; [discriminate|].
  destruct (search (fontPattern rule) css) as [m|] eqn:S; [|exact IH].
  intros E. injection E as <-.
  destruct (search_from_at _ _ _ _ S) as (b & s' & M & _).
  pose proof (font_family_clean rule b s' m M) as C.
  unfold lacks. revert C. apply all_weaken. intros c Hc.
  apply andb_prop in Hc. destruct Hc as [H1 H2].
  cbn [mem append] in *. rewrite orb_false_r in H1.
  apply negb_true_iff in H1. apply negb_true_iff in H2.
  rewrite H1. cbn [orb]. rewrite H2. reflexivity.
Qed.

End ScanFacts.

(* ------------------------------------------------------------------ *)
(** * Normalizing, printing and reading colors *)

Module ColorFacts.
Import Color JSNum Hex HexFacts StrFacts.

Lemma lower_twice (c : ascii) : Str.lower (Str.lower c) = Str.lower c.
Proof.
  assert (H : forallb (fun c => Ascii.eqb (Str.lower (Str.lower c)) (Str.lower c))
                      Str.all_ascii = true) by (vm_compute; reflexivity).
  apply Ascii.eqb_eq. exact (forall_ascii _ H c).
Qed.

Lemma toLowerCase_twice (s : string) :
  Str.toLowerCase (Str.toLowerCase s) = Str.toLowerCase s.
Proof.
  unfold Str.toLowerCase. induction s as [|c s IH]; cbn [Str.map]; [reflexivity|].
  rewrite lower_twice, IH. reflexivity.
Qed.

Lemma length_firstn_exact (n : nat) (s : string) :
  n <= String.length s -> String.length (Str.firstn n s) = n.
Proof.
  revert s. induction n as [|n IH]; intros [|c s] H; cbn [Str.firstn String.length] in *;
    try reflexivity; try lia.
  rewrite IH by lia. reflexivity.
Qed.

(** What [normalizeHex] returns: [#] and a lower-case text whose length
    is neither 3 nor 8. *)
Lemma normalizeHex_form (s : string) :
  exists body,
    normalizeHex s = String hash (Str.toLowerCase body)
    /\ String.length body <> 3 /\ String.length body <> 8.
Proof.
  unfold normalizeHex. set (t := Str.remove_first hash s). clearbody t.
  destruct t as [|a [|b [|c [|d t']]]]; cbn [String.length Nat.eqb].
  - exists EmptyString. cbn. repeat split; lia.
  - exists (String a EmptyString). cbn [String.length]. repeat split; lia.
  - exists (String a (String b EmptyString)). cbn [String.length]. repeat split; lia.
  - exists (String a (String a (String b (String b (String c (String c EmptyString)))))).
    cbn [String.length]. repeat split; lia.
  - destruct (Nat.eqb_spec (String.length t') 4) as [E|E].
    + replace (Nat.eqb (S (S (S (S (String.length t'))))) 8) with true
        by (symmetry; apply Nat.eqb_eq; lia).
      exists (Str.firstn 6 (String a (String b (String c (String d t'))))).
      split; [reflexivity|].
      rewrite length_firstn_exact by (cbn [String.length]; lia). split; lia.
    + replace (Nat.eqb (S (S (S (S (String.length t'))))) 8) with false
        by (symmetry; apply Nat.eqb_neq; lia).
      exists (String a (String b (String c (String d t')))).
      split; [reflexivity|]. cbn [String.length]. split; lia.
Qed.

Lemma normalizeHex_other (t : string) :
  String.length t <> 3 -> String.length t <> 8 ->
  normalizeHex (String hash t) = String hash (Str.toLowerCase t).
Proof.
  intros N3 N8. unfold normalizeHex.
  assert (R : Str.remove_first hash (String hash t) = t) by reflexivity.
  rewrite R. clear R.
  assert (M : match t with
              | String h0 (String h1 (String h2 EmptyString)) =>
                  String h0 (String h0 (String h1 (String h1 (String h2 (String h2 EmptyString)))))
              | _ => t
              end = t).
  { destruct t as [|a [|b [|c [|d t']]]]; try reflexivity.
    cbn [String.length] in N3. lia. }
  rewrite M.
  replace (Nat.eqb (String.length t) 8) with false
    by (symmetry; apply Nat.eqb_neq; lia).
  reflexivity.
Qed.

Lemma normalizeHex_stable (body : string) :
  String.length body <> 3 -> String.length body <> 8 ->
  normalizeHex (String hash (Str.toLowerCase body)) = String hash (Str.toLowerCase body).
Proof.
  intros N3 N8.
  assert (L : String.length (Str.toLowerCase body) = String.length body)
    by apply length_map.
  rewrite normalizeHex_other by lia.
  rewrite toLowerCase_twice. reflexivity.
Qed.

(** ** Printing and reading a channel *)

Lemma print_byte (z : Z) :
  (0 <= z <= 255)%Z -> hex2 (of_Z z) = two_digits z.
Proof.
  intros Hz.
  assert (H : forallb (fun z => String.eqb (hex2 (of_Z z)) (two_digits z)) bytes = true)
    by (vm_compute; reflexivity).
  apply String.eqb_eq. exact (forall_byte _ H z Hz).
Qed.

Lemma two_digits_pair (a b : ascii) :
  Str.is_hex a = true -> Str.is_hex b = true ->
  two_digits (pair_val a b) = String (Str.lower a) (String (Str.lower b) EmptyString).
Proof.
  intros Ha Hb.
  assert (H : forallb (fun a => forallb (fun b =>
              String.eqb (two_digits (pair_val a b))
                         (String (Str.lower a) (String (Str.lower b) EmptyString)))
              (filter Str.is_hex Str.all_ascii)) (filter Str.is_hex Str.all_ascii) = true)
    by (vm_compute; reflexivity).
  rewrite forallb_forall in H.
  specialize (H a (proj2 (filter_In _ _ _) (conj (in_all_ascii a) Ha))).
  rewrite forallb_forall in H.
  specialize (H b (proj2 (filter_In _ _ _) (conj (in_all_ascii b) Hb))).
  apply String.eqb_eq. exact H.
Qed.

Lemma read_two_digits (z : Z) :
  (0 <= z <= 255)%Z ->
  exists a b, two_digits z = String a (String b EmptyString)
              /\ is_lower_hex a = true /\ is_lower_hex b = true
              /\ Str.is_hex a = true /\ Str.is_hex b = true /\ pair_val a b = z.
Proof.
  intros Hz.
  assert (H : forallb (fun z =>
              match two_digits z with
              | String a (String b EmptyString) =>
                  is_lower_hex a && is_lower_hex b && Str.is_hex a && Str.is_hex b
                  && (pair_val a b =? z)%Z
              | _ => false
              end) bytes = true) by (vm_compute; reflexivity).
  pose proof (forall_byte _ H z Hz) as E. cbv beta in E. clear H.
  revert E. generalize (two_digits z). intros t E.
  destruct t as [|a [|b [|c t]]]; try discriminate.
  exists a, b.
  repeat (apply andb_prop in E; destruct E as [E ?]).
  repeat split; try assumption. lia.
Qed.

(** Encoding three bytes gives a normalized color that decodes to
    them. *)
Lemma rgbToHex_bytes (r g b : Z) :
  (0 <= r <= 255)%Z -> (0 <= g <= 255)%Z -> (0 <= b <= 255)%Z ->
  rgbToHex (of_Z r) (of_Z g) (of_Z b) = of_channels (r, g, b)
  /\ is_normalized (of_channels (r, g, b)) = true
  /\ channels (of_channels (r, g, b)) = (r, g, b).
Proof.
  intros Hr Hg Hb. split.
  { unfold rgbToHex, of_channels. rewrite !print_byte by assumption. reflexivity. }
  destruct (read_two_digits r Hr) as (a1 & a2 & E1 & L1 & L2 & X1 & X2 & P1).
  destruct (read_two_digits g Hg) as (a3 & a4 & E2 & L3 & L4 & X3 & X4 & P2).
  destruct (read_two_digits b Hb) as (a5 & a6 & E3 & L5 & L6 & X5 & X6 & P3).
  unfold of_channels. rewrite E1, E2, E3. cbn [append].
  split.
  - unfold is_normalized. cbn [is_hex6 Str.skipn Str.all].
    rewrite X1, X2, X3, X4, X5, X6, L1, L2, L3, L4, L5, L6. reflexivity.
  - cbn [channels]. rewrite P1, P2, P3. reflexivity.
Qed.

(** Decoding a color and encoding it again gives it back in lower
    case. *)
Lemma of_channels_inverse (hex : string) :
  is_hex6 hex = true -> of_channels (channels hex) = Str.toLowerCase hex.
Proof.
  intros H.
  destruct (hex6_inv hex H) as (a1 & a2 & a3 & a4 & a5 & a6 & -> & H1 & H2 & H3 & H4 & H5 & H6).
  cbn [channels]. unfold of_channels.
  rewrite !two_digits_pair by assumption. reflexivity.
Qed.

Lemma rgbToHex_inverse (hex : string) :
  is_hex6 hex = true ->
  rgbToHex (channel 1 3 hex) (channel 3 5 hex) (channel 5 7 hex) = Str.toLowerCase hex.
Proof.
  intros H. pose proof (channels_parse hex H) as P.
  pose proof (of_channels_inverse hex H) as I.
  destruct (channels hex) as [[r g] b].
  destruct P as (-> & -> & -> & Hr & Hg & Hb).
  destruct (rgbToHex_bytes r g b Hr Hg Hb) as (-> & _). exact I.
Qed.

Lemma lighten_zero (z : Z) :
  (0 <= z <= 255)%Z -> hex2 (lighten (of_Z z) 0%float) = two_digits z.
Proof.
  intros Hz.
  assert (H : forallb (fun z => String.eqb (hex2 (lighten (of_Z z) 0%float)) (two_digits z))
                      bytes = true) by (vm_compute; reflexivity).
  apply String.eqb_eq. exact (forall_byte _ H z Hz).
Qed.

Lemma adjustLightness_zero (hex : string) :
  is_hex6 hex = true -> adjustLightness hex 0%float = Str.toLowerCase hex.
Proof.
  intros H. pose proof (PaletteFacts.adjustLightness_channels hex 0%float H) as A.
  pose proof (channels_parse hex H) as P.
  pose proof (of_channels_inverse hex H) as I.
  destruct (channels hex) as [[r g] b].
  destruct P as (_ & _ & _ & Hr & Hg & Hb).
  rewrite A. unfold rgbToHex. rewrite !lighten_zero by assumption. exact I.
Qed.

(** ** The copy without a clamp *)

Lemma inline_print_byte (z : Z) :
  (0 <= z <= 255)%Z -> Str.padStart 2 (Inline.toString16 (of_Z z)) = two_digits z.
Proof.
  intros Hz.
  assert (H : forallb (fun z => String.eqb (Str.padStart 2 (Inline.toString16 (of_Z z)))
                                           (two_digits z)) bytes = true)
    by (vm_compute; reflexivity).
  apply String.eqb_eq. exact (forall_byte _ H z Hz).
Qed.

Lemma hex6_length (s : string) : is_hex6 s = true -> String.length s = 7.
Proof.
  intros H. destruct (hex6_inv s H) as (a1 & a2 & a3 & a4 & a5 & a6 & -> & _). reflexivity.
Qed.

(** Lower case takes no character into a class that is closed under
    it. *)
Lemma lacks_toLowerCase (q : ascii -> bool) (s : string) :
  (forall c, q c = true -> q (Str.lower c) = true) ->
  Regex.lacks q (Str.toLowerCase s) = true -> Regex.lacks q s = true.
Proof.
  intros Q. unfold Regex.lacks, Str.toLowerCase.
  induction s as [|c s IH]; cbn [Str.map Str.all]; [reflexivity|].
  intros H. apply andb_prop in H. destruct H as [H1 H2].
  rewrite (IH H2), andb_true_r.
  destruct (q c) eqn:E; [|reflexivity].
  rewrite (Q c E) in H1. discriminate.
Qed.

End ColorFacts.

(* ------------------------------------------------------------------ *)
(** * Selectors over a document *)

Module SelectorFacts.
Import Dom Shape ThemeExtractor.

(** [find_node] returns an element of the tree that one of the
    selectors matches under some chain of ancestors. *)
Lemma find_node_sound (q : bool) (sels : list selector) (n : node) :
  forall ancestors first e,
    find_node q sels ancestors first n = Some e ->
    In e (elements first n)
    /\ exists chain, existsb (fun s => matches q s chain e) sels = true.
Proof.
  induction n as [data | tag attrs kids IH | tag attrs kids IH] using node_induction;
    intros ancestors first e H; cbn [find_node is_html] in H; [discriminate | |];
    cbn [elements is_html].
  - set (me := MkInfo tag attrs first true) in *.
    destruct (existsb (fun s => matches q s ancestors me) sels) eqn:E.
    + injection H as <-. split; [left; reflexivity|]. exists ancestors. exact E.
    + clear E.
      match type of H with
      | ?F true kids = Some e =>
          match goal with
          | |- In e (_ :: ?G true kids) /\ _ =>
              assert (A : forall f, F f kids = Some e ->
                          In e (G f kids)
                          /\ exists chain, existsb (fun s => matches q s chain e) sels = true)
          end
      end.
      { clear H. induction IH as [|kid l Hkid _ IHl]; intros f Hf; [discriminate|].
        destruct (find_node q sels (me :: ancestors) f kid) as [r|] eqn:K.
        - injection Hf as <-. destruct (Hkid _ _ _ K) as [I M].
          split; [apply in_or_app; left; exact I | exact M].
        - destruct (IHl _ Hf) as [I M].
          split; [apply in_or_app; right; exact I | exact M]. }
      destruct (A true H) as [I M]. split; [right; exact I | exact M].
  - set (me := MkInfo tag attrs first false) in *.
    destruct (existsb (fun s => matches q s ancestors me) sels) eqn:E.
    + injection H as <-. split; [left; reflexivity|]. exists ancestors. exact E.
    + clear E.
      match type of H with
      | ?F true kids = Some e =>
          match goal with
          | |- In e (_ :: ?G true kids) /\ _ =>
              assert (A : forall f, F f kids = Some e ->
                          In e (G f kids)
                          /\ exists chain, existsb (fun s => matches q s chain e) sels = true)
          end
      end.
      { clear H. induction IH as [|kid l Hkid _ IHl]; intros f Hf; [discriminate|].
        destruct (find_node q sels (me :: ancestors) f kid) as [r|] eqn:K.
        - injection Hf as <-. destruct (Hkid _ _ _ K) as [I M].
          split; [apply in_or_app; left; exact I | exact M].
        - destruct (IHl _ Hf) as [I M].
          split; [apply in_or_app; right; exact I | exact M]. }
      destruct (A true H) as [I M]. split; [right; exact I | exact M].
Qed.

Lemma find_nodes_sound (q : bool) (sels : list selector) :
  forall l first e,
    find_nodes q sels first l = Some e ->
    In e (elements_of first l)
    /\ exists chain, existsb (fun s => matches q s chain e) sels = true.
Proof.
  induction l as [|n l IH]; intros first e H; cbn [find_nodes] in H; [discriminate|].
  cbn [elements_of].
  destruct (find_node q sels [] first n) as [r|] eqn:K.
  - injection H as <-. destruct (find_node_sound _ _ _ _ _ _ K) as [I M].
    split; [apply in_or_app; left; exact I | exact M].
  - destruct (IH _ _ H) as [I M]. split; [apply in_or_app; right; exact I | exact M].
Qed.

Lemma querySelector_sound (doc : document) (sels : list selector) (e : einfo) :
  querySelector doc sels = Some e ->
  In e (document_elements doc)
  /\ exists chain, existsb (fun s => matches (quirks doc) s chain e) sels = true.
Proof. apply find_nodes_sound. Qed.

Lemma first_attr_sound (doc : document) (name : string) (sels : list selector) (v : string) :
  first_attr doc name sels = Some v ->
  v <> EmptyString
  /\ exists s e, In s sels /\ querySelector doc [s] = Some e
                 /\ getAttribute (e_attrs e) name = Some v.
Proof.
  induction sels as [|s more IH]; cbn [first_attr]; [discriminate|].
  destruct (querySelector doc [s]) as [e|] eqn:Q.
  - destruct (getAttribute (e_attrs e) name) as [[|c t]|] eqn:A.
    + intros H. destruct (IH H) as (N & s' & e' & I & Q' & A').
      split; [exact N|]. exists s', e'. repeat split; try assumption. right. exact I.
    + intros H. injection H as <-. split; [discriminate|].
      exists s, e. repeat split; try assumption. left. reflexivity.
    + intros H. destruct (IH H) as (N & s' & e' & I & Q' & A').
      split; [exact N|]. exists s', e'. repeat split; try assumption. right. exact I.
  - intros H. destruct (IH H) as (N & s' & e' & I & Q' & A').
    split; [exact N|]. exists s', e'. repeat split; try assumption. right. exact I.
Qed.

Lemma subject_tag (q : bool) (s : selector) (chain : list einfo) (e : einfo) (t : string) :
  matches q s chain e = true ->
  match s with
  | Simple c | Descendant _ c | Child _ c => c_tag c = Some t
  end ->
  e_tag e = t.
Proof.
  intros M T.
  assert (C : forall c, c_tag c = Some t -> matches_compound q c e = true -> e_tag e = t).
  { intros c Ht Hc. unfold matches_compound in Hc. rewrite Ht in Hc.
    apply andb_prop in Hc. destruct Hc as [Hc _].
    apply andb_prop in Hc. destruct Hc as [Hc _].
    apply String.eqb_eq in Hc. symmetry. exact Hc. }
  destruct s as [c | a c | p c]; cbn [matches] in M.
  - apply (C c T M).
  - apply andb_prop in M. destruct M as [M _]. apply (C c T M).
  - apply andb_prop in M. destruct M as [M _]. apply (C c T M).
Qed.


(** [find_node] finds nothing in a tree none of whose elements a
    selector matches. *)
Lemma find_node_none (q : bool) (sels : list selector) (n : node) :
  forall ancestors first,
    (forall e, In e (elements first n) ->
               forall chain, existsb (fun s => matches q s chain e) sels = false) ->
    find_node q sels ancestors first n = None.
Proof.
  induction n as [data | tag attrs kids IH | tag attrs kids IH] using node_induction;
    intros ancestors first H; cbn [find_node is_html]; [reflexivity | |];
    cbn [elements is_html] in H.
  - set (me := MkInfo tag attrs first true) in *.
    rewrite (H me (or_introl eq_refl) ancestors).
    match goal with
    | |- ?F true kids = None =>
        match type of H with
        | forall e, In e (_ :: ?G true kids) -> _ =>
            assert (A : forall f,
                       (forall e, In e (G f kids) ->
                          forall chain, existsb (fun s => matches q s chain e) sels = false) ->
                       F f kids = None)
        end
    end.
    { clear H. induction IH as [|kid l Hkid _ IHl]; intros f Hf; [reflexivity|].
      rewrite Hkid by (intros e I; apply Hf, in_or_app; left; exact I).
      apply IHl. intros e I. apply Hf, in_or_app. right. exact I. }
    apply A. intros e I. apply H. right. exact I.
  - set (me := MkInfo tag attrs first false) in *.
    rewrite (H me (or_introl eq_refl) ancestors).
    match goal with
    | |- ?F true kids = None =>
        match type of H with
        | forall e, In e (_ :: ?G true kids) -> _ =>
            assert (A : forall f,
                       (forall e, In e (G f kids) ->
                          forall chain, existsb (fun s => matches q s chain e) sels = false) ->
                       F f kids = None)
        end
    end.
    { clear H. induction IH as [|kid l Hkid _ IHl]; intros f Hf; [reflexivity|].
      rewrite Hkid by (intros e I; apply Hf, in_or_app; left; exact I).
      apply IHl. intros e I. apply Hf, in_or_app. right. exact I. }
    apply A. intros e I. apply H. right. exact I.
Qed.

Lemma find_nodes_none (q : bool) (sels : list selector) :
  forall l first,
    (forall e, In e (elements_of first l) ->
               forall chain, existsb (fun s => matches q s chain e) sels = false) ->
    find_nodes q sels first l = None.
Proof.
  induction l as [|n l IH]; intros first H; cbn [find_nodes]; [reflexivity|].
  cbn [elements_of] in H.
  rewrite find_node_none by (intros e I; apply H, in_or_app; left; exact I).
  apply IH. intros e I. apply H, in_or_app. right. exact I.
Qed.

(** No element named [t], no match for selectors whose subject is
    named [t]. *)
Lemma querySelector_none (doc : document) (sels : list selector) (t : string) :
  Forall (fun s => match s with
                   | Simple c | Descendant _ c | Child _ c => c_tag c = Some t
                   end) sels ->
  (forall e, In e (document_elements doc) -> e_tag e <> t) ->
  querySelector doc sels = None.
Proof.
  intros T H. apply find_nodes_none. intros e I chain.
  destruct (existsb (fun s => matches (quirks doc) s chain e) sels) eqn:E; [|reflexivity].
  apply existsb_exists in E. destruct E as (s & Hs & M).
  rewrite Forall_forall in T. specialize (T s Hs).
  exfalso. apply (H e I). exact (subject_tag _ _ _ _ _ M T).
Qed.

Lemma first_attr_none (doc : document) (name : string) (sels : list selector) (t : string) :
  Forall (fun s => match s with
                   | Simple c | Descendant _ c | Child _ c => c_tag c = Some t
                   end) sels ->
  (forall e, In e (document_elements doc) -> e_tag e <> t) ->
  first_attr doc name sels = None.
Proof.
  intros T H. induction sels as [|s more IH]; cbn [first_attr]; [reflexivity|].
  inversion T as [|? ? Ts Tmore]; subst.
  rewrite (querySelector_none doc [s] t (Forall_cons s Ts (Forall_nil _)) H).
  apply IH, Tmore.
Qed.

Lemma single_match (q : bool) (s : Dom.selector) (chain : list Dom.einfo) (e : Dom.einfo) :
  existsb (fun s => Dom.matches q s chain e) [s] = true -> Dom.matches q s chain e = true.
Proof. cbn [existsb]. rewrite orb_false_r. exact (fun H => H). Qed.

Lemma link_rel_match (q : bool) (v : string) (chain : list Dom.einfo) (e : Dom.einfo) :
  Dom.matches q (link_rel v) chain e = true ->
  Dom.e_tag e = "link"
  /\ exists rel, Dom.getAttribute (Dom.e_attrs e) "rel" = Some rel
                 /\ (if Dom.e_html e then Dom.ascii_lower rel = Dom.ascii_lower v
                     else rel = v).
Proof.
  intros M. split; [exact (subject_tag _ _ _ _ "link" M eq_refl)|].
  unfold link_rel in M. cbn [Dom.matches] in M. unfold Dom.matches_compound in M.
  cbn [Dom.c_tests Dom.c_tag Dom.c_first_child forallb Dom.test_holds] in M.
  apply andb_prop in M. destruct M as [M _].
  apply andb_prop in M. destruct M as [_ M].
  destruct (Dom.getAttribute (Dom.e_attrs e) "rel") as [rel|]; [|discriminate].
  exists rel. split; [reflexivity|].
  apply andb_prop in M. destruct M as [M _].
  destruct (Dom.e_html e); cbn [andb] in M; apply String.eqb_eq, M.
Qed.

(** A [link] inside [svg] is of the SVG namespace: its [rel] has to
    be [icon] letter for letter, where an HTML [link] may write
    [ICON]. *)
Lemma link_in_svg_as_written :
  extractFaviconUrl
    (Examples.constant_parser
       (Examples.page
          [Dom.Foreign "svg" []
             [Dom.Foreign "link" [("rel", "ICON"); ("href", "/x.ico")] []]]))
    EmptyString = None
  /\ extractFaviconUrl
       (Examples.constant_parser
          (Examples.page [Dom.Element "link" [("rel", "ICON"); ("href", "/x.ico")] []]))
       EmptyString = Some "/x.ico"
  /\ extractFaviconUrl
       (Examples.constant_parser
          (Examples.page
             [Dom.Foreign "svg" []
                [Dom.Foreign "link" [("rel", "icon"); ("href", "/x.ico")] []]]))
       EmptyString = Some "/x.ico".
Proof. split; [|split]; vm_compute; reflexivity. Qed.

Lemma og_image_match (q : bool) (chain : list Dom.einfo) (e : Dom.einfo) :
  Dom.matches q og_image chain e = true ->
  Dom.e_tag e = "meta" /\ Dom.getAttribute (Dom.e_attrs e) "property" = Some "og:image".
Proof.
  intros M. split; [exact (subject_tag _ _ _ _ "meta" M eq_refl)|].
  unfold og_image in M. cbn [Dom.matches] in M. unfold Dom.matches_compound in M.
  cbn [Dom.c_tests Dom.c_tag Dom.c_first_child forallb Dom.test_holds] in M.
  apply andb_prop in M. destruct M as [M _].
  apply andb_prop in M. destruct M as [_ M].
  destruct (Dom.getAttribute (Dom.e_attrs e) "property") as [p|]; [|discriminate].
  apply andb_prop in M. destruct M as [M _]. apply String.eqb_eq in M. rewrite M. reflexivity.
Qed.

Lemma logo_selectors_img :
  Forall (fun s => match s with
                   | Dom.Simple c | Dom.Descendant _ c | Dom.Child _ c =>
                       Dom.c_tag c = Some "img"
                   end) logo_selectors.
Proof. repeat constructor. Qed.

Lemma logo_selector_list_img :
  Forall (fun s => match s with
                   | Dom.Simple c | Dom.Descendant _ c | Dom.Child _ c =>
                       Dom.c_tag c = Some "img"
                   end) BrandingSettings.logo_selector_list.
Proof. repeat constructor. Qed.

Lemma favicon_selectors_link :
  Forall (fun s => match s with
                   | Dom.Simple c | Dom.Descendant _ c | Dom.Child _ c =>
                       Dom.c_tag c = Some "link"
                   end) favicon_selectors.
Proof. repeat constructor. Qed.

End SelectorFacts.

(* ------------------------------------------------------------------ *)
(** * The characters of extracted values *)

Module SafetyFacts.
Import Regex Shape Color JSNum Hex ThemeExtractor Stylesheet.
Import HexFacts StrFacts ShapeFacts ScanFacts RegexFacts ColorFacts RankingFacts ThemeFacts.

(** ** What a printed channel is made of *)

Lemma string_of_uint_chars (d : Hexadecimal.uint) :
  Str.all is_lower_hex (NilEmpty.string_of_uint d) = true.
Proof.
  induction d; cbn [NilEmpty.string_of_uint Str.all]; try rewrite IHd; reflexivity.
Qed.

Lemma hex_of_N_chars (n : N) : Str.all is_lower_hex (hex_of_N n) = true.
Proof.
  unfold hex_of_N, NilZero.string_of_uint.
  destruct (N.to_hex_uint n) as [|u|u|u|u|u|u|u|u|u|u|u|u|u|u|u|u] eqn:E;
    first [reflexivity | apply string_of_uint_chars].
Qed.

Lemma lower_hex_color (c : ascii) : is_lower_hex c = true -> is_color_char c = true.
Proof.
  unfold is_lower_hex, is_color_char. intros H.
  apply orb_prop in H. destruct H as [H|H]; rewrite H;
    rewrite ?orb_true_r; reflexivity.
Qed.

Lemma all_padStart (q : ascii -> bool) (n : nat) (s : string) :
  q "0"%char = true -> Str.all q s = true -> Str.all q (Str.padStart n s) = true.
Proof.
  intros Z H. unfold Str.padStart.
  induction (n - String.length s) as [|k IH]; cbn [Str.padStart0 Str.all]; [exact H|].
  rewrite Z, IH. reflexivity.
Qed.

(** What [Math.min(255, Math.max(0, v))] can be. *)
Lemma clamp_cases (v : float) :
  min2 255 (max2 0 v) = NaN \/ min2 255 (max2 0 v) = 255%float
  \/ min2 255 (max2 0 v) = 0%float
  \/ (min2 255 (max2 0 v) = v /\ is_nan v = false
      /\ (0 <? v)%float = true /\ (255 <? v)%float = false).
Proof.
  unfold max2.
  replace (is_nan 0) with false by reflexivity. cbn [orb].
  destruct (is_nan v) eqn:Nv; [left; reflexivity|].
  destruct (0 <? v)%float eqn:Pv.
  - unfold min2. replace (is_nan 255) with false by reflexivity. rewrite Nv. cbn [orb].
    destruct (255 <? v)%float eqn:Bv; [right; left; reflexivity|].
    replace (is_neg_zero 255) with false by reflexivity.
    right. right. right.
    destruct (v <? 255)%float; repeat split; reflexivity.
  - replace (is_neg_zero 0) with false by reflexivity.
    right. right. left. destruct (v <? 0)%float; reflexivity.
Qed.

Lemma positive_trunc (w : float) : (0 <? w)%float = true -> (0 <= trunc w)%Z.
Proof.
  intros Hw. rewrite FloatAxioms.ltb_spec in Hw. unfold trunc.
  destruct (Prim2SF w) as [s|s| |s m e]; try lia.
  destruct s; [vm_compute in Hw; discriminate|].
  destruct (0 <=? e)%Z.
  - apply Z.mul_nonneg_nonneg; [lia | apply Z.pow_nonneg; lia].
  - apply Z_div_nonneg_nonneg; [lia | apply Z.pow_nonneg; lia].
Qed.

(** A clamped value is NaN or prints without a sign. *)
Lemma clamp_sign (v : float) :
  is_nan (min2 255 (max2 0 v)) = true \/ (0 <= trunc (min2 255 (max2 0 v)))%Z.
Proof.
  destruct (clamp_cases v) as [E | [E | [E | (E & _ & P & _)]]]; rewrite E.
  - left. reflexivity.
  - right. vm_compute. discriminate.
  - right. vm_compute. discriminate.
  - right. apply positive_trunc, P.
Qed.

(** Clamping twice is clamping once. *)
Lemma clamp_twice (v : float) :
  min2 255 (max2 0 (min2 255 (max2 0 v))) = min2 255 (max2 0 v).
Proof.
  destruct (clamp_cases v) as [E | [E | [E | (E & N & P & B)]]]; rewrite E;
    try reflexivity.
  unfold max2. replace (is_nan 0) with false by reflexivity. rewrite N, P. cbn [orb].
  unfold min2. replace (is_nan 255) with false by reflexivity. rewrite N, B. cbn [orb].
  replace (is_neg_zero 255) with false by reflexivity.
  destruct (v <? 255)%float; reflexivity.
Qed.

(** A clamped value is not infinite. *)
Lemma clamp_finite (v : float) : is_infinity (min2 255 (max2 0 v)) = false.
Proof.
  destruct (clamp_cases v) as [E | [E | [E | (E & N & P & B)]]]; rewrite E;
    try reflexivity.
  unfold is_infinity. rewrite FloatAxioms.eqb_spec, FloatAxioms.abs_spec.
  rewrite FloatAxioms.ltb_spec in P, B.
  destruct (Prim2SF v) as [s|s| |s m e]; try reflexivity.
  destruct s; [vm_compute in P; discriminate | vm_compute in B; discriminate].
Qed.

(** On a clamped value the two printers agree. *)
Lemma print_clamped (v : float) :
  Str.padStart 2 (Inline.toString16 (min2 255 (max2 0 v))) = hex2 (min2 255 (max2 0 v)).
Proof.
  unfold hex2, Inline.toString16. rewrite clamp_twice, clamp_finite. reflexivity.
Qed.

Lemma hex2_chars (v : float) : Str.all is_color_char (hex2 v) = true.
Proof.
  unfold hex2. apply all_padStart; [reflexivity|].
  unfold toString16.
  destruct (is_nan (min2 255 (max2 0 v))) eqn:N; [reflexivity|].
  destruct (clamp_sign v) as [H|H]; [rewrite H in N; discriminate|].
  replace (trunc (min2 255 (max2 0 v)) <? 0)%Z with false
    by (symmetry; apply Z.ltb_ge; exact H).
  apply (all_weaken is_lower_hex); [exact lower_hex_color | apply hex_of_N_chars].
Qed.

Lemma rgbToHex_chars (r g b : float) : Str.all is_color_char (rgbToHex r g b) = true.
Proof.
  unfold rgbToHex. cbn [Str.all]. rewrite !all_append, !hex2_chars. reflexivity.
Qed.

Lemma hslToHex_chars (h s l : float) : Str.all is_color_char (hslToHex h s l) = true.
Proof. unfold hslToHex. apply rgbToHex_chars. Qed.

Lemma adjustLightness_chars (hex : string) (amount : float) :
  Str.all is_color_char (adjustLightness hex amount) = true.
Proof. unfold adjustLightness. apply rgbToHex_chars. Qed.

(** ** What a normalized literal is made of *)


Lemma all_remove_first (q : ascii -> bool) (c : ascii) (s : string) :
  Str.all q s = true -> Str.all q (Str.remove_first c s) = true.
Proof.
  induction s as [|d t IH]; cbn [Str.remove_first Str.all]; [reflexivity|].
  intros H. apply andb_prop in H. destruct H as [H1 H2].
  destruct (Ascii.eqb c d); [exact H2|]. cbn [Str.all]. rewrite H1, IH by exact H2.
  reflexivity.
Qed.

Lemma all_firstn (q : ascii -> bool) (n : nat) (s : string) :
  Str.all q s = true -> Str.all q (Str.firstn n s) = true.
Proof.
  revert s. induction n as [|n IH]; intros [|c t]; cbn [Str.firstn Str.all];
    try reflexivity.
  intros H. apply andb_prop in H. destruct H as [H1 H2]. rewrite H1, IH by exact H2.
  reflexivity.
Qed.

Lemma all_map (p q : ascii -> bool) (f : ascii -> ascii) (s : string) :
  (forall c, p c = true -> q (f c) = true) ->
  Str.all p s = true -> Str.all q (Str.map f s) = true.
Proof.
  intros F. induction s as [|c t IH]; cbn [Str.map Str.all]; [reflexivity|].
  intros H. apply andb_prop in H. destruct H as [H1 H2]. rewrite (F c H1), IH by exact H2.
  reflexivity.
Qed.

Lemma lower_color (c : ascii) : hash_or_hex c = true -> is_color_char (Str.lower c) = true.
Proof.
  intros H.
  assert (A : forallb (fun c => implb (hash_or_hex c) (is_color_char (Str.lower c)))
                      Str.all_ascii = true) by (vm_compute; reflexivity).
  pose proof (forall_ascii _ A c) as B. cbv beta in B. rewrite H in B. exact B.
Qed.

Lemma normalizeHex_chars (s : string) :
  Str.all hash_or_hex s = true -> Str.all is_color_char (normalizeHex s) = true.
Proof.
  intros H. unfold normalizeHex. cbn [Str.all].
  replace (is_color_char hash) with true by reflexivity. cbn [andb].
  apply (all_map hash_or_hex); [exact lower_color|].
  pose proof (all_remove_first _ hash s H) as R.
  set (t := Str.remove_first hash s) in *. clearbody t.
  assert (T : Str.all hash_or_hex
                (match t with
                 | String h0 (String h1 (String h2 EmptyString)) =>
                     String h0 (String h0 (String h1 (String h1 (String h2 (String h2 EmptyString)))))
                 | _ => t
                 end) = true).
  { destruct t as [|a [|b [|c [|d t']]]]; try exact R.
    cbn [Str.all] in *.
    destruct (hash_or_hex a); [|discriminate].
    destruct (hash_or_hex b); [|discriminate].
    destruct (hash_or_hex c); [|discriminate]. reflexivity. }
  destruct (Nat.eqb _ 8); [apply all_firstn|]; exact T.
Qed.

Lemma matched_literal_chars (r : regex) (before s : string) (m : found) :
  within hash_or_hex r = true ->
  match_at r before s = Some m ->
  Str.all is_color_char (normalizeHex (f_text m)) = true.
Proof.
  intros W M. apply normalizeHex_chars.
  destruct (match_at_text hash_or_hex r before s m M) as (_ & A & _). exact (A W).
Qed.

(** ** The tally and the ranking *)

Lemma fold_tally_in (P : string -> Prop) (f : found -> string) (ms : list found) :
  (forall m, In m ms -> P (f m)) ->
  forall cs, Forall (fun e => P (fst e)) cs ->
    Forall (fun e => P (fst e)) (fold_left (fun cs m => tally cs (f m)) ms cs).
Proof.
  induction ms as [|m ms IH]; intros Hf cs H; cbn [fold_left]; [exact H|].
  apply IH; [intros m' I; apply Hf; right; exact I|].
  unfold tally. destruct (isNeutralColor (f m)); [exact H|].
  assert (Pm : P (f m)) by (apply Hf; left; reflexivity).
  clear IH Hf. induction cs as [|[k n] t IHt]; cbn [bump].
  - constructor; [exact Pm | constructor].
  - inversion H; subst. destruct (String.eqb k (f m)); constructor; auto.
Qed.

Lemma colorCounts_chars (css : string) :
  Forall (fun e => Str.all is_color_char (fst e) = true) (colorCounts css).
Proof.
  unfold colorCounts. cbv zeta.
  refine (fold_tally_in (fun k => Str.all is_color_char k = true) hsl_of _
            (fun m _ => hslToHex_chars _ _ _) _ _).
  refine (fold_tally_in (fun k => Str.all is_color_char k = true) rgb_of _
            (fun m _ => rgbToHex_chars _ _ _) _ _).
  refine (fold_tally_in (fun k => Str.all is_color_char k = true)
            (fun m => normalizeHex (f_text m)) _ _ _ (Forall_nil _)).
  intros m I. destruct (scan_at _ _ _ _ _ I) as (b & s & M).
  apply (matched_literal_chars hexPattern b s m); [vm_compute; reflexivity | exact M].
Qed.

Lemma in_firstn {A : Type} (n : nat) (l : list A) (x : A) : In x (List.firstn n l) -> In x l.
Proof.
  intros H. rewrite <- (firstn_skipn n l). apply in_or_app. left. exact H.
Qed.

Lemma analyzeColors_chars (css : string) :
  Forall (fun c => Str.all is_color_char c = true) (analyzeColors css).
Proof.
  apply Forall_forall. intros c I. unfold analyzeColors in I.
  apply in_map_iff in I. destruct I as (e & <- & I).
  apply in_firstn in I.
  apply (Permutation_in _ (sort_entries_perm _)) in I.
  pose proof (colorCounts_chars css) as K. rewrite Forall_forall in K. exact (K e I).
Qed.

Lemma analyzeColors_colorful (css c : string) :
  In c (analyzeColors css) -> isNeutralColor c = false.
Proof.
  intros I. unfold analyzeColors in I.
  apply in_map_iff in I. destruct I as (e & <- & I).
  apply in_firstn in I.
  apply (Permutation_in _ (sort_entries_perm _)) in I.
  assert (K : Forall (fun e => isNeutralColor (fst e) = false) (colorCounts css)).
  { unfold colorCounts. cbv zeta. repeat apply fold_tally_not_neutral. constructor. }
  rewrite Forall_forall in K. exact (K e I).
Qed.

(** ** The background *)

Lemma assoc_in (l : list (string * string)) (key v : string) :
  Str.assoc l key = Some v -> In v (List.map snd l).
Proof.
  induction l as [|[k w] t IH]; cbn [Str.assoc List.map snd In]; [discriminate|].
  destruct (String.eqb k key); [intros E; injection E as <-; left; reflexivity|].
  intros H. right. exact (IH H).
Qed.

Lemma cssValueToHex_chars (val s : string) :
  cssValueToHex val = JStr s -> Str.all is_color_char s = true.
Proof.
  unfold cssValueToHex.
  destruct (search hexValuePattern val) as [m|] eqn:S1.
  { intros E. injection E as <-.
    destruct (search_from_at _ _ _ _ S1) as (b & s' & M & _).
    apply (matched_literal_chars hexValuePattern b s' m); [vm_compute; reflexivity | exact M]. }
  destruct (search rgbPattern val) as [m|].
  { intros E. injection E as <-. exact (rgbToHex_chars _ _ _). }
  destruct (search hslPattern val) as [m|].
  { intros E. injection E as <-. exact (hslToHex_chars _ _ _). }
  unfold get_or_null.
  destruct (Str.assoc namedColors (Str.toLowerCase val)) as [[|c t]|] eqn:A; try discriminate.
  - intros E. injection E as <-. apply assoc_in in A.
    assert (F : forallb (Str.all is_color_char) (List.map snd namedColors) = true)
      by (vm_compute; reflexivity).
    rewrite forallb_forall in F. exact (F _ A).
  - destruct (existsb _ object_prototype); discriminate.
Qed.

Lemma extractBackgroundColor_chars (css s : string) :
  extractBackgroundColor css = JStr s -> Str.all is_color_char s = true.
Proof.
  unfold extractBackgroundColor.
  destruct (search backgroundPattern css) as [m|]; [apply cssValueToHex_chars | discriminate].
Qed.

(** ** The fields of a theme *)

Lemma or_else_chars (q : ascii -> bool) (v : option string) (d : string) :
  (forall s, v = Some s -> Str.all q s = true) -> Str.all q d = true ->
  Str.all q (or_else v d) = true.
Proof.
  intros H D. destruct v as [[|c t]|]; cbn [or_else]; try exact D.
  apply H. reflexivity.
Qed.

Lemma nth_error_chars (q : ascii -> bool) (l : list string) (n : nat) (s : string) :
  Forall (fun c => Str.all q c = true) l -> nth_error l n = Some s -> Str.all q s = true.
Proof.
  intros F H. rewrite Forall_forall in F. apply F. exact (nth_error_In _ _ H).
Qed.

Lemma assemble_chars (colors : list string) (font bg logo favicon : option string) :
  Forall (fun c => Str.all is_color_char c = true) colors ->
  (forall s, bg = Some s -> Str.all is_color_char s = true) ->
  Forall (fun c => Str.all is_color_char c = true)
         (color_fields (assemble colors font bg logo favicon)).
Proof.
  intros C B. unfold color_fields, assemble.
  cbn [primaryColor primaryHover secondaryColor bgColor surfaceColor elevatedColor
       textColor textSecondary borderColor].
  repeat apply Forall_cons; try apply Forall_nil.
  - apply or_else_chars; [intros s; apply nth_error_chars, C | reflexivity].
  - apply adjustLightness_chars.
  - apply or_else_chars; [intros s; apply nth_error_chars, C | reflexivity].
  - apply or_else_chars; [exact B | destruct (match bg with Some (String _ _) => _ | _ => false end); reflexivity].
  - destruct (match bg with Some (String _ _) => _ | _ => false end); apply adjustLightness_chars.
  - destruct (match bg with Some (String _ _) => _ | _ => false end); apply adjustLightness_chars.
  - destruct (match bg with Some (String _ _) => _ | _ => false end); reflexivity.
  - destruct (match bg with Some (String _ _) => _ | _ => false end); reflexivity.
  - destruct (match bg with Some (String _ _) => _ | _ => false end); reflexivity.
Qed.

(** ** Counting a character *)

Lemma count_append (c : ascii) (a b : string) : count c (a ++ b) = count c a + count c b.
Proof.
  induction a as [|d a IH]; cbn [append count]; [reflexivity | rewrite IH; lia].
Qed.

Lemma count_rev_onto (c : ascii) (s acc : string) :
  count c (Str.rev_onto s acc) = count c s + count c acc.
Proof.
  revert acc. induction s as [|d s IH]; intros acc; cbn [Str.rev_onto count];
    [reflexivity | rewrite IH; cbn [count]; lia].
Qed.

Lemma count_drop_spaces (c : ascii) (s : string) :
  Str.is_space c = false -> count c (Str.drop_spaces s) = count c s.
Proof.
  intros H. induction s as [|d s IH]; cbn [Str.drop_spaces]; [reflexivity|].
  destruct (Str.is_space d) eqn:D; [|reflexivity].
  cbn [count]. destruct (Ascii.eqb_spec c d) as [E|E]; [congruence | exact IH].
Qed.

Lemma count_trim (c : ascii) (s : string) :
  Str.is_space c = false -> count c (Str.trim s) = count c s.
Proof.
  intros H. unfold Str.trim, Str.rev.
  rewrite count_rev_onto, (count_drop_spaces c _ H), count_rev_onto,
    (count_drop_spaces c _ H). cbn [count]. lia.
Qed.

Lemma count_none (q : ascii -> bool) (c : ascii) (s : string) :
  q c = false -> Str.all q s = true -> count c s = 0.
Proof.
  intros Q. induction s as [|d s IH]; cbn [Str.all count]; [reflexivity|].
  intros H. apply andb_prop in H. destruct H as [H1 H2]. rewrite (IH H2).
  destruct (Ascii.eqb_spec c d) as [E|E]; [congruence | reflexivity].
Qed.

Lemma count_declaration (name value : string) :
  count ";" (declaration name value) = count ";" name + count ";" value + 1.
Proof.
  unfold declaration. rewrite !count_append. cbn [count append]. cbn. lia.
Qed.

(** The text always holds its own eleven semicolons, and those of the
    values. *)
Lemma themeToCssVariables_semicolons (t : PortalTheme) :
  count ";" (themeToCssVariables t)
  = 11 + 2 * count ";" (primaryColor t) + count ";" (primaryHover t)
    + count ";" (secondaryColor t) + count ";" (bgColor t) + count ";" (surfaceColor t)
    + count ";" (elevatedColor t) + count ";" (textColor t) + count ";" (textSecondary t)
    + count ";" (borderColor t) + count ";" (fontFamily t).
Proof.
  unfold themeToCssVariables. rewrite count_trim by reflexivity.
  rewrite !count_append, !count_declaration.
  replace (count ";" newline) with 0 by reflexivity.
  replace (count ";" ":root {") with 0 by reflexivity.
  replace (count ";" "}") with 0 by reflexivity.
  replace (count ";" "--fl-color-primary") with 0 by reflexivity.
  replace (count ";" "--fl-color-primary-hover") with 0 by reflexivity.
  replace (count ";" "--fl-color-secondary") with 0 by reflexivity.
  replace (count ";" "--fl-color-bg-base") with 0 by reflexivity.
  replace (count ";" "--fl-color-bg-surface") with 0 by reflexivity.
  replace (count ";" "--fl-color-bg-elevated") with 0 by reflexivity.
  replace (count ";" "--fl-color-text-primary") with 0 by reflexivity.
  replace (count ";" "--fl-color-text-secondary") with 0 by reflexivity.
  replace (count ";" "--fl-color-border") with 0 by reflexivity.
  replace (count ";" "--fl-color-border-focus") with 0 by reflexivity.
  replace (count ";" "--fl-font-family") with 0 by reflexivity.
  lia.
Qed.

Lemma assemble_font (colors : list string) (font bg logo favicon : option string) :
  (forall s, font = Some s -> lacks (fun c => mem c (";" ++ quote_chars)) s = true) ->
  lacks (fun c => mem c (";" ++ quote_chars))
        (fontFamily (assemble colors font bg logo favicon)) = true.
Proof.
  intros F. unfold assemble. cbn [fontFamily].
  apply or_else_chars; [exact F | vm_compute; reflexivity].
Qed.

(** ** Inherited members *)

Lemma prototype_lower (k : string) :
  In k object_prototype -> Str.toLowerCase k = k -> In k ["constructor"; "__proto__"].
Proof.
  intros I. unfold object_prototype in I.
  repeat (destruct I as [<-|I];
          [vm_compute; intros E; first [discriminate E | tauto]|]).
  destruct I.
Qed.

Lemma cssValueToHex_object (val k : string) :
  cssValueToHex val = JObject k <->
  k = Str.toLowerCase val /\ In k ["constructor"; "__proto__"].
Proof.
  split.
  - unfold cssValueToHex.
    destruct (search hexValuePattern val); [discriminate|].
    destruct (search rgbPattern val); [discriminate|].
    destruct (search hslPattern val); [discriminate|].
    unfold get_or_null.
    destruct (Str.assoc namedColors (Str.toLowerCase val)) as [[|c t]|]; try discriminate.
    destruct (existsb (String.eqb (Str.toLowerCase val)) object_prototype) eqn:P;
      [|discriminate].
    intros E. injection E as <-. split; [reflexivity|].
    apply existsb_exists in P. destruct P as (x & I & X).
    apply String.eqb_eq in X. subst x.
    apply (prototype_lower _ I), toLowerCase_twice.
  - intros [-> I].
    assert (L : lacks (fun c => mem c "#(") val = true).
    { apply lacks_toLowerCase.
      - assert (A : forallb (fun c => implb (mem c "#(") (mem (Str.lower c) "#("))
                            Str.all_ascii = true) by (vm_compute; reflexivity).
        intros c Hc. pose proof (forall_ascii _ A c) as B. cbv beta in B.
        rewrite Hc in B. exact B.
      - destruct I as [<-|[<-|[]]]; vm_compute; reflexivity. }
    unfold cssValueToHex.
    rewrite (search_needs (fun c => mem c "#(") hexValuePattern val)
      by (try exact L; vm_compute; reflexivity).
    rewrite (search_needs (fun c => mem c "#(") rgbPattern val)
      by (try exact L; vm_compute; reflexivity).
    rewrite (search_needs (fun c => mem c "#(") hslPattern val)
      by (try exact L; vm_compute; reflexivity).
    destruct I as [<-|[<-|[]]]; vm_compute; reflexivity.
Qed.

(** ** The two tallies *)

Lemma hexColors_keys (css : string) :
  Forall (fun e => fst e <> EmptyString) (Inline.hexColors css).
Proof.
  unfold Inline.hexColors.
  apply (fold_tally_in (fun k => k <> EmptyString) Inline.rgb_of);
    [intros m _; discriminate|].
  apply (fold_tally_in (fun k => k <> EmptyString) (fun m => normalizeHex (f_text m)));
    [intros m _; discriminate | constructor].
Qed.

Lemma colorCounts_without_functions (css : string) :
  lacks (Ascii.eqb "(") css = true -> colorCounts css = Inline.hexColors css.
Proof.
  intros L. unfold colorCounts, Inline.hexColors, exec_all.
  rewrite (scan_needs (Ascii.eqb "(") hslPattern) by (try exact L; vm_compute; reflexivity).
  rewrite (scan_needs (Ascii.eqb "(") rgbPattern) by (try exact L; vm_compute; reflexivity).
  reflexivity.
Qed.

Lemma in_three_digits (z : Z) :
  (256 <= z <= 999)%Z -> In z (List.map Z.of_nat (seq 256 744)).
Proof.
  intros H. apply in_map_iff. exists (Z.to_nat z). split; [lia|].
  apply in_seq. lia.
Qed.

End SafetyFacts.

(* ------------------------------------------------------------------ *)
(** * Further properties of the engine and of the admin screen's copy *)

Module Coverage.

Import Str Regex Shape Color JSNum Hex ThemeExtractor Stylesheet.
Import HexFacts StrFacts ShapeFacts ScanFacts RegexFacts ColorFacts SelectorFacts.
Import RankingFacts ThemeFacts NormalizeFacts PaletteFacts LogoFacts SafetyFacts.

(** ** Hex literals *)

(** X1.  On a text of ASCII characters, which is what the program
    passes, [normalizeHex] is idempotent: normalizing its result again
    changes nothing.  (Outside ASCII [toLowerCase] can change the
    length of a text, and the property is not claimed there.) *)
Theorem normalizeHex_idempotent (hex : string) :
  Str.all (fun c => (Str.code c <? 128)%nat) hex = true ->
  normalizeHex (normalizeHex hex) = normalizeHex hex.
Proof.
  intros _. destruct (normalizeHex_form hex) as (body & -> & N3 & N8).
  apply normalizeHex_stable; assumption.
Qed.

Lemma normalizeHex_idempotent_witness :
  normalizeHex (normalizeHex "#Fa0") = normalizeHex "#Fa0".
Proof. apply normalizeHex_idempotent. reflexivity. Defined.

(** X2.  Every match that the [while] loop over [hexPattern] visits is
    a [#] followed by three to eight hexadecimal digits, which are the
    first group, and no word character follows the match. *)
Theorem hex_matches_shape (css : string) (m : found) :
  In m (exec_all hexPattern css) ->
  exists digits,
    f_text m = String hash digits
    /\ group 1 (f_caps m) = digits
    /\ Str.all Str.is_hex digits = true
    /\ 3 <= String.length digits <= 8
    /\ head_is_word (f_rest m) = false.
Proof.
  intros H. destruct (scan_at _ _ _ _ _ H) as (b & s & M).
  destruct (hex_match_shape b s m M) as (digits & T & _ & G & A & L & W).
  exists digits. repeat split; try assumption; lia.
Qed.

Lemma hex_matches_shape_witness :
  exists digits,
    f_text (MkFound "a" "#1A2b3c" [(1, "1A2b3c")] ";") = String hash digits
    /\ group 1 (f_caps (MkFound "a" "#1A2b3c" [(1, "1A2b3c")] ";")) = digits
    /\ Str.all Str.is_hex digits = true
    /\ 3 <= String.length digits <= 8
    /\ head_is_word (f_rest (MkFound "a" "#1A2b3c" [(1, "1A2b3c")] ";")) = false.
Proof.
  apply (hex_matches_shape "a#1A2b3c;"). vm_compute. left. reflexivity.
Defined.

(** X3.  The color that [analyzeColors] tallies for a hex literal is a
    lower-case [#rrggbb] exactly when the literal has three, six or
    eight digits; a literal of four, five or seven digits is tallied
    under a text that is no [#rrggbb]. *)
Theorem scanned_literal_normalized (css : string) (m : found) :
  In m (exec_all hexPattern css) ->
  is_normalized (normalizeHex (f_text m)) = true
  <-> In (String.length (group 1 (f_caps m))) [3; 6; 8].
Proof.
  intros H. destruct (scan_at _ _ _ _ _ H) as (b & s & M).
  destruct (hex_match_shape b s m M) as (digits & -> & _ & -> & A & L & _).
  split.
  - intros N. unfold is_normalized in N. apply andb_prop in N. destruct N as [N _].
    apply hex6_length in N.
    destruct (Nat.eq_dec (String.length digits) 3) as [E3|E3]; [left; symmetry; exact E3|].
    destruct (Nat.eq_dec (String.length digits) 8) as [E8|E8];
      [right; right; left; symmetry; exact E8|].
    pose proof (normalizeHex_other digits E3 E8) as O. unfold hash in O.
    rewrite O in N. clear O.
    cbn [String.length] in N. unfold Str.toLowerCase in N. rewrite length_map in N.
    right. left. lia.
  - intros I. apply normalizeHex_regular; [exact A|].
    destruct I as [<-|[<-|[<-|[]]]]; tauto.
Qed.

Lemma scanned_literal_normalized_witness :
  is_normalized (normalizeHex (f_text (MkFound "a" "#1A2b3c" [(1, "1A2b3c")] ";"))) = true
  <-> In (String.length (group 1 (f_caps (MkFound "a" "#1A2b3c" [(1, "1A2b3c")] ";"))))
         [3; 6; 8].
Proof.
  apply (scanned_literal_normalized "a#1A2b3c;"). vm_compute. left. reflexivity.
Defined.

(** ** Channels *)

(** X6.  [rgbToHex] and the channel reads [parseInt(hex.slice(..), 16)]
    are inverse on bytes: three integers from 0 to 255 print as a
    lower-case [#rrggbb] whose channels read back as the same three
    Numbers. *)
Theorem rgbToHex_round_trip (r g b : Z) :
  (0 <= r <= 255)%Z -> (0 <= g <= 255)%Z -> (0 <= b <= 255)%Z ->
  is_normalized (rgbToHex (of_Z r) (of_Z g) (of_Z b)) = true
  /\ channel 1 3 (rgbToHex (of_Z r) (of_Z g) (of_Z b)) = of_Z r
  /\ channel 3 5 (rgbToHex (of_Z r) (of_Z g) (of_Z b)) = of_Z g
  /\ channel 5 7 (rgbToHex (of_Z r) (of_Z g) (of_Z b)) = of_Z b.
Proof.
  intros Hr Hg Hb.
  destruct (rgbToHex_bytes r g b Hr Hg Hb) as (-> & N & C).
  split; [exact N|].
  unfold is_normalized in N. apply andb_prop in N. destruct N as [N _].
  pose proof (channels_parse _ N) as P. rewrite C in P.
  destruct P as (P1 & P2 & P3 & _). repeat split; assumption.
Qed.

Lemma rgbToHex_round_trip_witness :
  is_normalized (rgbToHex (of_Z 14) (of_Z 165) (of_Z 233)) = true
  /\ channel 1 3 (rgbToHex (of_Z 14) (of_Z 165) (of_Z 233)) = of_Z 14
  /\ channel 3 5 (rgbToHex (of_Z 14) (of_Z 165) (of_Z 233)) = of_Z 165
  /\ channel 5 7 (rgbToHex (of_Z 14) (of_Z 165) (of_Z 233)) = of_Z 233.
Proof. apply rgbToHex_round_trip; lia. Defined.

(** X7.  In the other direction, printing the channels read from a
    color [#rrggbb] of any case gives the color back in lower case, and
    so does [adjustLightness] with amount 0. *)
Theorem color_rebuilt_from_channels (hex : string) :
  is_hex6 hex = true ->
  rgbToHex (channel 1 3 hex) (channel 3 5 hex) (channel 5 7 hex) = Str.toLowerCase hex
  /\ adjustLightness hex 0%float = Str.toLowerCase hex.
Proof.
  intros H. split; [apply rgbToHex_inverse, H | apply adjustLightness_zero, H].
Qed.

Lemma color_rebuilt_from_channels_witness :
  rgbToHex (channel 1 3 "#0EA5e9") (channel 3 5 "#0EA5e9") (channel 5 7 "#0EA5e9")
  = Str.toLowerCase "#0EA5e9"
  /\ adjustLightness "#0EA5e9" 0%float = Str.toLowerCase "#0EA5e9".
Proof. apply color_rebuilt_from_channels. reflexivity. Defined.

(** ** Font and background *)

(** X8.  A font family that [extractFontFamily] returns holds no
    semicolon and no quote character, double or single. *)
Theorem extractFontFamily_clean (css family : string) :
  extractFontFamily css = Some family ->
  lacks (fun c => mem c (";" ++ quote_chars)) family = true.
Proof. unfold extractFontFamily. apply first_font_clean. Qed.

Lemma extractFontFamily_clean_witness :
  lacks (fun c => mem c (";" ++ quote_chars)) "Georgia, serif" = true.
Proof.
  apply (extractFontFamily_clean "body { font-family: 'Georgia', serif; }").
  vm_compute. reflexivity.
Defined.

(** X9.  [extractTheme] throws exactly when the style sheet has a body
    background whose trimmed value is, in lower case, [constructor] or
    [__proto__], the two members that [namedColors] inherits under a
    lower-case name; on every other input it returns a theme. *)
Theorem extractTheme_throws_exactly (parse : string -> Dom.document) (html : string)
  (cssTexts : list string) :
  (exists error, extractTheme parse html cssTexts = Throw error) <->
  (exists m, search backgroundPattern (String.concat newline cssTexts) = Some m
             /\ In (Str.toLowerCase (Str.trim (group 1 (f_caps m))))
                   ["constructor"; "__proto__"]).
Proof.
  unfold extractTheme, extractBackgroundColor.
  destruct (search backgroundPattern (String.concat newline cssTexts)) as [m|].
  - destruct (cssValueToHex (Str.trim (group 1 (f_caps m)))) as [|s|k] eqn:E.
    + split; [intros [e H]; discriminate|].
      intros (m' & M & I). injection M as <-.
      assert (X : cssValueToHex (Str.trim (group 1 (f_caps m)))
                  = JObject (Str.toLowerCase (Str.trim (group 1 (f_caps m)))))
        by (apply cssValueToHex_object; split; [reflexivity | exact I]).
      rewrite E in X. discriminate.
    + split; [intros [e H]; discriminate|].
      intros (m' & M & I). injection M as <-.
      assert (X : cssValueToHex (Str.trim (group 1 (f_caps m)))
                  = JObject (Str.toLowerCase (Str.trim (group 1 (f_caps m)))))
        by (apply cssValueToHex_object; split; [reflexivity | exact I]).
      rewrite E in X. discriminate.
    + split; [|intros _; exists type_error; reflexivity].
      intros _. exists m. split; [reflexivity|].
      apply cssValueToHex_object in E. destruct E as [-> I]. exact I.
  - split; [intros [e H]; discriminate | intros (m & M & _); discriminate].
Qed.

(** ** Logo and favicon *)

(** X10.  A favicon that [extractFaviconUrl] returns is the non-empty
    [href] of a [link] element of the parsed document whose [rel] is
    [icon], [shortcut icon] or [apple-touch-icon]: without regard to
    case when the element is of the HTML namespace, letter for letter
    when it is of another one, as a [link] inside [svg] is. *)
Theorem extractFaviconUrl_sound (parse : string -> Dom.document) (html href : string) :
  extractFaviconUrl parse html = Some href ->
  href <> EmptyString
  /\ exists e rel,
       In e (document_elements (parse html))
       /\ Dom.e_tag e = "link"
       /\ Dom.getAttribute (Dom.e_attrs e) "href" = Some href
       /\ Dom.getAttribute (Dom.e_attrs e) "rel" = Some rel
       /\ In (if Dom.e_html e then Dom.ascii_lower rel else rel)
             ["icon"; "shortcut icon"; "apple-touch-icon"].
Proof.
  unfold extractFaviconUrl, favicon_of. intros H.
  destruct (first_attr_sound _ _ _ _ H) as (N & s & e & I & Q & A).
  split; [exact N|].
  destruct (querySelector_sound _ _ _ Q) as (E & chain & M).
  apply single_match in M.
  assert (R : exists v, s = link_rel v
                        /\ In (Dom.ascii_lower v) ["icon"; "shortcut icon"; "apple-touch-icon"]).
  { destruct I as [<-|[<-|[<-|[]]]].
    - exists "icon". split; [reflexivity|]. left. reflexivity.
    - exists "shortcut icon". split; [reflexivity|]. right. left. reflexivity.
    - exists "apple-touch-icon". split; [reflexivity|]. right. right. left. reflexivity. }
  destruct R as (v & -> & V).
  destruct (link_rel_match _ _ _ _ M) as (T & rel & Hrel & L).
  exists e, rel. split; [exact E|]. split; [exact T|]. split; [exact A|].
  split; [exact Hrel|].
  destruct (Dom.e_html e).
  - rewrite L. exact V.
  - rewrite L. destruct I as [I|[I|[I|[]]]]; injection I as <-;
      [left | right; left | right; right; left]; reflexivity.
Qed.

Lemma extractFaviconUrl_sound_witness :
  "/f.ico" <> EmptyString
  /\ exists e rel,
       In e (document_elements
               (Examples.constant_parser
                  (Examples.page [Dom.Element "link"
                                    [("rel", "Shortcut Icon"); ("href", "/f.ico")] []])
                  EmptyString))
       /\ Dom.e_tag e = "link"
       /\ Dom.getAttribute (Dom.e_attrs e) "href" = Some "/f.ico"
       /\ Dom.getAttribute (Dom.e_attrs e) "rel" = Some rel
       /\ In (if Dom.e_html e then Dom.ascii_lower rel else rel)
             ["icon"; "shortcut icon"; "apple-touch-icon"].
Proof. apply extractFaviconUrl_sound. vm_compute. reflexivity. Defined.

(** X11.  A logo that [extractLogoUrl] returns is the non-empty [src]
    of an [img] element of the parsed document, or the [content] of a
    [meta] element whose [property] is [og:image]. *)
Theorem extractLogoUrl_sound (parse : string -> Dom.document) (html url : string) :
  extractLogoUrl parse html = Some url ->
  exists e,
    In e (document_elements (parse html))
    /\ ((Dom.e_tag e = "img" /\ Dom.getAttribute (Dom.e_attrs e) "src" = Some url
         /\ url <> EmptyString)
        \/ (Dom.e_tag e = "meta"
            /\ Dom.getAttribute (Dom.e_attrs e) "property" = Some "og:image"
            /\ Dom.getAttribute (Dom.e_attrs e) "content" = Some url)).
Proof.
  unfold extractLogoUrl, logo_of. intros H.
  destruct (first_attr (parse html) "src" logo_selectors) as [src|] eqn:F.
  - injection H as <-.
    destruct (first_attr_sound _ _ _ _ F) as (N & s & e & I & Q & A).
    destruct (querySelector_sound _ _ _ Q) as (E & chain & M).
    apply single_match in M.
    exists e. split; [exact E|]. left. repeat split; try assumption.
    pose proof logo_selectors_img as T. rewrite Forall_forall in T.
    exact (subject_tag _ _ _ _ "img" M (T s I)).
  - destruct (Dom.querySelector (parse html) [og_image]) as [e|] eqn:Q; [|discriminate].
    destruct (querySelector_sound _ _ _ Q) as (E & chain & M).
    apply single_match in M. destruct (og_image_match _ _ _ M) as [T P].
    exists e. split; [exact E|]. right. repeat split; assumption.
Qed.

Lemma extractLogoUrl_sound_witness :
  exists e,
    In e (document_elements
            (Examples.constant_parser Examples.link_before_header EmptyString))
    /\ ((Dom.e_tag e = "img" /\ Dom.getAttribute (Dom.e_attrs e) "src" = Some "logo.png"
         /\ "logo.png" <> EmptyString)
        \/ (Dom.e_tag e = "meta"
            /\ Dom.getAttribute (Dom.e_attrs e) "property" = Some "og:image"
            /\ Dom.getAttribute (Dom.e_attrs e) "content" = Some "logo.png")).
Proof. apply extractLogoUrl_sound. vm_compute. reflexivity. Defined.

(** X12.  [extractLogoUrl] goes by the order of its selector list, not
    by the order of the document: the first element of a selector
    decides with its non-empty [src] as soon as every selector before
    it has no element, or a first element without a [src]. *)
Theorem extractLogoUrl_priority (parse : string -> Dom.document) (html : string)
  (before after : list Dom.selector) (s : Dom.selector) (e : Dom.einfo) (url : string) :
  logo_selectors = (before ++ s :: after)%list ->
  Forall (fun s' =>
            match Dom.querySelector (parse html) [s'] with
            | None => True
            | Some e' => Dom.getAttribute (Dom.e_attrs e') "src" = None
                         \/ Dom.getAttribute (Dom.e_attrs e') "src" = Some EmptyString
            end) before ->
  Dom.querySelector (parse html) [s] = Some e ->
  Dom.getAttribute (Dom.e_attrs e) "src" = Some url ->
  url <> EmptyString ->
  extractLogoUrl parse html = Some url.
Proof.
  intros S F Q A N. destruct url as [|c v]; [destruct (N eq_refl)|].
  unfold extractLogoUrl. exact (logo_priority _ before after s e c v S F Q A).
Qed.

Lemma extractLogoUrl_priority_witness :
  extractLogoUrl
    (Examples.constant_parser
       (Examples.page
          [Dom.Element "a" [("href", "/")] [Dom.Element "img" [("src", "first.png")] []];
           Dom.Element "header" [] [Dom.Element "img" [("src", "brand.png")] []]]))
    EmptyString
  = Some "brand.png".
Proof.
  apply (extractLogoUrl_priority _ EmptyString
           (List.firstn 3 logo_selectors) (List.skipn 4 logo_selectors)
           (Dom.Descendant (Dom.tag_only "header") img)
           (Dom.MkInfo "img" [("src", "brand.png")] true true) "brand.png").
  - reflexivity.
  - unfold logo_selectors. cbn [List.firstn].
    repeat (apply Forall_cons; [vm_compute; exact Logic.I|]). apply Forall_nil.
  - vm_compute. reflexivity.
  - reflexivity.
  - discriminate.
Defined.

(** X13.  A document without [img], [meta] and [link] elements has no
    logo and no favicon: both functions of the engine return [null],
    and the admin screen's copy leaves its logo empty. *)
Theorem no_candidate_no_url (parse : string -> Dom.document) (html : string) :
  (forall e, In e (document_elements (parse html)) ->
             Dom.e_tag e <> "img" /\ Dom.e_tag e <> "meta" /\ Dom.e_tag e <> "link") ->
  extractLogoUrl parse html = None
  /\ extractFaviconUrl parse html = None
  /\ BrandingSettings.extractedLogoUrl (parse html) = EmptyString.
Proof.
  intros H.
  assert (Himg : forall e, In e (document_elements (parse html)) -> Dom.e_tag e <> "img")
    by (intros e I; apply (H e I)).
  assert (Hmeta : forall e, In e (document_elements (parse html)) -> Dom.e_tag e <> "meta")
    by (intros e I; apply (H e I)).
  assert (Hlink : forall e, In e (document_elements (parse html)) -> Dom.e_tag e <> "link")
    by (intros e I; apply (H e I)).
  assert (OG : Dom.querySelector (parse html) [og_image] = None).
  { apply (querySelector_none _ _ "meta"); [repeat constructor | exact Hmeta]. }
  split; [|split].
  - unfold extractLogoUrl, logo_of.
    rewrite (first_attr_none _ _ _ "img" logo_selectors_img Himg), OG. reflexivity.
  - unfold extractFaviconUrl, favicon_of.
    apply (first_attr_none _ _ _ "link" favicon_selectors_link Hlink).
  - unfold BrandingSettings.extractedLogoUrl.
    rewrite (querySelector_none _ _ "img" logo_selector_list_img Himg), OG. reflexivity.
Qed.

Lemma no_candidate_no_url_witness :
  extractLogoUrl Examples.blank_parser EmptyString = None
  /\ extractFaviconUrl Examples.blank_parser EmptyString = None
  /\ BrandingSettings.extractedLogoUrl (Examples.blank_parser EmptyString) = EmptyString.
Proof.
  apply no_candidate_no_url. intros e I.
  vm_compute in I. destruct I as [<-|[<-|[<-|[]]]]; repeat split; discriminate.
Defined.

(** X14.  A logo that the admin screen's copy finds is the [src] of an
    [img] element of the document, or the [content] of a [meta] element
    whose [property] is [og:image]. *)
Theorem extractedLogoUrl_sound (doc : Dom.document) (url : string) :
  BrandingSettings.extractedLogoUrl doc = url -> url <> EmptyString ->
  exists e,
    In e (document_elements doc)
    /\ ((Dom.e_tag e = "img" /\ Dom.getAttribute (Dom.e_attrs e) "src" = Some url)
        \/ (Dom.e_tag e = "meta"
            /\ Dom.getAttribute (Dom.e_attrs e) "property" = Some "og:image"
            /\ Dom.getAttribute (Dom.e_attrs e) "content" = Some url)).
Proof.
  unfold BrandingSettings.extractedLogoUrl. intros H N.
  assert (OG : match Dom.querySelector doc [og_image] with
               | Some ogImage =>
                   or_else (Dom.getAttribute (Dom.e_attrs ogImage) "content") EmptyString
               | None => EmptyString
               end = url ->
               exists e,
                 In e (document_elements doc)
                 /\ ((Dom.e_tag e = "img" /\ Dom.getAttribute (Dom.e_attrs e) "src" = Some url)
                     \/ (Dom.e_tag e = "meta"
                         /\ Dom.getAttribute (Dom.e_attrs e) "property" = Some "og:image"
                         /\ Dom.getAttribute (Dom.e_attrs e) "content" = Some url))).
  { destruct (Dom.querySelector doc [og_image]) as [e|] eqn:Q;
      [|intros E; exfalso; apply N; symmetry; exact E].
    destruct (querySelector_sound _ _ _ Q) as (E & chain & M).
    apply single_match in M. destruct (og_image_match _ _ _ M) as [T P].
    destruct (Dom.getAttribute (Dom.e_attrs e) "content") as [[|c t]|] eqn:A; cbn [or_else];
      intros U; try (exfalso; apply N; symmetry; exact U).
    exists e. split; [exact E|]. right. rewrite <- U. repeat split; assumption. }
  destruct (Dom.querySelector doc BrandingSettings.logo_selector_list) as [e|] eqn:Q;
    [|exact (OG H)].
  destruct (Dom.getAttribute (Dom.e_attrs e) "src") as [[|c t]|] eqn:A; cbn [or_else] in H;
    try exact (OG H).
  destruct (querySelector_sound _ _ _ Q) as (E & chain & M).
  apply existsb_exists in M. destruct M as (s & I & M).
  pose proof logo_selector_list_img as T. rewrite Forall_forall in T.
  exists e. split; [exact E|]. left. rewrite <- H. split; [|exact A].
  exact (subject_tag _ _ _ _ "img" M (T s I)).
Qed.

Lemma extractedLogoUrl_sound_witness :
  exists e,
    In e (document_elements Examples.link_before_header)
    /\ ((Dom.e_tag e = "img" /\ Dom.getAttribute (Dom.e_attrs e) "src" = Some "other.png")
        \/ (Dom.e_tag e = "meta"
            /\ Dom.getAttribute (Dom.e_attrs e) "property" = Some "og:image"
            /\ Dom.getAttribute (Dom.e_attrs e) "content" = Some "other.png")).
Proof.
  apply extractedLogoUrl_sound; [vm_compute; reflexivity | discriminate].
Defined.

(** ** The sanitizer *)

(** X15.  [sanitizeHtml] returns a text without [<] and without [=]
    as it is: each of its six patterns needs one of the two
    characters. *)
Theorem sanitizeHtml_plain_text (html : string) :
  lacks (fun c => mem c "<=") html = true ->
  BrandingSettings.sanitizeHtml html = html.
Proof.
  intros L. unfold BrandingSettings.sanitizeHtml, replace_all.
  rewrite (replace_needs (fun c => mem c "<=") (BrandingSettings.blockPattern "script"))
    by (try exact L; vm_compute; reflexivity).
  rewrite (replace_needs (fun c => mem c "<=") (BrandingSettings.blockPattern "noscript"))
    by (try exact L; vm_compute; reflexivity).
  rewrite (replace_needs (fun c => mem c "<=") (BrandingSettings.blockPattern "iframe"))
    by (try exact L; vm_compute; reflexivity).
  rewrite (replace_needs (fun c => mem c "<=") BrandingSettings.quotedHandlerPattern)
    by (try exact L; vm_compute; reflexivity).
  rewrite (replace_needs (fun c => mem c "<=") BrandingSettings.bareHandlerPattern)
    by (try exact L; vm_compute; reflexivity).
  apply (replace_needs (fun c => mem c "<=") BrandingSettings.scriptUrlPattern);
    [vm_compute; reflexivity | exact L].
Qed.

Lemma sanitizeHtml_plain_text_witness :
  BrandingSettings.sanitizeHtml "on sale: javascript and scripts"
  = "on sale: javascript and scripts".
Proof. apply sanitizeHtml_plain_text. vm_compute. reflexivity. Defined.

(** X16.  [sanitizeHtml] never returns a text longer than its input:
    five replacements delete, and the sixth puts eight characters in
    the place of eighteen at least. *)
Theorem sanitizeHtml_never_longer (html : string) :
  String.length (BrandingSettings.sanitizeHtml html) <= String.length html.
Proof.
  unfold BrandingSettings.sanitizeHtml.
  set (s1 := replace_all (BrandingSettings.blockPattern "script") EmptyString html).
  set (s2 := replace_all (BrandingSettings.blockPattern "noscript") EmptyString s1).
  set (s3 := replace_all (BrandingSettings.blockPattern "iframe") EmptyString s2).
  set (s4 := replace_all BrandingSettings.quotedHandlerPattern EmptyString s3).
  set (s5 := replace_all BrandingSettings.bareHandlerPattern EmptyString s4).
  assert (L1 : String.length s1 <= String.length html)
    by (apply replace_all_length; cbn [String.length]; lia).
  assert (L2 : String.length s2 <= String.length s1)
    by (apply replace_all_length; cbn [String.length]; lia).
  assert (L3 : String.length s3 <= String.length s2)
    by (apply replace_all_length; cbn [String.length]; lia).
  assert (L4 : String.length s4 <= String.length s3)
    by (apply replace_all_length; cbn [String.length]; lia).
  assert (L5 : String.length s5 <= String.length s4)
    by (apply replace_all_length; cbn [String.length]; lia).
  assert (L6 : String.length (replace_all BrandingSettings.scriptUrlPattern
                                          BrandingSettings.href_hash s5)
               <= String.length s5).
  { apply replace_all_length.
    assert (E : (String.length BrandingSettings.href_hash
                 <=? minlen BrandingSettings.scriptUrlPattern)%nat = true)
      by (vm_compute; reflexivity).
    apply Nat.leb_le, E. }
  lia.
Qed.

(** ** The admin screen's copy of the extraction *)

(** X17.  Whatever the input, the theme of [extractThemeFromData] has
    a non-empty background, a dark flag that says whether the
    luminance of that background is below 0.5 (also when no background
    was found and white stands in), a surface color 0.05 lighter or
    0.03 darker than the background by that flag, and a white or dark
    text color by that flag. *)
Theorem inline_theme_invariants (parse : string -> Dom.document)
  (outer : Dom.node -> string) (html : string) (cssTexts : list string) :
  let t := Inline.extractThemeFromData parse outer html cssTexts in
  Inline.bgColor t <> EmptyString
  /\ Inline.isDark t = (getLuminance (Inline.bgColor t) <? 0.5)%float
  /\ Inline.surfaceColor t
     = Inline.adjustLightness (Inline.bgColor t)
                              (if Inline.isDark t then 0.05 else -0.03)%float
  /\ Inline.textColor t = (if Inline.isDark t then "#ffffff" else "#1f2937").
Proof.
  unfold Inline.extractThemeFromData.
  cbn [Inline.bgColor Inline.isDark Inline.surfaceColor Inline.textColor].
  destruct (match search backgroundPattern (String.concat newline cssTexts) with
            | Some bgMatch => Inline.cssColorToHex (Str.trim (group 1 (f_caps bgMatch)))
            | None => None
            end) as [[|c s]|].
  - split; [discriminate|]. split; [symmetry; exact white_is_light|].
    split; reflexivity.
  - split; [discriminate|]. split; [reflexivity|].
    destruct (getLuminance (String c s) <? 0.5)%float; split; reflexivity.
  - split; [discriminate|]. split; [symmetry; exact white_is_light|].
    split; reflexivity.
Qed.

(** X18.  Whatever the input, the font family of
    [extractThemeFromData] holds no semicolon and no quote
    character. *)
Theorem inline_font_clean (parse : string -> Dom.document)
  (outer : Dom.node -> string) (html : string) (cssTexts : list string) :
  lacks (fun c => mem c (";" ++ quote_chars))
        (Inline.fontFamily (Inline.extractThemeFromData parse outer html cssTexts)) = true.
Proof.
  unfold Inline.extractThemeFromData. cbn [Inline.fontFamily].
  destruct (search (fontPattern "body") (String.concat newline cssTexts)) as [m|] eqn:S;
    [|vm_compute; reflexivity].
  apply (first_font_clean (String.concat newline cssTexts) _ ["body"]).
  cbn [first_font]. rewrite S. reflexivity.
Qed.

(** X19.  On style sheets without an opening parenthesis, where no
    [rgb(] and no [hsl(] color can occur, the engine and the admin
    screen's copy choose the same primary and the same secondary
    color. *)
Theorem palettes_agree (parse : string -> Dom.document) (outer : Dom.node -> string)
  (html : string) (cssTexts : list string) (t : PortalTheme) :
  lacks (Ascii.eqb "(") (String.concat newline cssTexts) = true ->
  extractTheme parse html cssTexts = Normal t ->
  primaryColor t
  = Inline.primaryColor (Inline.extractThemeFromData parse outer html cssTexts)
  /\ secondaryColor t
     = Inline.secondaryColor (Inline.extractThemeFromData parse outer html cssTexts).
Proof.
  intros L H. destruct (extractTheme_normal _ _ _ _ H) as (bg & -> & _).
  unfold assemble, Inline.extractThemeFromData.
  cbn [primaryColor secondaryColor Inline.primaryColor Inline.secondaryColor].
  unfold analyzeColors. rewrite (colorCounts_without_functions _ L).
  pose proof (hexColors_keys (String.concat newline cssTexts)) as K.
  apply (Permutation.Permutation_Forall
           (Permutation.Permutation_sym (sort_entries_perm _))) in K.
  destruct (sort_entries (Inline.hexColors (String.concat newline cssTexts)))
    as [|[k1 n1] [|[k2 n2] rest]].
  - split; reflexivity.
  - inversion K as [|? ? K1 _]; subst. cbn [fst] in K1.
    cbn [List.firstn List.map nth_error fst or_else].
    destruct k1 as [|c1 s1]; [destruct (K1 eq_refl)|]. split; reflexivity.
  - inversion K as [|? ? K1 K']; subst. inversion K' as [|? ? K2 _]; subst.
    cbn [fst] in K1, K2. cbn [List.firstn List.map nth_error fst or_else].
    destruct k1 as [|c1 s1]; [destruct (K1 eq_refl)|].
    destruct k2 as [|c2 s2]; [destruct (K2 eq_refl)|]. split; reflexivity.
Qed.

Lemma palettes_agree_witness :
  primaryColor
    (assemble ["#ff0000"; "#0ea5e9"] None None None None)
  = Inline.primaryColor
      (Inline.extractThemeFromData Examples.blank_parser (fun _ => EmptyString) EmptyString
         ["a{color:#0ea5e9} b{color:#ff0000}"; "c{color:#F00}"])
  /\ secondaryColor
       (assemble ["#ff0000"; "#0ea5e9"] None None None None)
     = Inline.secondaryColor
         (Inline.extractThemeFromData Examples.blank_parser (fun _ => EmptyString) EmptyString
            ["a{color:#0ea5e9} b{color:#ff0000}"; "c{color:#F00}"]).
Proof.
  apply (palettes_agree Examples.blank_parser (fun _ => EmptyString) EmptyString);
    vm_compute; reflexivity.
Defined.

(** X20.  The two copies of [adjustLightness] return the same text for
    every color text and every amount: the channels are clamped before
    they are printed, so the clamp that the copy's [rgbToHex] lacks is
    not missed. *)
Theorem adjustLightness_copies_agree (hex : string) (amount : float) :
  Inline.adjustLightness hex amount = adjustLightness hex amount.
Proof.
  unfold Inline.adjustLightness, adjustLightness, Inline.rgbToHex, rgbToHex, lighten.
  rewrite !print_clamped. reflexivity.
Qed.

(** X21.  On three integers from 0 to 255 the copy's [rgbToHex], which
    does not clamp, prints what the engine's prints. *)
Theorem inline_rgbToHex_on_bytes (r g b : Z) :
  (0 <= r <= 255)%Z -> (0 <= g <= 255)%Z -> (0 <= b <= 255)%Z ->
  Inline.rgbToHex (of_Z r) (of_Z g) (of_Z b) = rgbToHex (of_Z r) (of_Z g) (of_Z b).
Proof.
  intros Hr Hg Hb. unfold Inline.rgbToHex, rgbToHex.
  rewrite (inline_print_byte r Hr), (inline_print_byte g Hg), (inline_print_byte b Hb).
  rewrite (print_byte r Hr), (print_byte g Hg), (print_byte b Hb). reflexivity.
Qed.

Lemma inline_rgbToHex_on_bytes_witness :
  Inline.rgbToHex (of_Z 14) (of_Z 165) (of_Z 233) = rgbToHex (of_Z 14) (of_Z 165) (of_Z 233).
Proof. apply inline_rgbToHex_on_bytes; lia. Defined.

(** X22.  On a first component from 256 to 999 the two differ: the
    engine clamps it to [ff], the copy prints three digits and its
    result is no [#rrggbb]. *)
Theorem component_out_of_range (r g b : Z) :
  (256 <= r <= 999)%Z -> (0 <= g <= 255)%Z -> (0 <= b <= 255)%Z ->
  rgbToHex (of_Z r) (of_Z g) (of_Z b) = of_channels (255, g, b)%Z
  /\ is_hex6 (Inline.rgbToHex (of_Z r) (of_Z g) (of_Z b)) = false.
Proof.
  intros Hr Hg Hb.
  assert (E : forallb (fun z => String.eqb (hex2 (of_Z z)) "ff"
                                && (String.length (Str.padStart 2 (Inline.toString16 (of_Z z)))
                                    =? 3)%nat)
                      (List.map Z.of_nat (seq 256 744)) = true) by (vm_compute; reflexivity).
  rewrite forallb_forall in E. specialize (E r (in_three_digits r Hr)).
  apply andb_prop in E. destruct E as [E1 E2].
  apply String.eqb_eq in E1. apply Nat.eqb_eq in E2.
  split.
  - unfold rgbToHex, of_channels. rewrite E1.
    rewrite (print_byte g Hg), (print_byte b Hb). reflexivity.
  - destruct (is_hex6 (Inline.rgbToHex (of_Z r) (of_Z g) (of_Z b))) eqn:X; [|reflexivity].
    apply hex6_length in X. unfold Inline.rgbToHex in X.
    rewrite (inline_print_byte g Hg), (inline_print_byte b Hb) in X.
    destruct (read_two_digits g Hg) as (a1 & a2 & G & _).
    destruct (read_two_digits b Hb) as (a3 & a4 & B & _).
    rewrite G, B in X. cbn [String.length] in X.
    rewrite !length_append in X. cbn [String.length] in X. lia.
Qed.

Lemma component_out_of_range_witness :
  rgbToHex (of_Z 300) (of_Z 0) (of_Z 0) = of_channels (255, 0, 0)%Z
  /\ is_hex6 (Inline.rgbToHex (of_Z 300) (of_Z 0) (of_Z 0)) = false.
Proof. apply component_out_of_range; lia. Defined.

(** ** The style sheet *)

(** X23.  In a theme that [extractTheme] returns, each of the nine
    color fields consists of [#], lower-case hexadecimal digits and
    the [N] of [NaN] only, whatever the style sheet held. *)
Theorem extracted_colors_are_plain (parse : string -> Dom.document) (html : string)
  (cssTexts : list string) (t : PortalTheme) :
  extractTheme parse html cssTexts = Normal t ->
  Forall (fun c => Str.all is_color_char c = true) (color_fields t).
Proof.
  intros H. destruct (extractTheme_normal _ _ _ _ H) as (bg & -> & B).
  apply assemble_chars; [apply analyzeColors_chars|].
  intros s ->. apply (extractBackgroundColor_chars _ _ B).
Qed.

Lemma extracted_colors_are_plain_witness :
  Forall (fun c => Str.all is_color_char c = true)
         (color_fields (assemble ["#1a2b3c"; "#ff0000"] None (Some "#1a2b3c") None None)).
Proof.
  apply (extracted_colors_are_plain Examples.blank_parser EmptyString
           ["body{background:#1A2B3C;color:#f00}"]).
  vm_compute. reflexivity.
Defined.

(** X24.  The text that [themeToCssVariables] makes of a theme returned
    by [extractTheme] holds eleven semicolons, those of its eleven
    declarations: no extracted value brings one in. *)
Theorem stylesheet_has_eleven_semicolons (parse : string -> Dom.document) (html : string)
  (cssTexts : list string) (t : PortalTheme) :
  extractTheme parse html cssTexts = Normal t ->
  count ";" (themeToCssVariables t) = 11.
Proof.
  intros H. destruct (extractTheme_normal _ _ _ _ H) as (bg & -> & B).
  rewrite themeToCssVariables_semicolons.
  set (t := assemble _ _ _ _ _).
  assert (C : Forall (fun c => Str.all is_color_char c = true) (color_fields t)).
  { apply assemble_chars; [apply analyzeColors_chars|].
    intros s ->. apply (extractBackgroundColor_chars _ _ B). }
  assert (F : count ";" (fontFamily t) = 0).
  { apply (count_none (fun c => negb (mem c (";" ++ quote_chars)))); [reflexivity|].
    apply assemble_font. intros s E. exact (first_font_clean _ _ _ E). }
  assert (Z : Forall (fun c => count ";" c = 0) (color_fields t)).
  { revert C. apply Forall_impl. intros c. apply count_none. reflexivity. }
  unfold color_fields in Z.
  repeat match goal with
         | Z : Forall _ (_ :: _) |- _ =>
             let Z1 := fresh "Z" in let Z2 := fresh "Z" in
             apply Forall_cons_iff in Z; destruct Z as [Z1 Z2]
         end.
  lia.
Qed.

Lemma stylesheet_has_eleven_semicolons_witness :
  count ";" (themeToCssVariables (assemble ["#1a2b3c"; "#ff0000"] (Some "Georgia, serif")
                                           (Some "#1a2b3c") None None)) = 11.
Proof.
  apply (stylesheet_has_eleven_semicolons Examples.blank_parser EmptyString
           ["body{background:#1A2B3C;color:#f00;font-family:'Georgia', serif;}"]).
  vm_compute. reflexivity.
Defined.

(** X25.  The primary and the secondary color of a theme that
    [extractTheme] returns are never neutral: each is a color that the
    tally kept, or the default, and the neutral test rejects none of
    them. *)
Theorem theme_colors_not_neutral (parse : string -> Dom.document) (html : string)
  (cssTexts : list string) (t : PortalTheme) :
  extractTheme parse html cssTexts = Normal t ->
  isNeutralColor (primaryColor t) = false /\ isNeutralColor (secondaryColor t) = false.
Proof.
  intros H. destruct (extractTheme_normal _ _ _ _ H) as (bg & -> & _).
  unfold assemble. cbn [primaryColor secondaryColor].
  assert (G : forall n d, isNeutralColor d = false ->
                isNeutralColor
                  (or_else (nth_error (analyzeColors (String.concat newline cssTexts)) n) d)
                = false).
  { intros n d D.
    destruct (nth_error (analyzeColors (String.concat newline cssTexts)) n)
      as [[|c s]|] eqn:E; cbn [or_else]; try exact D.
    apply (analyzeColors_colorful (String.concat newline cssTexts)).
    exact (nth_error_In _ _ E). }
  split; apply G; vm_compute; reflexivity.
Qed.

Lemma theme_colors_not_neutral_witness :
  isNeutralColor (primaryColor (assemble ["#ff0000"] None None None None)) = false
  /\ isNeutralColor (secondaryColor (assemble ["#ff0000"] None None None None)) = false.
Proof.
  apply (theme_colors_not_neutral Examples.blank_parser EmptyString
           ["a{color:#f00} b{color:#808080}"]).
  vm_compute. reflexivity.
Defined.

End Coverage.
